(** * SparseInst (point-supervised variant): the model head's pre- and post-processing

    A shallow embedding of [sparseinst/sparseinst_point.py].

    Tensors are modelled as PyTorch stores them: a shape (a list of
    dimension sizes, so the rank is data and [x.dim()] is a run-time
    quantity) and a flat row-major element list.  Tensor elements that
    the code feeds to [exp], [sqrt] or [sigmoid] are real numbers (the
    usual idealisation of float32: no rounding, no overflow); box
    coordinates, which the code only increments and truncates, are
    rationals, so that the rasteriser computes.  Python integers are
    [Z]; Python exceptions are the [Raise] branch of a result type.

    The operations of PyTorch, detectron2 and scikit-image that the file
    calls are modelled after their documented behaviour, error
    conditions included; the conversion of a pixel to CIE Lab and the
    cast to an unsigned byte are left abstract.  The in-place update of
    the ground-truth instances by [add_bitmasks_from_boxes] is explicit
    state passing: the updated list is returned and handed to
    [prepare_targets], as [forward] does through the shared objects. *)

From Stdlib Require Import List Arith ZArith QArith Qround Reals Lia Lra Bool.
Import ListNotations.

Set Implicit Arguments.

(** ** Python exceptions *)

Module Py.

(** The exceptions that the modelled code can raise.  An assertion
    failure carries the source line of the [assert] statement, as the
    traceback does. *)
Inductive exn : Type :=
| AssertionError (line : nat)
| RuntimeError
| IndexError
| AttributeError
| ValueError
| NotImplementedError.

Inductive res (A : Type) : Type :=
| Ok (a : A)
| Raise (e : exn).

Arguments Ok {A} a.
Arguments Raise {A} e.

Definition bind {A B : Type} (m : res A) (k : A -> res B) : res B :=
  match m with
  | Ok a => k a
  | Raise e => Raise e
  end.

(** [assert cond] at source line [line]. *)
Definition assert (line : nat) (cond : bool) : res unit :=
  if cond then Ok tt else Raise (AssertionError line).

(** A [for] loop that builds a list, stopping at the first exception. *)
Fixpoint mapM {A B : Type} (f : A -> res B) (l : list A) : res (list B) :=
  match l with
  | [] => Ok []
  | a :: l' =>
      bind (f a) (fun b => bind (mapM f l') (fun bs => Ok (b :: bs)))
  end.

(** Python's slice normalisation of one bound against a length. *)
Definition slice_bound (len : nat) (i : Z) : Z :=
  if (i <? 0)%Z then Z.max (i + Z.of_nat len) 0 else Z.min i (Z.of_nat len).

(** [slice(start, stop, step).indices(len)] for a positive step: the
    first index and the number of selected positions. *)
Definition slice_indices (len : nat) (start stop : option Z) (step : Z)
  : nat * nat :=
  let lo := match start with Some s => slice_bound len s | None => 0%Z end in
  let hi := match stop with
            | Some s => slice_bound len s
            | None => Z.of_nat len
            end in
  (Z.to_nat lo,
   if (lo <? hi)%Z then Z.to_nat ((hi - lo + step - 1) / step) else 0%nat).

End Py.

Import Py.

Notation "'let*' x ':=' e 'in' k" := (Py.bind e (fun x => k))
  (at level 10, x name, e at level 100, k at level 200).

(** ** Tensors *)

Module Torch.

Record tensor (A : Type) : Type := mkTensor {
  size : list nat;
  elems : list A
}.

Definition numel (dims : list nat) : nat := fold_right Nat.mul 1%nat dims.

Definition dim {A} (t : tensor A) : nat := length (size t).

(** The storage of a tensor has one element per index. *)
Definition wf {A} (t : tensor A) : Prop :=
  length (elems t) = numel (size t).

(** All multi-indices of a shape, in row-major order. *)
Fixpoint indices (dims : list nat) : list (list nat) :=
  match dims with
  | [] => [[]]
  | n :: ds => flat_map (fun i => map (cons i) (indices ds)) (seq 0 n)
  end.

Fixpoint offset (dims idx : list nat) : nat :=
  match dims, idx with
  | _ :: ds, i :: idx' => i * numel ds + offset ds idx'
  | _, _ => 0
  end.

Fixpoint in_range (idx dims : list nat) : bool :=
  match idx, dims with
  | [], [] => true
  | i :: idx', n :: ds => (i <? n) && in_range idx' ds
  | _, _ => false
  end.

Section Generic.
Context {A : Type}.
Variable zero : A.

(** Element read; [zero] outside the shape. *)
Definition get (t : tensor A) (idx : list nat) : A :=
  if in_range idx (size t)
  then nth (offset (size t) idx) (elems t) zero
  else zero.

(** The tensor of a given shape whose element at [idx] is [f idx]. *)
Definition init (dims : list nat) (f : list nat -> A) : tensor A :=
  mkTensor dims (map f (indices dims)).

Definition full (dims : list nat) (v : A) : tensor A :=
  init dims (fun _ => v).

(** [x.size(i)] *)
Definition tsize (t : tensor A) (i : nat) : res nat :=
  match nth_error (size t) i with
  | Some n => Ok n
  | None => Raise IndexError
  end.

(** [len(x)]: the size of the first dimension. *)
Definition tlen (t : tensor A) : nat := hd 0%nat (size t).

(** Replace / insert / remove one position of an index or a shape. *)
Fixpoint set_at (k : nat) (v : nat) (l : list nat) : list nat :=
  match k, l with
  | O, _ :: l' => v :: l'
  | S k', x :: l' => x :: set_at k' v l'
  | _, [] => []
  end.

Fixpoint insert_at (k : nat) (v : nat) (l : list nat) : list nat :=
  match k, l with
  | O, _ => v :: l
  | S k', x :: l' => x :: insert_at k' v l'
  | S _, [] => [v]
  end.

Fixpoint remove_at (k : nat) (l : list nat) : list nat :=
  match k, l with
  | O, _ :: l' => l'
  | S k', x :: l' => x :: remove_at k' l'
  | _, [] => []
  end.

(** [x.reshape(shape)] on a contiguous tensor: the storage is kept,
    at most one entry of [shape] is [-1] and is inferred.  PyTorch
    refuses to infer it when the known sizes multiply to zero. *)
Definition reshape (t : tensor A) (shape : list Z) : res (tensor A) :=
  let n := numel (size t) in
  let known := numel (map Z.to_nat (filter (fun s => negb (s =? -1)%Z) shape)) in
  let holes := length (filter (fun s => (s =? -1)%Z) shape) in
  if existsb (fun s => (s <? -1)%Z) shape then Raise RuntimeError
  else match holes with
       | O => if (known =? n)%nat
              then Ok (mkTensor (map Z.to_nat shape) (elems t))
              else Raise RuntimeError
       | S O =>
           if (known =? 0)%nat then Raise RuntimeError
           else if negb (n mod known =? 0)%nat then Raise RuntimeError
           else Ok (mkTensor
                      (map (fun s => if (s =? -1)%Z then (n / known)%nat
                                     else Z.to_nat s) shape)
                      (elems t))
       | _ => Raise RuntimeError
       end.

(** Basic slicing along one axis, [x[..., start:stop:step, ...]]. *)
Definition slice (axis : nat) (start stop : option Z) (step : Z)
           (t : tensor A) : res (tensor A) :=
  match nth_error (size t) axis with
  | None => Raise IndexError
  | Some len =>
      let '(lo, cnt) := slice_indices len start stop step in
      Ok (init (set_at axis cnt (size t))
            (fun idx =>
               get t (set_at axis (lo + Z.to_nat step * nth axis idx 0) idx)))
  end%nat.

(** Integer indexing along one axis, [x[..., i, ...]]. *)
Definition select (axis : nat) (i : nat) (t : tensor A) : res (tensor A) :=
  match nth_error (size t) axis with
  | None => Raise IndexError
  | Some len =>
      if (i <? len)%nat
      then Ok (init (remove_at axis (size t))
                 (fun idx => get t (insert_at axis i idx)))
      else Raise IndexError
  end.

(** Iterating over a tensor yields its slices along dimension 0. *)
Definition unbind0 (t : tensor A) : list (tensor A) :=
  map (fun i => init (tl (size t)) (fun idx => get t (i :: idx)))
      (seq 0 (tlen t)).

(** [x.unsqueeze(axis)], also written [x[..., None, ...]], for an axis
    not beyond the rank. *)
Definition unsqueeze (axis : nat) (t : tensor A) : tensor A :=
  mkTensor (insert_at axis 1%nat (size t)) (elems t).

(** [x.squeeze(axis)]: drops the axis when its size is 1. *)
Definition squeeze (axis : nat) (t : tensor A) : tensor A :=
  match nth_error (size t) axis with
  | Some 1%nat => mkTensor (remove_at axis (size t)) (elems t)
  | _ => t
  end.

(** The first position of [a] in [perm]. *)
Fixpoint index_of (a : nat) (perm : list nat) : nat :=
  match perm with
  | [] => 0
  | p :: perm' => if (p =? a)%nat then 0 else S (index_of a perm')
  end.

(** [x.permute(perm)]: output axis [j] is input axis [perm[j]]. *)
Definition permute (perm : list nat) (t : tensor A) : tensor A :=
  init (map (fun p => nth p (size t) 0%nat) perm)
       (fun idx =>
          get t (map (fun a => nth (index_of a perm) idx 0%nat)
                     (seq 0 (length perm)))).

(** [torch.cat(ts, dim=axis)]: the element at [idx] comes from the
    first tensor whose extent along [axis] is not yet exhausted. *)
Fixpoint cat_get (axis : nat) (ts : list (tensor A)) (idx : list nat) : A :=
  match ts with
  | [] => zero
  | t :: ts' =>
      let n := nth axis (size t) 0%nat in
      let i := nth axis idx 0%nat in
      if (i <? n)%nat then get t idx
      else cat_get axis ts' (set_at axis (i - n)%nat idx)
  end.

Definition same_shape (a b : list nat) : bool :=
  if list_eq_dec Nat.eq_dec a b then true else false.

Definition cat (ts : list (tensor A)) (axis : nat) : res (tensor A) :=
  match ts with
  | [] => Raise RuntimeError
  | t0 :: _ =>
      if negb (axis <? dim t0)%nat then Raise IndexError
      else if forallb (fun t => same_shape (set_at axis 0%nat (size t))
                                           (set_at axis 0%nat (size t0))) ts
      then Ok (init (set_at axis
                       (list_sum (map (fun t => nth axis (size t) 0%nat) ts))
                       (size t0))
                    (cat_get axis ts))
      else Raise RuntimeError
  end.

(** [torch.stack(ts, dim=0)]: refuses an empty list, and tensors of
    different shapes. *)
Definition stack (ts : list (tensor A)) : res (tensor A) :=
  match ts with
  | [] => Raise RuntimeError
  | t0 :: _ =>
      if forallb (fun t => same_shape (size t) (size t0)) ts
      then Ok (init (length ts :: size t0)
                    (fun idx =>
                       match idx with
                       | i :: r => get (nth i ts t0) r
                       | [] => zero
                       end))
      else Raise RuntimeError
  end.

(** The positions of a one-dimensional boolean mask that hold [True]. *)
Definition kept_rows (keep : tensor bool) : list nat :=
  filter (fun i => nth i (elems keep) false) (seq 0 (hd 0%nat (size keep))).

(** Boolean-mask indexing [x[keep]] with a one-dimensional mask over
    dimension 0 (the only form the code uses): the rows whose mask
    entry is [True], in order.  The mask must be as long as [x]. *)
Definition index_mask (t : tensor A) (keep : tensor bool) : res (tensor A) :=
  match size keep, size t with
  | [n], m :: rest =>
      if (n =? m)%nat
      then let rows := kept_rows keep in
           Ok (init (length rows :: rest)
                    (fun idx =>
                       match idx with
                       | j :: r => get t (nth j rows 0%nat :: r)
                       | [] => zero
                       end))
      else Raise IndexError
  | _, _ => Raise IndexError
  end.

(** The number of block positions along a dimension of size [len], for
    kernel size [k], padding [p], dilation [d] and stride 1. *)
Definition unfold_out (len : nat) (k p d : Z) : Z :=
  ((Z.of_nat len + 2 * p - d * (k - 1) - 1) / 1 + 1)%Z.

(** [F.unfold(x, kernel_size, padding=, dilation=)] with stride 1 on a
    batched input (N, C, H, W): the sliding blocks, as a
    (N, C*k*k, L) tensor, [L] the number of block positions.  The
    input is zero-padded.  PyTorch rejects non-positive kernel and
    dilation, negative padding, zero-sized non-batch dimensions and
    an empty set of block positions.  (The unbatched 3D form is not
    modelled: the caller asserts a 4D input first.) *)
Definition F_unfold (x : tensor A) (k p d : Z) : res (tensor A) :=
  match size x with
  | [n; c; h; w] =>
      if ((k <=? 0) || (d <=? 0) || (p <? 0))%Z then Raise RuntimeError
      else if ((c =? 0) || (h =? 0) || (w =? 0))%nat then Raise RuntimeError
      else
        let ho := unfold_out h k p d in
        let wo := unfold_out w k p d in
        if ((ho <? 1) || (wo <? 1))%Z then Raise RuntimeError
        else
          let kk := Z.to_nat (k * k) in
          let kn := Z.to_nat k in
          let won := Z.to_nat wo in
          Ok (init [n; c * kk; Z.to_nat ho * won]%nat
                (fun idx =>
                   match idx with
                   | [b; ck; l] =>
                       let ch := (ck / kk)%nat in
                       let ki := ((ck mod kk) / kn)%nat in
                       let kj := (ck mod kn)%nat in
                       let oh := (l / won)%nat in
                       let ow := (l mod won)%nat in
                       let r := (Z.of_nat oh + Z.of_nat ki * d - p)%Z in
                       let q := (Z.of_nat ow + Z.of_nat kj * d - p)%Z in
                       if ((0 <=? r) && (r <? Z.of_nat h)
                           && (0 <=? q) && (q <? Z.of_nat w))%Z
                       then get x [b; ch; Z.to_nat r; Z.to_nat q]
                       else zero
                   | _ => zero
                   end))
  | _ => Raise RuntimeError
  end.
End Generic.

(** Broadcasting of two shapes, aligned at the last dimension. *)
Fixpoint broadcast_rev (a b : list nat) : option (list nat) :=
  match a, b with
  | [], _ => Some b
  | _, [] => Some a
  | x :: a', y :: b' =>
      match broadcast_rev a' b' with
      | None => None
      | Some r =>
          if (x =? y)%nat then Some (x :: r)
          else if (x =? 1)%nat then Some (y :: r)
          else if (y =? 1)%nat then Some (x :: r)
          else None
      end
  end.

Definition broadcast_shapes (a b : list nat) : option (list nat) :=
  option_map (@rev nat) (broadcast_rev (rev a) (rev b)).

(** The index into an operand of shape [dims] for the output index
    [idx]: leading output axes are dropped, size-1 axes read index 0. *)
Fixpoint bcast_zip (dims idx : list nat) : list nat :=
  match dims, idx with
  | n :: ds, i :: idx' => (if (n =? 1)%nat then 0%nat else i) :: bcast_zip ds idx'
  | _, _ => []
  end.

Definition bcast_index (dims idx : list nat) : list nat :=
  bcast_zip dims (skipn (length idx - length dims) idx).

(** A binary elementwise operator with broadcasting. *)
Definition bop {A B C : Type} (za : A) (zb : B) (f : A -> B -> C)
           (a : tensor A) (b : tensor B) : res (tensor C) :=
  match broadcast_shapes (size a) (size b) with
  | None => Raise RuntimeError
  | Some d =>
      Ok (init d (fun idx => f (get za a (bcast_index (size a) idx))
                               (get zb b (bcast_index (size b) idx))))
  end.

(** A unary elementwise operator. *)
Definition tmap {A B : Type} (f : A -> B) (t : tensor A) : tensor B :=
  mkTensor (size t) (map f (elems t)).

(** A reduction along one axis: [g] receives the elements along it. *)
Definition reduce {A B : Type} (za : A) (g : list A -> B) (axis : nat)
           (t : tensor A) : res (tensor B) :=
  match nth_error (size t) axis with
  | None => Raise IndexError
  | Some n =>
      Ok (init (remove_at axis (size t))
               (fun idx =>
                  g (map (fun j => get za t (insert_at axis j idx)) (seq 0 n))))
  end.

End Torch.

Import Torch.

(** ** Real-valued tensor operations *)

Module TorchR.

Local Open Scope R_scope.

Definition sigmoid (x : R) : R := 1 / (1 + exp (- x)).

Definition Rsum (l : list R) : R := fold_right Rplus 0 l.

(** The 2-norm of the elements along an axis. *)
Definition norm2 (l : list R) : R := sqrt (Rsum (map (fun v => v * v) l)).

(** [torch.norm(x, dim=axis)] *)
Definition norm (x : tensor R) (axis : nat) : res (tensor R) :=
  reduce 0 norm2 axis x.

(** [x.sum([1, 2])] *)
Definition sum12 (x : tensor R) : res (tensor R) :=
  let* inner := reduce 0 Rsum 2 x in
  reduce 0 Rsum 1 inner.

(** [x > thr] *)
Definition gt (x : tensor R) (thr : R) : tensor bool :=
  tmap (fun v => if Rlt_dec thr v then true else false) x.

(** [b.float()] on a boolean tensor *)
Definition float (b : tensor bool) : tensor R :=
  tmap (fun v : bool => if v then 1 else 0) b.

(** The largest element of a non-empty list and the first position
    that holds it. *)
Fixpoint max_arg (l : list R) : R * nat :=
  match l with
  | [] => (0, 0%nat)
  | v :: l' =>
      match l' with
      | [] => (v, 0%nat)
      | _ :: _ =>
          let '(m, j) := max_arg l' in
          if Rlt_dec v m then (m, S j) else (v, 0%nat)
      end
  end.

(** [x.max(dim=-1)] on a tensor of rank at least one: values and
    indices.  An empty reduction dimension is refused. *)
Definition max_last (x : tensor R) : res (tensor R * tensor Z) :=
  match dim x with
  | O => Raise IndexError
  | S axis =>
      match nth_error (size x) axis with
      | Some (S _) =>
          let* values := reduce 0 (fun l => fst (max_arg l)) axis x in
          let* indices :=
            reduce 0 (fun l => Z.of_nat (snd (max_arg l))) axis x in
          Ok (values, indices)
      | _ => Raise IndexError
      end
  end.

(** Bilinear resampling without corner alignment.  For output
    position [i] the source coordinate is
    [(i + 1/2) * inp / out - 1/2], clamped below at 0; it is returned
    as its integer part and the weight of the upper neighbour. *)
Definition source_index (inp out i : nat) : nat * R :=
  let num := ((2 * Z.of_nat i + 1) * Z.of_nat inp - Z.of_nat out)%Z in
  let den := (2 * Z.of_nat out)%Z in
  if (num <? 0)%Z then (0%nat, 0)
  else (Z.to_nat (num / den), IZR (num mod den) / IZR den).

Definition upper_index (inp i0 : nat) : nat :=
  if (i0 <? inp - 1)%nat then S i0 else i0.

(** [F.interpolate(x, size=(oh, ow), mode="bilinear", align_corners=False)]:
    a 4D input without empty channel or spatial dimensions, and a
    non-empty output size. *)
Definition F_interpolate (x : tensor R) (out_size : nat * nat)
  : res (tensor R) :=
  match size x with
  | [n; c; h; w] =>
      let '(oh, ow) := out_size in
      if ((c =? 0) || (h =? 0) || (w =? 0) || (oh =? 0) || (ow =? 0))%nat
      then Raise RuntimeError
      else
        Ok (init [n; c; oh; ow]
              (fun idx =>
                 match idx with
                 | [b; ch; i; j] =>
                     let '(i0, li) := source_index h oh i in
                     let '(j0, lj) := source_index w ow j in
                     let i1 := upper_index h i0 in
                     let j1 := upper_index w j0 in
                     (1 - li) * ((1 - lj) * get 0 x [b; ch; i0; j0]
                                 + lj * get 0 x [b; ch; i0; j1])
                     + li * ((1 - lj) * get 0 x [b; ch; i1; j0]
                             + lj * get 0 x [b; ch; i1; j1])
                 | _ => 0
                 end))
  | _ => Raise NotImplementedError
  end.

(** [F.avg_pool2d(x, kernel_size=k, stride=k, padding=0)] on a batched
    input. *)
Definition F_avg_pool2d (x : tensor R) (k : nat) : res (tensor R) :=
  match size x with
  | [n; c; h; w] =>
      if ((k =? 0) || (h <? k) || (w <? k))%nat then Raise RuntimeError
      else
        Ok (init [n; c; (h - k) / k + 1; (w - k) / k + 1]%nat
              (fun idx =>
                 match idx with
                 | [b; ch; i; j] =>
                     Rsum (map (fun ab =>
                                  get 0 x [b; ch;
                                           (k * i + fst ab)%nat;
                                           (k * j + snd ab)%nat])
                               (list_prod (seq 0 k) (seq 0 k)))
                     / INR (k * k)
                 | _ => 0
                 end))
  | _ => Raise RuntimeError
  end.

End TorchR.

Import TorchR.

(** ** detectron2 structures *)

(** [Instances]: an image size and a set of named fields, each present
    or absent.  Reading an absent field raises [AttributeError]. *)
Record Instances : Type := mkInstances {
  image_size : nat * nat;
  gt_boxes : option (tensor Q);
  gt_classes : option (tensor Z);
  image_color_similarity : option (tensor R);
  scores : option (tensor R);
  pred_classes : option (tensor Z);
  pred_masks : option (tensor bool)
}.

(** [Instances(image_size)]: no field set. *)
Definition new_Instances (image_size : nat * nat) : Instances :=
  mkInstances image_size None None None None None None.

(** Field assignments, [instances.name = value]. *)
Definition set_image_color_similarity (inst : Instances) (v : tensor R)
  : Instances :=
  mkInstances (image_size inst) (gt_boxes inst) (gt_classes inst) (Some v)
              (scores inst) (pred_classes inst) (pred_masks inst).

Definition set_scores (inst : Instances) (v : tensor R) : Instances :=
  mkInstances (image_size inst) (gt_boxes inst) (gt_classes inst)
              (image_color_similarity inst) (Some v)
              (pred_classes inst) (pred_masks inst).

Definition set_pred_classes (inst : Instances) (v : tensor Z) : Instances :=
  mkInstances (image_size inst) (gt_boxes inst) (gt_classes inst)
              (image_color_similarity inst) (scores inst)
              (Some v) (pred_masks inst).

Definition set_pred_masks (inst : Instances) (v : tensor bool) : Instances :=
  mkInstances (image_size inst) (gt_boxes inst) (gt_classes inst)
              (image_color_similarity inst) (scores inst)
              (pred_classes inst) (Some v).

(** Field read, [instances.name]. *)
Definition getattr {A : Type} (field : option A) : res A :=
  match field with
  | Some v => Ok v
  | None => Raise AttributeError
  end.

(** [len(instances)]: the length of a field; all fields of an
    [Instances] have the same length.  Ground-truth instances carry
    their boxes and classes. *)
Definition Instances_len (inst : Instances) : res nat :=
  match gt_boxes inst, gt_classes inst, scores inst with
  | Some b, _, _ => Ok (tlen b)
  | None, Some c, _ => Ok (tlen c)
  | None, None, Some s => Ok (tlen s)
  | None, None, None => Raise NotImplementedError
  end.

(** [BitMasks(tensor)]: the tensor as booleans; the constructor asserts
    rank 3 (an assertion of detectron2, reported here as line 0). *)
Definition BitMasks (t : tensor Q) : res (tensor bool) :=
  let* _ := assert 0 (dim t =? 3)%nat in
  Ok (tmap (fun q => negb (Qeq_bool q 0)) t).

(** ** The model *)

(** The configuration read by [SparseInst.__init__]. *)
Record config : Type := mkConfig {
  cls_threshold : R;
  mask_threshold : R;
  max_detections : Z
}.

(** [self.pairwise_size] and [self.pairwise_dilation] *)
Definition pairwise_size : Z := 3.
Definition pairwise_dilation : Z := 2.

(** The decoder's output: [pred_logits] (B, N, C), [pred_masks]
    (B, N, H/4, W/4) and [pred_scores] (B, N, 1). *)
Record decoder_output : Type := mkOutput {
  out_pred_logits : tensor R;
  out_pred_masks : tensor R;
  out_pred_scores : tensor R
}.

(** One element of [batched_inputs], as inference reads it. *)
Record batched_input : Type := mkInput {
  height : nat;
  width : nat
}.

(** One element of the list built by [prepare_targets]. *)
Record target : Type := mkTarget {
  color_sim : tensor R;
  labels : tensor Z;
  boxes : tensor Q;
  masks : tensor bool
}.

Section UnfoldWoCenter.
Context {A : Type}.
Variable zero : A.

Definition unfold_wo_center (x : tensor A) (kernel_size dilation : Z)
  : res (tensor A) :=
  let* _ := assert 21 (dim x =? 4)%nat in
  let* _ := assert 22 (kernel_size mod 2 =? 1)%Z in
  (* using SAME padding *)
  let padding :=
    ((kernel_size + (dilation - 1) * (kernel_size - 1)) / 2)%Z in
  let* unfolded_x := F_unfold zero x kernel_size padding dilation in
  let* s0 := tsize x 0 in
  let* s1 := tsize x 1 in
  let* s2 := tsize x 2 in
  let* s3 := tsize x 3 in
  let* unfolded_x :=
    reshape unfolded_x
      [Z.of_nat s0; Z.of_nat s1; (-1)%Z; Z.of_nat s2; Z.of_nat s3] in
  (* remove the center pixels *)
  let size := (kernel_size ^ 2)%Z in
  let* before := slice zero 2 None (Some (size / 2)%Z) 1%Z unfolded_x in
  let* after := slice zero 2 (Some (size / 2 + 1)%Z) None 1%Z unfolded_x in
  cat zero [before; after] 2.
End UnfoldWoCenter.

Local Open Scope R_scope.

Definition get_images_color_similarity (images image_masks : tensor R)
           (kernel_size dilation : Z) : res (tensor R) :=
  let* _ := assert 47 (dim images =? 4)%nat in
  let* batch := tsize images 0 in
  let* _ := assert 48 (batch =? 1)%nat in
  let* unfolded_images := unfold_wo_center 0 images kernel_size dilation in
  let* diff := bop 0 0 Rminus (unsqueeze 2 images) unfolded_images in
  let* distance := norm diff 1 in
  let similarity := tmap (fun v => exp (- v * 0.5)) distance in
  let* unfolded :=
    unfold_wo_center 0 (unsqueeze 0 (unsqueeze 0 image_masks))
                     kernel_size dilation in
  let* unfolded_weights := select 0 1 0 unfolded in
  bop 0 0 Rmult similarity unfolded_weights.

Definition rescoring_mask (scores : tensor R) (mask_pred : tensor bool)
           (masks : tensor R) : res (tensor R) :=
  let mask_pred_ := float mask_pred in
  let* overlap := bop 0 0 Rmult masks mask_pred_ in
  let* overlap_sum := sum12 overlap in
  let* area := sum12 mask_pred_ in
  let* maskness :=
    bop 0 0 Rdiv overlap_sum (tmap (fun v => v + 1e-6) area) in
  bop 0 0 Rmult scores maskness.

(** [int(v)] of a float: truncation towards zero. *)
Definition int_of (q : Q) : Z :=
  if Qle_bool 0 q then Qfloor q else Qceiling q.

(** [v = t[i]] followed by a scalar read, for a one-dimensional [t]. *)
Definition item (t : tensor Q) (i : nat) : res Q :=
  let* v := select 0%Q 0 i t in
  Ok (get 0%Q v []).

(** [canvas[r0:r1, c0:c1] = v] on a two-dimensional canvas. *)
Definition setitem_slice2 (canvas : tensor Q) (r0 r1 c0 c1 : Z) (v : Q)
  : res (tensor Q) :=
  match size canvas with
  | [h; w] =>
      let '(rlo, rcnt) := slice_indices h (Some r0) (Some r1) 1 in
      let '(clo, ccnt) := slice_indices w (Some c0) (Some c1) 1 in
      Ok (init [h; w]
            (fun idx =>
               match idx with
               | [r; c] =>
                   if ((rlo <=? r) && (r <? rlo + rcnt)
                       && (clo <=? c) && (c <? clo + ccnt))%nat
                   then v else get 0%Q canvas idx
               | _ => 0%Q
               end))
  | _ => Raise IndexError
  end.

(** The body of the loop over [per_im_boxes] in [prepare_targets]. *)
Definition bitmask_from_box (h w : nat) (per_box : tensor Q)
  : res (tensor Q) :=
  let bitmask_full := full [h; w] 0%Q in
  let* x1 := item per_box 0 in
  let* y1 := item per_box 1 in
  let* x2 := item per_box 2 in
  let* y2 := item per_box 3 in
  setitem_slice2 bitmask_full
    (int_of y1) (int_of (y2 + 1)%Q) (int_of x1) (int_of (x2 + 1)%Q) 1%Q.

(** The body of the loop over [targets] in [prepare_targets]. *)
Definition prepare_target (targets_per_image : Instances) : res target :=
  let* gt_classes := getattr (gt_classes targets_per_image) in
  let* gt_color_similarity :=
    getattr (image_color_similarity targets_per_image) in
  let '(h, w) := image_size targets_per_image in
  let* gt_box := getattr (gt_boxes targets_per_image) in
  let per_im_boxes := unbind0 0%Q gt_box in
  let* per_im_bitmasks_full := mapM (bitmask_from_box h w) per_im_boxes in
  let* gt_masks := stack 0%Q per_im_bitmasks_full in
  let* bit_masks := BitMasks gt_masks in
  Ok (mkTarget gt_color_similarity gt_classes gt_box bit_masks).

Definition prepare_targets (targets : list Instances) : res (list target) :=
  mapM prepare_target targets.

(** The body of the loop over the images of a batch in [inference]. *)
Definition inference_image (cfg : config) (max_shape : nat * nat)
           (scores_per_image mask_pred_per_image : tensor R)
           (input : batched_input) (img_shape : nat * nat) : res Instances :=
  let ori_shape := (height input, width input) in
  let result := new_Instances ori_shape in
  (* max/argmax *)
  let* best := max_last scores_per_image in
  let scores := fst best in
  let labels := snd best in
  (* cls threshold *)
  let keep := gt scores (cls_threshold cfg) in
  let* scores := index_mask 0 scores keep in
  let* labels := index_mask 0%Z labels keep in
  let* mask_pred_per_image := index_mask 0 mask_pred_per_image keep in
  let* kept := tsize scores 0 in
  if (kept =? 0)%nat then
    let result := set_scores result scores in
    let result := set_pred_classes result labels in
    Ok result
  else
    let '(h, w) := img_shape in
    (* rescoring mask using maskness *)
    let* scores :=
      rescoring_mask scores (gt mask_pred_per_image (mask_threshold cfg))
                     mask_pred_per_image in
    (* upsample to the padded inputs, remove the padding area *)
    let* padded := F_interpolate (unsqueeze 1 mask_pred_per_image) max_shape in
    let* cropped := slice 0 2 None (Some (Z.of_nat h)) 1 padded in
    let* cropped := slice 0 3 None (Some (Z.of_nat w)) 1 cropped in
    (* resample to the original size *)
    let* resized := F_interpolate cropped ori_shape in
    let mask_pred_per_image := squeeze 1 resized in
    let mask_pred := gt mask_pred_per_image (mask_threshold cfg) in
    (* using Detectron2 Instances to store the final results *)
    let result := set_pred_masks result mask_pred in
    let result := set_scores result scores in
    let result := set_pred_classes result labels in
    Ok result.

Definition inference (cfg : config) (output : decoder_output)
           (batched_inputs : list batched_input) (max_shape : nat * nat)
           (image_sizes : list (nat * nat)) : res (list Instances) :=
  let pred_scores := tmap sigmoid (out_pred_logits output) in
  let pred_masks := tmap sigmoid (out_pred_masks output) in
  let pred_objectness := tmap sigmoid (out_pred_scores output) in
  let* product := bop 0 0 Rmult pred_scores pred_objectness in
  let pred_scores := tmap sqrt product in
  mapM (fun it =>
          match it with
          | (scores_per_image, mask_pred_per_image, input, img_shape) =>
              inference_image cfg max_shape scores_per_image
                              mask_pred_per_image input img_shape
          end)
       (combine (combine (combine (unbind0 0 pred_scores)
                                  (unbind0 0 pred_masks))
                         batched_inputs)
                image_sizes).

Section ColorSpace.
(** External collaborators of [add_bitmasks_from_boxes]: the cast of a
    float to an unsigned byte, and scikit-image's conversion of one RGB
    pixel to CIE Lab. *)
Variable byte : R -> R.
Variable rgb2lab_pixel : R * R * R -> R * R * R.

(** [color.rgb2lab] on an (H, W, 3) array. *)
Definition rgb2lab (img : tensor R) : res (tensor R) :=
  match size img with
  | [h; w; 3%nat] =>
      Ok (init [h; w; 3%nat]
            (fun idx =>
               match idx with
               | [r; c; ch] =>
                   let lab := rgb2lab_pixel (get 0 img [r; c; 0%nat],
                                             get 0 img [r; c; 1%nat],
                                             get 0 img [r; c; 2%nat]) in
                   match ch with
                   | 0%nat => fst (fst lab)
                   | 1%nat => snd (fst lab)
                   | _ => snd lab
                   end
               | _ => 0
               end))
  | _ => Raise ValueError
  end.

(** The body of the loop over [instances] in
    [add_bitmasks_from_boxes]; the mutated instance is returned. *)
Definition add_bitmasks_image (downsampled_images image_masks : tensor R)
           (im_i : nat) (per_im_gt_inst : Instances) : res Instances :=
  let* image := select 0 0 im_i downsampled_images in
  let* images_lab := rgb2lab (permute 0 [1; 2; 0]%nat (tmap byte image)) in
  let images_lab := unsqueeze 0 (permute 0 [2; 0; 1]%nat images_lab) in
  let* mask := select 0 0 im_i image_masks in
  let* images_color_similarity :=
    get_images_color_similarity images_lab mask
                                pairwise_size pairwise_dilation in
  let* n := Instances_len per_im_gt_inst in
  if (0 <? n)%nat then
    let* replicated := cat 0 (repeat images_color_similarity n) 0 in
    Ok (set_image_color_similarity per_im_gt_inst replicated)
  else Ok per_im_gt_inst.

Definition add_bitmasks_from_boxes (instances : list Instances)
           (images image_masks : tensor R) (im_h im_w : nat)
  : res (list Instances) :=
  let stride := 4%nat in
  let start := (stride / 2)%nat in
  let* rows := tsize images 2 in
  let* _ := assert 299 (rows mod stride =? 0)%nat in
  let* cols := tsize images 3 in
  let* _ := assert 300 (cols mod stride =? 0)%nat in
  let* downsampled_images := F_avg_pool2d images stride in
  let* image_masks :=
    slice 0 1 (Some (Z.of_nat start)) None (Z.of_nat stride) image_masks in
  let* image_masks :=
    slice 0 2 (Some (Z.of_nat start)) None (Z.of_nat stride) image_masks in
  mapM (fun it => add_bitmasks_image downsampled_images image_masks
                                     (fst it) (snd it))
       (combine (seq 0 (length instances)) instances).

(** The training branch of [forward], from the padded images to the
    targets handed to the criterion. *)
Definition training_targets (gt_instances : list Instances)
           (original_images original_image_masks : tensor R)
  : res (list target) :=
  let* h := tsize original_images 2 in
  let* w := tsize original_images 3 in
  let* gt_instances :=
    add_bitmasks_from_boxes gt_instances original_images
                            original_image_masks h w in
  prepare_targets gt_instances.
End ColorSpace.

(** ** Normalisation, batching and the forward passes *)

(** The normalisation buffers set by [SparseInst.__init__]. *)
Record buffers : Type := mkBuffers {
  pixel_mean : tensor R;
  pixel_std : tensor R
}.

(** [torch.Tensor(values).view(3, 1, 1)] *)
Definition view311 (values : list R) : res (tensor R) :=
  reshape (mkTensor [length values] values) [3; 1; 1]%Z.

(** The part of [__init__] that builds the buffers from
    [cfg.MODEL.PIXEL_MEAN] and [cfg.MODEL.PIXEL_STD]. *)
Definition init_buffers (PIXEL_MEAN PIXEL_STD : list R) : res buffers :=
  let* pixel_mean := view311 PIXEL_MEAN in
  let* pixel_std := view311 PIXEL_STD in
  Ok (mkBuffers pixel_mean pixel_std).

Definition normalizer (self : buffers) (image : tensor R) : res (tensor R) :=
  let* centred := bop 0 0 Rminus image (pixel_mean self) in
  bop 0 0 Rdiv centred (pixel_std self).

(** detectron2's [ImageList]: a batch tensor of zero-padded images and
    the size that each image had before the padding. *)
Record ImageList : Type := mkImageList {
  il_tensor : tensor R;
  image_sizes : list (nat * nat)
}.

(** [(t.shape[-2], t.shape[-1])] *)
Definition last2 (t : tensor R) : res (nat * nat) :=
  match rev (size t) with
  | w :: h :: _ => Ok (h, w)
  | _ => Raise IndexError
  end.

(** [t.shape[:-2]] *)
Definition lead (t : tensor R) : list nat := rev (skipn 2 (rev (size t))).

(** [(n + (stride - 1)) // stride * stride] *)
Definition round_up (stride n : nat) : nat :=
  ((n + (stride - 1)) / stride * stride)%nat.

(** [ImageList.from_tensors(tensors, size_divisibility)] with the
    padding value 0: the images are copied into the top-left corner of
    a batch whose last two dimensions are the largest height and width,
    rounded up to a multiple of [size_divisibility].  The assertions
    are detectron2's, reported as line 0. *)
Definition from_tensors (tensors : list (tensor R)) (size_divisibility : nat)
  : res ImageList :=
  let* _ := assert 0 (0 <? length tensors)%nat in
  let t0 := hd (mkTensor [] []) tensors in
  let* _ :=
    assert 0 (forallb (fun t => same_shape (lead t) (lead t0)) tensors) in
  let* image_sizes := mapM last2 tensors in
  let max_h := list_max (map fst image_sizes) in
  let max_w := list_max (map snd image_sizes) in
  let '(max_h, max_w) :=
    if (1 <? size_divisibility)%nat
    then (round_up size_divisibility max_h, round_up size_divisibility max_w)
    else (max_h, max_w) in
  let batch_shape := (length tensors :: lead t0 ++ [max_h; max_w])%list in
  Ok (mkImageList
        (init batch_shape
              (fun idx =>
                 match idx with
                 | i :: rest =>
                     match nth_error tensors i with
                     | Some img =>
                         if in_range rest (size img) then get 0 img rest else 0
                     | None => 0
                     end
                 | [] => 0
                 end))
        image_sizes).

(** [image_list[idx]]: image [idx] without its padding. *)
Definition ImageList_getitem (self : ImageList) (idx : nat) : res (tensor R) :=
  match nth_error (image_sizes self) idx with
  | None => Raise IndexError
  | Some (h, w) =>
      let* img := select 0 0 idx (il_tensor self) in
      let* img := slice 0 (dim img - 2) None (Some (Z.of_nat h)) 1 img in
      slice 0 (dim img - 1) None (Some (Z.of_nat w)) 1 img
  end.

(** Iterating over an [ImageList] reads its items in order. *)
Definition ImageList_iter (self : ImageList) : res (list (tensor R)) :=
  mapM (ImageList_getitem self) (seq 0 (length (image_sizes self))).

(** One element of [batched_inputs], as [forward] reads it: the image,
    the ground-truth instances and the keys with the original size. *)
Record model_input : Type := mkModelInput {
  image : tensor R;
  instances : Instances;
  original : batched_input
}.

Definition preprocess_inputs (self : buffers) (batched_inputs : list model_input)
  : res ImageList :=
  let images := map image batched_inputs in
  let* images := mapM (normalizer self) images in
  from_tensors images 32.

(** One element of the list returned by [forward] in evaluation mode:
    a dictionary with the single key "instances". *)
Record processed_result : Type := mkProcessed {
  result_instances : Instances
}.

(** [images.tensor.shape[2:]] of the 4D batch that the backbone takes.
    A batch of another rank is refused by the backbone's first
    convolution; the model reports that [RuntimeError] here. *)
Definition shape_from_2 (t : tensor R) : res (nat * nat) :=
  match size t with
  | [_; _; h; w] => Ok (h, w)
  | _ => Raise RuntimeError
  end.

(** [F.interpolate(x, scale_factor=s, mode="bilinear", align_corners=False)]
    for a whole scale factor: the output size is the input size times
    [s], and the source coordinates are those of that output size. *)
Definition F_interpolate_scale (x : tensor R) (scale_factor : nat)
  : res (tensor R) :=
  match size x with
  | [_; _; h; w] => F_interpolate x (scale_factor * h, scale_factor * w)%nat
  | _ => Raise NotImplementedError
  end.

Section Network.
(** External collaborators of the forward passes: the color-space
    conversion, the network (backbone, encoder and decoder in
    sequence) and the criterion with its losses. *)
Variable byte : R -> R.
Variable rgb2lab_pixel : R * R * R -> R * R * R.
Variable Losses : Type.
Variable network : tensor R -> res decoder_output.
Variable criterion :
  decoder_output -> list target -> nat * nat -> res Losses.

(** [forward]; [training] is [self.training].  The [isinstance] branch
    is dead: [preprocess_inputs] returns an [ImageList]. *)
Definition forward (self : buffers) (cfg : config) (training : bool)
           (batched_inputs : list model_input)
  : res (Losses + list processed_result) :=
  let* images := preprocess_inputs self batched_inputs in
  let* max_shape := shape_from_2 (il_tensor images) in
  (* forward *)
  let* output := network (il_tensor images) in
  if training then
    let gt_instances := map instances batched_inputs in
    let original_images := map image batched_inputs in
    let* original_images := from_tensors original_images 32 in
    let* unpadded := ImageList_iter original_images in
    let* original_image_masks :=
      mapM (fun x => let* x0 := select 0 0 0 x in Ok (full (size x0) 1))
           unpadded in
    let* original_image_masks := from_tensors original_image_masks 32 in
    let* targets :=
      training_targets byte rgb2lab_pixel gt_instances
                       (il_tensor original_images)
                       (il_tensor original_image_masks) in
    let* losses := criterion output targets max_shape in
    Ok (inl losses)
  else
    let* results :=
      inference cfg output (map original batched_inputs) max_shape
                (image_sizes images) in
    Ok (inr (map mkProcessed results)).

Definition forward_test (self : buffers) (images : tensor R)
  : res (tensor R * tensor R) :=
  (* normalize *)
  let* centred := bop 0 0 Rminus images (unsqueeze 0 (pixel_mean self)) in
  let* images := bop 0 0 Rdiv centred (unsqueeze 0 (pixel_std self)) in
  let* output := network images in
  let pred_scores := tmap sigmoid (out_pred_logits output) in
  let pred_masks := tmap sigmoid (out_pred_masks output) in
  let pred_objectness := tmap sigmoid (out_pred_scores output) in
  let* product := bop 0 0 Rmult pred_scores pred_objectness in
  let pred_scores := tmap sqrt product in
  let* pred_masks := F_interpolate_scale pred_masks 4 in
  Ok (pred_scores, pred_masks).
End Network.

(** ** Notions used to state the properties *)

(** The sum of [f r c] over the rows [r < h] and columns [c < w], in
    the order in which [x.sum([1, 2])] visits them. *)
Definition sum_hw (h w : nat) (f : nat -> nat -> R) : R :=
  Rsum (map (fun r => Rsum (map (fun c => f r c) (seq 0 w))) (seq 0 h)).

(** A boolean as the float that [.float()] makes of it. *)
Definition b2r (b : bool) : R := if b then 1 else 0.

(** The maskness of slot [row] of an image's soft masks (N, H, W): the
    mean of the soft mask over the pixels above the mask threshold, as
    [rescoring_mask] computes it for that slot. *)
Definition maskness (thr : R) (mask_pred_per_image : tensor R) (row : nat) : R :=
  let hm := nth 1 (size mask_pred_per_image) 0%nat in
  let wm := nth 2 (size mask_pred_per_image) 0%nat in
  let above r c :=
    b2r (if Rlt_dec thr (get 0 mask_pred_per_image [row; r; c])
         then true else false) in
  sum_hw hm wm (fun r c => get 0 mask_pred_per_image [row; r; c] * above r c)
  / (sum_hw hm wm above + 1e-6).

(** The best combined score of slot [i] of an (N, C) score matrix: the
    value that [max(dim=-1)] returns for that row. *)
Definition best_score (scores_per_image : tensor R) (i : nat) : R :=
  fst (max_arg (map (fun j => get 0 scores_per_image [i; j])
                    (seq 0 (nth 1 (size scores_per_image) 0%nat)))).

(** The class that [max(dim=-1)] reports for slot [i]. *)
Definition best_label (scores_per_image : tensor R) (i : nat) : Z :=
  Z.of_nat (snd (max_arg (map (fun j => get 0 scores_per_image [i; j])
                              (seq 0 (nth 1 (size scores_per_image) 0%nat))))).

(** The empty detection set of an image. *)
Definition empty_result (input : batched_input) : Instances :=
  mkInstances (height input, width input) None None None
              (Some (mkTensor [0%nat] [])) (Some (mkTensor [0%nat] [])) None.

(** Membership in the unit interval. *)
Definition in01 (v : R) : Prop := (0 <= v <= 1)%R.

(** The combined scores that [inference] computes before its loop:
    [sqrt(pred_logits.sigmoid() * pred_scores.sigmoid())]. *)
Definition combined_scores (output : decoder_output) : res (tensor R) :=
  let* product :=
    bop 0 0 Rmult (tmap sigmoid (out_pred_logits output))
                  (tmap sigmoid (out_pred_scores output)) in
  Ok (tmap sqrt product).

(** The [i]-th tensor met when iterating over [t]. *)
Definition image_slice (t : tensor R) (i : nat) : tensor R :=
  init (tl (size t)) (fun idx => get 0 t (i :: idx)).

(** [asserts_in r lines]: if [r] is a failed assertion, the assertion
    is one of those at [lines]. *)
Definition asserts_in {A : Type} (r : res A) (lines : list nat) : Prop :=
  forall line, r = Raise (AssertionError line) -> In line lines.

(** The pixel that plane [j] of [unfold_wo_center]'s output pairs with
    the pixel at row [r] and column [q]: the [k] x [k] window around
    the pixel is read row by row with its centre left out, and a step
    of the window is [d] pixels. *)
Definition neighbour (k d : Z) (j r q : nat) : Z * Z :=
  let t := Z.of_nat (if (j <? Z.to_nat (k * k / 2))%nat then j else S j) in
  (Z.of_nat r + d * (t / k - k / 2), Z.of_nat q + d * (t mod k - k / 2))%Z.

(** Whether a position lies on an image of [h] rows and [w] columns. *)
Definition inside (h w : nat) (p : Z * Z) : bool :=
  ((0 <=? fst p) && (fst p <? Z.of_nat h)
   && (0 <=? snd p) && (snd p <? Z.of_nat w))%Z.


(** A set of reals closed under weighted means of two of its members. *)
Definition convex (P : R -> Prop) : Prop :=
  forall a b t, P a -> P b -> (0 <= t <= 1)%R -> P ((1 - t) * a + t * b)%R.

(** ** Example inputs *)

(** A decoder output for one image with one slot, one class and a
    one-pixel mask, all logits zero. *)
Definition example_output : decoder_output :=
  mkOutput (mkTensor [1; 1; 1]%nat [0]) (mkTensor [1; 1; 1; 1]%nat [0])
           (mkTensor [1; 1; 1]%nat [0]).

Definition example_input : batched_input := mkInput 2 2.

(** Ground-truth instances of a 4x4 image without any object. *)
Definition zero_instances : Instances :=
  mkInstances (4, 4)%nat (Some (mkTensor [0; 4]%nat []))
              (Some (mkTensor [0]%nat [])) None None None None.

(** A configuration whose classification threshold no score exceeds. *)
Definition strict_config : config := mkConfig 1 0.5 100.

(** A configuration whose classification threshold every score exceeds. *)
Definition lenient_config : config := mkConfig (-1) 0.5 100.

(** * Properties *)

(** ** Tensors: shapes, storage and element access *)

Local Open Scope nat_scope.

Lemma length_indices (dims : list nat) : length (indices dims) = numel dims.
Proof.
  induction dims as [|n ds IH]; simpl; [reflexivity|].
  generalize 0%nat as a.
  induction n as [|n IHn]; intros a; simpl; [reflexivity|].
  rewrite length_app, length_map, IH, IHn. reflexivity.
Qed.

Lemma wf_init {A} (dims : list nat) (f : list nat -> A) : wf (init dims f).
Proof. unfold wf, init; simpl. now rewrite length_map, length_indices. Qed.

Lemma in_range_offset (dims idx : list nat) :
  in_range idx dims = true -> (offset dims idx < numel dims)%nat.
Proof.
  revert idx; induction dims as [|n ds IH]; intros [|i idx]; simpl; try discriminate.
  - lia.
  - intros H. apply andb_prop in H as [Hi Hr]. apply Nat.ltb_lt in Hi.
    specialize (IH _ Hr). nia.
Qed.

Lemma nth_error_blocks {B} (g : nat -> list B) (m : nat) :
  (forall i, length (g i) = m) ->
  forall n a i j, (i < n)%nat -> (j < m)%nat ->
    nth_error (flat_map g (seq a n)) (i * m + j) = nth_error (g (a + i)%nat) j.
Proof.
  intros Hg. induction n as [|n IH]; intros a i j Hi Hj; [lia|]. simpl.
  destruct i as [|i].
  - rewrite nth_error_app1 by (rewrite Hg; lia). now rewrite Nat.add_0_r.
  - rewrite nth_error_app2 by (rewrite Hg; simpl; lia).
    rewrite Hg. replace (S i * m + j - m)%nat with (i * m + j)%nat by (simpl; lia).
    rewrite IH by lia. f_equal. f_equal. lia.
Qed.

Lemma nth_error_indices (dims idx : list nat) :
  in_range idx dims = true ->
  nth_error (indices dims) (offset dims idx) = Some idx.
Proof.
  revert idx; induction dims as [|n ds IH]; intros [|i idx]; simpl; try discriminate.
  - reflexivity.
  - intros H. apply andb_prop in H as [Hi Hr]. apply Nat.ltb_lt in Hi.
    rewrite (@nth_error_blocks _ (fun i => map (cons i) (indices ds)) (numel ds)).
    + rewrite nth_error_map, (IH _ Hr). reflexivity.
    + intros. now rewrite length_map, length_indices.
    + exact Hi.
    + now apply in_range_offset.
Qed.

Lemma get_init {A} (z : A) (dims : list nat) (f : list nat -> A) (idx : list nat) :
  in_range idx dims = true -> get z (init dims f) idx = f idx.
Proof.
  intros H. unfold get, init; simpl. rewrite H.
  apply nth_error_nth. rewrite nth_error_map, (nth_error_indices _ _ H). reflexivity.
Qed.

Lemma in_indices (dims idx : list nat) :
  In idx (indices dims) -> in_range idx dims = true.
Proof.
  revert idx; induction dims as [|n ds IH]; intros idx; simpl.
  - intros [<-|[]]. reflexivity.
  - rewrite in_flat_map. intros (i & Hi & Hin).
    apply in_map_iff in Hin as (r & <- & Hr). apply in_seq in Hi. simpl.
    rewrite (IH _ Hr), andb_true_r. apply Nat.ltb_lt. lia.
Qed.

Lemma Forall_init {A} (P : A -> Prop) (dims : list nat) (f : list nat -> A) :
  (forall idx, in_range idx dims = true -> P (f idx)) ->
  Forall P (elems (init dims f)).
Proof.
  intros H. unfold init; simpl. apply Forall_forall. intros v Hv.
  apply in_map_iff in Hv as (idx & <- & Hin). apply H, in_indices, Hin.
Qed.

Lemma get_cases {A} (z : A) (t : tensor A) (idx : list nat) :
  get z t idx = z \/ In (get z t idx) (elems t).
Proof.
  unfold get. destruct (in_range idx (size t)); [|now left].
  destruct (nth_in_or_default (offset (size t) idx) (elems t) z); auto.
Qed.

(** ** The unfold primitive *)

Lemma same_padding (k d : Z) :
  (k mod 2 = 1)%Z -> (2 * ((k + (d - 1) * (k - 1)) / 2) = d * (k - 1))%Z.
Proof.
  intros Hk.
  assert (Hk' : (k = 2 * (k / 2) + 1)%Z) by (pose proof (Z.div_mod k 2); lia).
  set (m := (k / 2)%Z) in *.
  replace (k + (d - 1) * (k - 1))%Z with (1 + (m * d) * 2)%Z by lia.
  rewrite Z.div_add by lia. change (1 / 2)%Z with 0%Z. lia.
Qed.

Lemma unfold_out_same (len : nat) (k p d : Z) :
  (2 * p = d * (k - 1))%Z -> unfold_out len k p d = Z.of_nat len.
Proof. intros H. unfold unfold_out. rewrite Z.div_1_r. lia. Qed.

Lemma F_unfold_same {A} (z : A) (x : tensor A) (n c h w : nat) (k p d : Z) :
  size x = [n; c; h; w] ->
  (0 < c)%nat -> (0 < h)%nat -> (0 < w)%nat ->
  (0 < k)%Z -> (0 < d)%Z -> (2 * p = d * (k - 1))%Z ->
  exists y, F_unfold z x k p d = Ok y
            /\ size y = [n; c * Z.to_nat (k * k); h * w]%nat
            /\ wf y.
Proof.
  intros Hx Hc Hh Hw Hk Hd Hp. unfold F_unfold. rewrite Hx.
  rewrite !unfold_out_same by exact Hp.
  replace ((k <=? 0) || (d <=? 0) || (p <? 0))%Z with false
    by (symmetry; rewrite !orb_false_iff; repeat split;
        [apply Z.leb_gt|apply Z.leb_gt|apply Z.ltb_ge]; nia).
  replace ((c =? 0) || (h =? 0) || (w =? 0))%nat with false
    by (symmetry; rewrite !orb_false_iff, !Nat.eqb_neq; lia).
  replace ((Z.of_nat h <? 1) || (Z.of_nat w <? 1))%Z with false
    by (symmetry; rewrite !orb_false_iff, !Z.ltb_ge; lia).
  eexists; split; [reflexivity|]. split; [|apply wf_init].
  simpl. now rewrite !Nat2Z.id.
Qed.

Lemma reshape_infer {A} (y : tensor A) (n c m h w : nat) :
  size y = [n; c * m; h * w] ->
  0 < n -> 0 < c -> 0 < h -> 0 < w ->
  reshape y [Z.of_nat n; Z.of_nat c; (-1)%Z; Z.of_nat h; Z.of_nat w]
  = Ok (mkTensor [n; c; m; h; w] (elems y)).
Proof.
  intros Hy Hn Hc Hh Hw. unfold reshape. rewrite Hy.
  assert (Hneg : forall a : nat, (Z.of_nat a <? -1)%Z = false)
    by (intros; apply Z.ltb_ge; lia).
  assert (Hhole : forall a : nat, (Z.of_nat a =? -1)%Z = false)
    by (intros; apply Z.eqb_neq; lia).
  cbn [existsb filter negb map length]. rewrite !Hneg, !Hhole.
  change (-1 <? -1)%Z with false. change (-1 =? -1)%Z with true.
  cbn [orb negb map length numel fold_right].
  rewrite !Nat2Z.id.
  set (known := n * (c * (h * (w * 1)))).
  assert (Hk : 0 < known) by (unfold known; nia).
  replace (n * (c * m * (h * w * 1))) with (m * known) by (unfold known; nia).
  destruct (Nat.eqb_spec known 0); [lia|].
  rewrite Nat.Div0.mod_mul, Nat.div_mul by lia. reflexivity.
Qed.

Lemma slice_ok {A} (z : A) (axis : nat) (start stop : option Z) (step : Z)
      (t : tensor A) (len : nat) :
  nth_error (size t) axis = Some len ->
  exists y, slice z axis start stop step t = Ok y
            /\ size y = set_at axis (snd (slice_indices len start stop step)) (size t)
            /\ wf y.
Proof.
  intros H. unfold slice. rewrite H.
  destruct (slice_indices len start stop step) as [lo cnt].
  eexists; split; [reflexivity|]. split; [reflexivity|apply wf_init].
Qed.

Lemma same_shape_refl (a : list nat) : same_shape a a = true.
Proof. unfold same_shape. destruct (list_eq_dec Nat.eq_dec a a); congruence. Qed.

(** The shape computed by [unfold_wo_center] on a non-empty batched
    input, for an odd kernel. *)
Lemma unfold_wo_center_size {A} (z : A) (x : tensor A)
        (n c h w : nat) (k d : Z) :
  size x = [n; c; h; w] ->
  0 < n -> 0 < c -> 0 < h -> 0 < w ->
  (k mod 2 = 1)%Z -> (1 <= k)%Z -> (1 <= d)%Z ->
  exists y, unfold_wo_center z x k d = Ok y
            /\ size y = [n; c; Z.to_nat (k * k - 1); h; w]
            /\ wf y.
Proof.
  intros Hx Hn Hc Hh Hw Hodd Hk Hd.
  unfold unfold_wo_center, dim, tsize. rewrite Hx.
  cbn [length Nat.eqb assert bind nth_error].
  rewrite Hodd. cbn [Z.eqb Pos.eqb assert bind].
  destruct (@F_unfold_same A z x n c h w k ((k + (d - 1) * (k - 1)) / 2)%Z d)
    as (y & -> & Hy & _); try assumption; try lia.
  { now apply same_padding. }
  cbn [bind]. rewrite (@reshape_infer A y n c _ h w Hy) by assumption. cbn [bind].
  set (kk := Z.to_nat (k * k)) in *.
  set (u := mkTensor [n; c; kk; h; w] (elems y)).
  assert (Hu : nth_error (size u) 2 = Some kk) by reflexivity.
  assert (Hkk : (k ^ 2 = k * k)%Z) by lia.
  assert (Hs : (k * k = 2 * (k * k / 2) + 1)%Z).
  { pose proof (Z.div_mod (k * k) 2).
    assert ((k * k) mod 2 = 1)%Z; [|lia].
    rewrite Z.mul_mod, Hodd by lia. reflexivity. }
  assert (H9 : (1 <= k * k)%Z) by nia.
  destruct (@slice_ok A z 2 None (Some (k ^ 2 / 2)%Z) 1%Z u _ Hu) as (a & -> & Ha & _).
  destruct (@slice_ok A z 2 (Some (k ^ 2 / 2 + 1)%Z) None 1%Z u _ Hu)
    as (b & -> & Hb & _).
  cbn [bind]. rewrite Hkk in *.
  set (s := (k * k / 2)%Z) in *.
  unfold slice_indices, slice_bound in Ha, Hb. cbn [snd] in Ha, Hb.
  assert (Hkz : Z.of_nat kk = (k * k)%Z) by (unfold kk; lia).
  rewrite Hkz in *.
  replace (s <? 0)%Z with false in Ha by (symmetry; apply Z.ltb_ge; lia).
  replace (s + 1 <? 0)%Z with false in Hb by (symmetry; apply Z.ltb_ge; lia).
  rewrite Z.div_1_r in Ha, Hb.
  assert (Ea : (if (0 <? Z.min s (k * k))%Z
                then Z.to_nat (Z.min s (k * k) - 0 + 1 - 1) else 0)
               = Z.to_nat s)
    by (destruct (Z.ltb_spec 0 (Z.min s (k * k))); lia).
  assert (Eb : (if (Z.min (s + 1) (k * k) <? k * k)%Z
                then Z.to_nat (k * k - Z.min (s + 1) (k * k) + 1 - 1) else 0)
               = Z.to_nat s)
    by (destruct (Z.ltb_spec (Z.min (s + 1) (k * k)) (k * k)); lia).
  rewrite Ea in Ha. rewrite Eb in Hb.
  cbn [size u set_at] in Ha, Hb.
  unfold cat, dim. rewrite Ha. cbn [length Nat.ltb Nat.leb negb forallb].
  rewrite Ha, Hb. cbn [set_at]. rewrite same_shape_refl. cbn [andb].
  eexists; split; [reflexivity|]. split; [|apply wf_init].
  cbn [size init set_at map]. rewrite Ha, Hb. cbn [nth list_sum].
  do 2 f_equal. f_equal. cbn [list_sum fold_right]. lia.
Qed.

(** ** Broadcasting, elementwise maps and reductions *)

Lemma broadcast_rev_refl (a : list nat) : broadcast_rev a a = Some a.
Proof.
  induction a as [|x a IH]; simpl; [reflexivity|].
  now rewrite IH, Nat.eqb_refl.
Qed.

Lemma broadcast_shapes_refl (a : list nat) : broadcast_shapes a a = Some a.
Proof.
  unfold broadcast_shapes. rewrite broadcast_rev_refl. simpl.
  now rewrite rev_involutive.
Qed.

Lemma bcast_zip_id (dims idx : list nat) :
  in_range idx dims = true -> bcast_zip dims idx = idx.
Proof.
  revert idx; induction dims as [|n ds IH]; intros [|i idx]; simpl;
    try discriminate; try reflexivity.
  intros H. apply andb_prop in H as [Hi Hr]. apply Nat.ltb_lt in Hi.
  rewrite (IH _ Hr). destruct (Nat.eqb_spec n 1); [f_equal; lia|reflexivity].
Qed.

Lemma in_range_length (idx dims : list nat) :
  in_range idx dims = true -> length idx = length dims.
Proof.
  revert dims; induction idx as [|i idx IH]; intros [|n ds]; simpl;
    try discriminate; try reflexivity.
  intros H. apply andb_prop in H as [_ Hr]. now rewrite (IH _ Hr).
Qed.

Lemma bcast_index_id (dims idx : list nat) :
  in_range idx dims = true -> bcast_index dims idx = idx.
Proof.
  intros H. unfold bcast_index. rewrite (in_range_length _ _ H), Nat.sub_diag.
  simpl. now apply bcast_zip_id.
Qed.

(** An elementwise operator on two tensors of one shape. *)
Lemma bop_same {A B C} (za : A) (zb : B) (f : A -> B -> C)
      (a : tensor A) (b : tensor B) :
  size a = size b ->
  bop za zb f a b
  = Ok (init (size a)
             (fun idx => f (get za a (bcast_index (size a) idx))
                           (get zb b (bcast_index (size b) idx)))).
Proof.
  intros H. unfold bop. now rewrite <- H, broadcast_shapes_refl.
Qed.

Lemma get_tmap {A B} (za : A) (zb : B) (f : A -> B) (t : tensor A)
      (idx : list nat) :
  wf t -> in_range idx (size t) = true ->
  get zb (tmap f t) idx = f (get za t idx).
Proof.
  intros Hwf H. unfold get, tmap; simpl. rewrite H.
  apply in_range_offset in H. rewrite <- Hwf in H.
  rewrite (nth_indep _ zb (f za)) by (now rewrite length_map).
  apply map_nth.
Qed.

Lemma wf_tmap {A B} (f : A -> B) (t : tensor A) : wf t -> wf (tmap f t).
Proof. unfold wf, tmap; simpl. now rewrite length_map. Qed.

Lemma reduce_ok {A B} (za : A) (g : list A -> B) (axis : nat)
      (t : tensor A) (n : nat) :
  nth_error (size t) axis = Some n ->
  reduce za g axis t
  = Ok (init (remove_at axis (size t))
             (fun idx =>
                g (map (fun j => get za t (insert_at axis j idx)) (seq 0 n)))).
Proof. intros H. unfold reduce. now rewrite H. Qed.

Lemma select_ok {A} (z : A) (axis i : nat) (t : tensor A) (len : nat) :
  nth_error (size t) axis = Some len -> i < len ->
  select z axis i t
  = Ok (init (remove_at axis (size t)) (fun idx => get z t (insert_at axis i idx))).
Proof.
  intros H Hi. unfold select. rewrite H.
  apply Nat.ltb_lt in Hi. now rewrite Hi.
Qed.

(** ** The color-similarity builder *)

Lemma broadcast_center (c m h w : nat) :
  broadcast_shapes [1; c; 1; h; w] [1; c; m; h; w] = Some [1; c; m; h; w].
Proof.
  unfold broadcast_shapes. cbn [rev app broadcast_rev].
  rewrite !Nat.eqb_refl.
  destruct (Nat.eqb_spec 1 m) as [<-|]; reflexivity.
Qed.

(** The run of [get_images_color_similarity]: the two unfolds succeed,
    and the result is the product of the similarity and the unfolded
    weights, position by position, on a (1, k*k-1, H, W) grid. *)
Lemma color_similarity_run (images image_masks : tensor R)
      (c h w : nat) (k d : Z) :
  size images = [1; c; h; w] -> size image_masks = [h; w] ->
  0 < c -> 0 < h -> 0 < w ->
  (k mod 2 = 1)%Z -> (1 <= k)%Z -> (1 <= d)%Z ->
  let m := Z.to_nat (k * k - 1) in
  exists unfolded_images unfolded weights distance out,
    unfold_wo_center 0%R images k d = Ok unfolded_images
    /\ size unfolded_images = [1; c; m; h; w]
    /\ unfold_wo_center 0%R (unsqueeze 0 (unsqueeze 0 image_masks)) k d
       = Ok unfolded
    /\ select 0%R 1 0 unfolded = Ok weights
    /\ size weights = [1; m; h; w] /\ wf weights
    /\ size distance = [1; m; h; w] /\ wf distance
    /\ Forall (fun v => (0 <= v)%R) (elems distance)
    /\ get_images_color_similarity images image_masks k d = Ok out
    /\ size out = [1; m; h; w] /\ wf out
    /\ (forall idx, in_range idx [1; m; h; w] = true ->
          get 0%R out idx
          = (exp (- get 0%R distance idx * 0.5) * get 0%R weights idx)%R)
    /\ (forall j r q, j < m -> r < h -> q < w ->
          get 0%R distance [0; j; r; q]
          = norm2 (map (fun ch => (get 0%R images [0%nat; ch; r; q]
                                   - get 0%R unfolded_images [0%nat; ch; j; r; q])%R)
                       (seq 0 c)))
    /\ (forall j r q, j < m -> r < h -> q < w ->
          get 0%R weights [0; j; r; q] = get 0%R unfolded [0; 0; j; r; q]).
Proof.
  intros Himages Hmasks Hc Hh Hw Hodd Hk Hd m.
  destruct (@unfold_wo_center_size R 0%R images 1 c h w k d)
    as (ui & Hui & Sui & Wui); try assumption; try lia.
  destruct (@unfold_wo_center_size R 0%R (unsqueeze 0 (unsqueeze 0 image_masks))
                                   1 1 h w k d)
    as (uw & Huw & Suw & Wuw); try assumption; try lia.
  { unfold unsqueeze; simpl. now rewrite Hmasks. }
  fold m in Sui, Suw.
  assert (Hsel : select 0%R 1 0 uw
                 = Ok (init [1; m; h; w] (fun idx => get 0%R uw (insert_at 1 0 idx)))).
  { rewrite (@select_ok R 0%R 1 0 uw 1); [now rewrite Suw| now rewrite Suw | lia]. }
  unfold get_images_color_similarity, dim, tsize.
  rewrite Himages. cbn [length Nat.eqb assert bind nth_error].
  rewrite Hui, Huw. cbn [bind].
  unfold bop at 1. unfold unsqueeze at 1. cbn [size].
  rewrite Himages, Sui. cbn [insert_at]. rewrite broadcast_center.
  cbn [bind]. unfold norm.
  match goal with |- context [reduce 0%R norm2 1 ?t] => set (diff := t) end.
  rewrite (@reduce_ok R R 0%R norm2 1 diff c) by reflexivity.
  cbn [bind]. rewrite Hsel. cbn [bind]. cbn [size diff init remove_at].
  match goal with
  | |- context [tmap ?f ?t] => set (distance := t); set (sim := tmap f t)
  end.
  assert (Wd : wf distance) by apply wf_init.
  rewrite bop_same by reflexivity.
  exists ui, uw,
    (init [1; m; h; w] (fun idx => get 0%R uw (insert_at 1 0 idx))), distance.
  eexists. repeat split; try reflexivity; try assumption; try apply wf_init.
  - apply Forall_init. intros idx _. apply sqrt_pos.
  - intros idx Hidx. rewrite get_init by exact Hidx.
    cbn [size sim tmap distance init]. rewrite !bcast_index_id by exact Hidx.
    f_equal. unfold sim.
    rewrite (@get_tmap R R 0%R 0%R) by (assumption || exact Hidx). reflexivity.
  - intros j r q Hj Hr Hq.
    assert (Hin : in_range [0; j; r; q] [1; m; h; w] = true).
    { simpl. apply Nat.ltb_lt in Hj, Hr, Hq. now rewrite Hj, Hr, Hq. }
    unfold distance. rewrite get_init by exact Hin. f_equal.
    apply map_ext_in. intros ch Hch. apply in_seq in Hch. cbn [insert_at].
    assert (Hin5 : in_range [0; ch; j; r; q] [1; c; m; h; w] = true).
    { simpl. assert (Hc' : ch < c) by lia.
      apply Nat.ltb_lt in Hj, Hr, Hq, Hc'. now rewrite Hj, Hr, Hq, Hc'. }
    unfold diff. rewrite get_init by exact Hin5.
    rewrite (bcast_index_id _ _ Hin5). f_equal.
    assert (Hb : bcast_index [1; c; 1; h; w] [0; ch; j; r; q] = [0; ch; 0; r; q]).
    { unfold bcast_index. cbn [length Nat.sub skipn bcast_zip Nat.eqb]. f_equal.
      destruct (Nat.eqb_spec c 1); destruct (Nat.eqb_spec h 1);
        destruct (Nat.eqb_spec w 1); repeat f_equal; lia. }
    replace (size (unsqueeze 2 images)) with [1; c; 1; h; w]
      by (unfold unsqueeze; cbn [size]; now rewrite Himages).
    rewrite Hb. unfold get, unsqueeze. cbn [size elems]. rewrite Himages.
    cbn [insert_at in_range offset numel fold_right].
    destruct (0 <? 1), (ch <? c), (r <? h), (q <? w); cbn [andb];
      try reflexivity.
    f_equal. lia.
  - intros j r q Hj Hr Hq.
    rewrite get_init; [reflexivity|].
    simpl. apply Nat.ltb_lt in Hj, Hr, Hq. now rewrite Hj, Hr, Hq.
Qed.


Lemma get_Forall {A} (P : A -> Prop) (z : A) (t : tensor A) (idx : list nat) :
  P z -> Forall P (elems t) -> P (get z t idx).
Proof.
  intros Hz Ht. destruct (get_cases z t idx) as [->|Hin]; [exact Hz|].
  rewrite Forall_forall in Ht. now apply Ht.
Qed.


(** ** Mask rescoring *)

Lemma Rsum_ext_in {X} (f g : X -> R) (l : list X) :
  (forall x, In x l -> f x = g x) -> Rsum (map f l) = Rsum (map g l).
Proof. intros H. f_equal. now apply map_ext_in. Qed.

Lemma Rsum_le {X} (f g : X -> R) (l : list X) :
  (forall x, In x l -> (f x <= g x)%R) -> (Rsum (map f l) <= Rsum (map g l))%R.
Proof.
  induction l as [|x l IH]; intros H; simpl; [lra|].
  pose proof (H x (or_introl eq_refl)).
  assert (Rsum (map f l) <= Rsum (map g l))%R by (apply IH; intros; apply H; now right).
  lra.
Qed.

Lemma sum_hw_ext (h w : nat) (f g : nat -> nat -> R) :
  (forall r c, r < h -> c < w -> f r c = g r c) -> sum_hw h w f = sum_hw h w g.
Proof.
  intros H. unfold sum_hw. apply Rsum_ext_in. intros r Hr.
  apply Rsum_ext_in. intros c Hc. apply in_seq in Hr, Hc. apply H; lia.
Qed.

Lemma sum_hw_le (h w : nat) (f g : nat -> nat -> R) :
  (forall r c, r < h -> c < w -> (f r c <= g r c)%R) ->
  (sum_hw h w f <= sum_hw h w g)%R.
Proof.
  intros H. unfold sum_hw. apply Rsum_le. intros r Hr.
  apply Rsum_le. intros c Hc. apply in_seq in Hr, Hc. apply H; lia.
Qed.

Lemma sum_hw_zero (h w : nat) : sum_hw h w (fun _ _ => 0%R) = 0%R.
Proof.
  unfold sum_hw.
  assert (Hz : forall X (l : list X), Rsum (map (fun _ => 0%R) l) = 0%R).
  { intros X l. induction l as [|x l IH]; simpl; [reflexivity|]. rewrite IH. lra. }
  rewrite (@Rsum_ext_in nat _ (fun _ => 0%R)) by (intros; apply Hz). apply Hz.
Qed.

Lemma sum_hw_nonneg (h w : nat) (f : nat -> nat -> R) :
  (forall r c, r < h -> c < w -> (0 <= f r c)%R) -> (0 <= sum_hw h w f)%R.
Proof. intros H. rewrite <- (sum_hw_zero h w). now apply sum_hw_le. Qed.

Lemma in_range1 (i n : nat) : i < n -> in_range [i] [n] = true.
Proof. intros H. simpl. apply Nat.ltb_lt in H. now rewrite H. Qed.

Lemma in_range2 (i r n h : nat) : i < n -> r < h -> in_range [i; r] [n; h] = true.
Proof.
  intros Hi Hr. simpl. apply Nat.ltb_lt in Hi, Hr. now rewrite Hi, Hr.
Qed.

Lemma in_range3 (i r c n h w : nat) :
  i < n -> r < h -> c < w -> in_range [i; r; c] [n; h; w] = true.
Proof.
  intros Hi Hr Hc. simpl. apply Nat.ltb_lt in Hi, Hr, Hc. now rewrite Hi, Hr, Hc.
Qed.

(** [x.sum([1, 2])] on a (K, H, W) tensor. *)
Lemma sum12_value (x : tensor R) (n h w : nat) :
  size x = [n; h; w] ->
  exists s, sum12 x = Ok s /\ size s = [n] /\ wf s
            /\ forall i, i < n ->
                 get 0%R s [i] = sum_hw h w (fun r c => get 0%R x [i; r; c]).
Proof.
  intros Hx. unfold sum12.
  rewrite (@reduce_ok R R 0%R Rsum 2 x w) by (now rewrite Hx).
  cbn [bind]. rewrite Hx. cbn [remove_at].
  match goal with |- context [reduce 0%R Rsum 1 ?t] => set (inner := t) end.
  rewrite (@reduce_ok R R 0%R Rsum 1 inner h) by reflexivity.
  cbn [size inner init remove_at].
  eexists. split; [reflexivity|]. split; [reflexivity|]. split; [apply wf_init|].
  intros i Hi. rewrite get_init by (now apply in_range1).
  unfold sum_hw. apply Rsum_ext_in. intros r Hr. apply in_seq in Hr.
  cbn [insert_at]. unfold inner. rewrite get_init by (apply in_range2; lia).
  reflexivity.
Qed.

(** The value computed by [rescoring_mask] for detection [i]: the score
    times the mean of the soft mask over the pixels of the boolean
    mask. *)
Lemma rescoring_mask_value (scores : tensor R) (mask_pred : tensor bool)
      (masks : tensor R) (n h w : nat) :
  size scores = [n] -> size mask_pred = [n; h; w] -> size masks = [n; h; w] ->
  wf mask_pred ->
  exists out,
    rescoring_mask scores mask_pred masks = Ok out
    /\ size out = [n] /\ wf out
    /\ forall i, i < n ->
         get 0%R out [i]
         = (get 0%R scores [i]
            * (sum_hw h w (fun r c => get 0%R masks [i; r; c]
                                      * b2r (get false mask_pred [i; r; c]))
               / (sum_hw h w (fun r c => b2r (get false mask_pred [i; r; c]))
                  + 1e-6)))%R.
Proof.
  intros Hs Hp Hm Wp. unfold rescoring_mask.
  assert (Sf : size (float mask_pred) = [n; h; w]) by exact Hp.
  assert (Wf : wf (float mask_pred)) by (now apply wf_tmap).
  rewrite bop_same by (now rewrite Hm, Sf). cbn [bind]. rewrite Hm, Sf.
  match goal with |- context [sum12 (init ?d ?f)] => set (overlap := init d f) end.
  destruct (@sum12_value overlap n h w eq_refl) as (os & -> & Sos & Wos & Vos).
  destruct (@sum12_value (float mask_pred) n h w Sf) as (ar & -> & Sar & War & Var).
  cbn [bind].
  rewrite bop_same by (now rewrite Sos). cbn [bind].
  rewrite bop_same by (now rewrite Hs). cbn [bind].
  eexists. split; [reflexivity|]. cbn [size init]. rewrite Hs, Sos.
  split; [reflexivity|]. split; [apply wf_init|].
  intros i Hi. pose proof (in_range1 Hi) as Ri.
  rewrite get_init by exact Ri. rewrite !bcast_index_id by exact Ri.
  rewrite get_init by exact Ri. cbn [size tmap]. rewrite Sar.
  rewrite !bcast_index_id by exact Ri.
  rewrite (@get_tmap R R 0%R 0%R) by (rewrite ?Sar; assumption).
  rewrite (Vos i Hi), (Var i Hi). f_equal. f_equal.
  - apply sum_hw_ext. intros r c Hr Hc. pose proof (in_range3 Hi Hr Hc) as Rc.
    unfold overlap. rewrite get_init by exact Rc.
    rewrite !bcast_index_id by exact Rc. f_equal.
    unfold float. rewrite (@get_tmap bool R false 0%R) by (rewrite ?Hp; assumption).
    reflexivity.
  - f_equal. apply sum_hw_ext. intros r c Hr Hc.
    unfold float. rewrite (@get_tmap bool R false 0%R)
      by (rewrite ?Hp; try assumption; now apply in_range3).
    reflexivity.
Qed.

(** ** The inference post-processor *)

Lemma max_last_rows (x : tensor R) (n c : nat) :
  size x = [n; c] -> 0 < c ->
  max_last x = Ok (init [n] (fun idx => best_score x (hd 0 idx)),
                   init [n] (fun idx => best_label x (hd 0 idx))).
Proof.
  intros Hx Hc. unfold max_last, dim. rewrite Hx. cbn [length nth_error].
  destruct c as [|c']; [lia|].
  rewrite !(@reduce_ok R _ 0%R _ 1 x (S c')) by (now rewrite Hx).
  cbn [bind]. rewrite Hx. cbn [remove_at]. do 2 f_equal.
  - unfold init. f_equal. apply map_ext_in. intros idx Hin.
    apply in_indices in Hin. destruct idx as [|i [|? ?]]; simpl in Hin.
    + discriminate.
    + unfold best_score. rewrite Hx. reflexivity.
    + rewrite andb_false_r in Hin. discriminate.
  - unfold init. f_equal. apply map_ext_in. intros idx Hin.
    apply in_indices in Hin. destruct idx as [|i [|? ?]]; simpl in Hin.
    + discriminate.
    + unfold best_label. rewrite Hx. reflexivity.
    + rewrite andb_false_r in Hin. discriminate.
Qed.

Lemma nth_elems_get1 {A} (z : A) (t : tensor A) (n i : nat) :
  size t = [n] -> i < n -> nth i (elems t) z = get z t [i].
Proof.
  intros Ht Hi. unfold get. rewrite Ht, (in_range1 Hi). simpl.
  f_equal. lia.
Qed.

(** The rows that the classification threshold keeps: those whose best
    score is strictly above it. *)
Lemma kept_rows_gt (values : tensor R) (n : nat) (f : nat -> R) (thr : R) :
  values = init [n] (fun idx => f (hd 0 idx)) ->
  kept_rows (gt values thr)
  = filter (fun i => if Rlt_dec thr (f i) then true else false) (seq 0 n).
Proof.
  intros ->. unfold kept_rows.
  change (size (gt (init [n] (fun idx => f (hd 0 idx))) thr)) with [n].
  cbn [hd]. apply filter_ext_in. intros i Hi. apply in_seq in Hi.
  rewrite (@nth_elems_get1 bool false _ n i) by (reflexivity || lia).
  unfold gt.
  rewrite (@get_tmap R bool 0%R false) by (apply wf_init || (apply in_range1; lia)).
  rewrite get_init by (apply in_range1; lia). reflexivity.
Qed.

Lemma index_mask_ok {A} (z : A) (t : tensor A) (keep : tensor bool)
      (n : nat) (rest : list nat) :
  size keep = [n] -> size t = n :: rest ->
  index_mask z t keep
  = Ok (init (length (kept_rows keep) :: rest)
             (fun idx =>
                match idx with
                | j :: r => get z t (nth j (kept_rows keep) 0 :: r)
                | [] => z
                end)).
Proof.
  intros Hk Ht. unfold index_mask. now rewrite Hk, Ht, Nat.eqb_refl.
Qed.

Lemma init_empty {A} (rest : list nat) (f : list nat -> A) :
  init (0 :: rest) f = mkTensor (0 :: rest) [].
Proof. reflexivity. Qed.

Lemma max_arg_in (P : R -> Prop) (l : list R) :
  P 0%R -> Forall P l -> P (fst (max_arg l)).
Proof.
  intros H0. induction l as [|v l IH]; intros Hl; [exact H0|].
  inversion Hl as [|? ? Hv Hl']; subst. simpl.
  destruct l as [|v' l']; [exact Hv|].
  specialize (IH Hl'). destruct (max_arg (v' :: l')) as [m j].
  destruct (Rlt_dec v m); [exact IH|exact Hv].
Qed.

Lemma F_interpolate_ok (x : tensor R) (n c h w oh ow : nat) :
  size x = [n; c; h; w] -> 0 < c -> 0 < h -> 0 < w -> 0 < oh -> 0 < ow ->
  exists y, F_interpolate x (oh, ow) = Ok y /\ size y = [n; c; oh; ow] /\ wf y.
Proof.
  intros Hx Hc Hh Hw Hoh How. unfold F_interpolate. rewrite Hx.
  replace ((c =? 0) || (h =? 0) || (w =? 0) || (oh =? 0) || (ow =? 0)) with false
    by (symmetry; rewrite !orb_false_iff, !Nat.eqb_neq; lia).
  eexists. split; [reflexivity|]. split; [reflexivity|apply wf_init].
Qed.

Lemma slice_prefix_size (len : nat) (stop : nat) :
  snd (slice_indices len None (Some (Z.of_nat stop)) 1) = Nat.min stop len.
Proof.
  unfold slice_indices, slice_bound. cbn [snd].
  replace (Z.of_nat stop <? 0)%Z with false by (symmetry; apply Z.ltb_ge; lia).
  rewrite Z.div_1_r.
  destruct (Z.ltb_spec 0 (Z.min (Z.of_nat stop) (Z.of_nat len))); lia.
Qed.

Lemma Forall_elems1 {A} (P : A -> Prop) (z : A) (t : tensor A) (n : nat) :
  wf t -> size t = [n] -> (forall i, i < n -> P (get z t [i])) ->
  Forall P (elems t).
Proof.
  intros Wt St H. apply Forall_forall. intros v Hv.
  apply (In_nth _ _ z) in Hv as (i & Hi & <-).
  unfold wf in Wt. rewrite St in Wt. simpl in Wt.
  rewrite (@nth_elems_get1 A z t n i) by (assumption || lia).
  apply H. lia.
Qed.

Lemma in01_zero : in01 0%R.
Proof. unfold in01. lra. Qed.

(** The rescored scores stay in the unit interval. *)
Lemma rescoring_mask_in01 (scores : tensor R) (mask_pred : tensor bool)
      (masks : tensor R) (n h w : nat) :
  size scores = [n] -> size mask_pred = [n; h; w] -> size masks = [n; h; w] ->
  wf mask_pred ->
  Forall in01 (elems scores) -> Forall in01 (elems masks) ->
  exists out, rescoring_mask scores mask_pred masks = Ok out
              /\ size out = [n] /\ wf out /\ Forall in01 (elems out).
Proof.
  intros Hs Hp Hm Wp Fs Fm.
  destruct (@rescoring_mask_value scores mask_pred masks n h w Hs Hp Hm Wp)
    as (out & Hout & So & Wo & V).
  exists out. repeat split; try assumption.
  apply (@Forall_elems1 R in01 0%R out n Wo So). intros i Hi.
  rewrite (V i Hi).
  set (area := sum_hw h w (fun r c => b2r (get false mask_pred [i; r; c]))).
  set (overlap := sum_hw h w _).
  assert (Hs01 : in01 (get 0%R scores [i]))
    by (apply get_Forall; [apply in01_zero|exact Fs]).
  assert (Hov : (0 <= overlap <= area)%R).
  { split.
    - apply sum_hw_nonneg. intros r c _ _.
      assert (in01 (get 0%R masks [i; r; c])) as [? ?]
          by (apply get_Forall; [apply in01_zero|exact Fm]).
      unfold b2r. destruct (get false mask_pred [i; r; c]); lra.
    - apply sum_hw_le. intros r c _ _.
      assert (in01 (get 0%R masks [i; r; c])) as [? ?]
          by (apply get_Forall; [apply in01_zero|exact Fm]).
      unfold b2r. destruct (get false mask_pred [i; r; c]); lra. }
  assert (Hq : (0 <= overlap / (area + 1e-6) <= 1)%R).
  { assert (Hinv : (0 < / (area + 1e-6))%R) by (apply Rinv_0_lt_compat; lra).
    split.
    - unfold Rdiv. apply Rmult_le_pos; lra.
    - apply Rmult_le_reg_r with (area + 1e-6)%R; [lra|].
      unfold Rdiv. rewrite Rmult_assoc, Rinv_l by lra. lra. }
  destruct Hs01 as [? ?]. unfold in01. split.
  - apply Rmult_le_pos; lra.
  - assert (get 0%R scores [i] * (overlap / (area + 1e-6)) <= 1 * 1)%R
      by (apply Rmult_le_compat; lra).
    lra.
Qed.

Lemma filter_bound (p : nat -> bool) (n j : nat) :
  j < length (filter p (seq 0 n)) ->
  nth j (filter p (seq 0 n)) 0 < n /\ p (nth j (filter p (seq 0 n)) 0) = true.
Proof.
  intros Hj. pose proof (nth_In _ 0 Hj) as Hin.
  apply filter_In in Hin as [Hin Hp]. apply in_seq in Hin. split; [lia|exact Hp].
Qed.

Lemma inference_image_run (cfg : config) (max_shape : nat * nat)
      (spi mpi : tensor R) (input : batched_input) (img_shape : nat * nat)
      (n c hm wm : nat) :
  size spi = [n; c] -> 0 < c -> size mpi = [n; hm; wm] ->
  let rows :=
    filter (fun i => if Rlt_dec (cls_threshold cfg) (best_score spi i)
                     then true else false) (seq 0 n) in
  let kept_labels :=
    init [length rows] (fun idx => best_label spi (nth (hd 0 idx) rows 0)) in
  (rows = [] ->
   inference_image cfg max_shape spi mpi input img_shape
   = Ok (empty_result input))
  /\ (rows <> [] ->
      0 < hm -> 0 < wm -> 0 < fst max_shape -> 0 < snd max_shape ->
      0 < fst img_shape -> 0 < snd img_shape ->
      0 < height input -> 0 < width input ->
      exists sc mk,
        inference_image cfg max_shape spi mpi input img_shape
        = Ok (mkInstances (height input, width input) None None None
                          (Some sc) (Some kept_labels) (Some mk))
        /\ size sc = [length rows] /\ wf sc
        /\ size mk = [length rows; height input; width input] /\ wf mk
        /\ (Forall in01 (elems spi) -> Forall in01 (elems mpi) ->
            Forall in01 (elems sc))
        /\ (forall j, j < length rows ->
              get 0%R sc [j]
              = (best_score spi (nth j rows 0%nat)
                 * maskness (mask_threshold cfg) mpi (nth j rows 0%nat))%R)).
Proof.
  intros Hs Hc Hm rows kept_labels.
  unfold inference_image. rewrite (@max_last_rows spi n c Hs Hc).
  cbn [bind fst snd].
  set (values := init [n] (fun idx => best_score spi (hd 0 idx))).
  set (labels := init [n] (fun idx => best_label spi (hd 0 idx))).
  set (keep := gt values (cls_threshold cfg)).
  assert (Hkeep : kept_rows keep = rows).
  { unfold keep. now rewrite (@kept_rows_gt values n (best_score spi) _ eq_refl). }
  assert (Sk : size keep = [n]) by reflexivity.
  rewrite (@index_mask_ok R 0%R values keep n [] Sk eq_refl).
  rewrite (@index_mask_ok Z 0%Z labels keep n [] Sk eq_refl).
  rewrite (@index_mask_ok R 0%R mpi keep n [hm; wm] Sk Hm).
  cbn [bind]. rewrite Hkeep. unfold tsize. cbn [size init nth_error bind].
  assert (Hlab : init [length rows]
                   (fun idx => match idx with
                               | j :: r => get 0%Z labels (nth j rows 0 :: r)
                               | [] => 0%Z
                               end) = kept_labels).
  { unfold kept_labels, init. f_equal. apply map_ext_in. intros idx Hin.
    apply in_indices in Hin. destruct idx as [|j [|? ?]]; simpl in Hin.
    - discriminate.
    - rewrite andb_true_r in Hin. apply Nat.ltb_lt in Hin.
      destruct (@filter_bound _ n j Hin) as [Hb _]. fold rows in Hb.
      unfold labels. rewrite get_init by (now apply in_range1). reflexivity.
    - rewrite andb_false_r in Hin. discriminate. }
  rewrite Hlab. split.
  - intros Hrows. unfold kept_labels. rewrite Hrows. reflexivity.
  - intros Hrows Hhm Hwm HH HW Hh Hw Hoh How.
    destruct (Nat.eqb_spec (length rows) 0) as [E|_].
    { destruct rows; [congruence|discriminate]. }
    destruct img_shape as [h w]. destruct max_shape as [H W].
    cbn [fst snd] in *.
    set (kept_scores := init [length rows] _).
    set (kept_masks := init [length rows; hm; wm] _).
    assert (Wg : wf (gt kept_masks (mask_threshold cfg)))
      by (apply wf_tmap, wf_init).
    assert (Rv := fun Fs Fm =>
              @rescoring_mask_in01 kept_scores
                (gt kept_masks (mask_threshold cfg)) kept_masks
                (length rows) hm wm eq_refl eq_refl eq_refl Wg Fs Fm).
    destruct (@rescoring_mask_value kept_scores
                (gt kept_masks (mask_threshold cfg)) kept_masks
                (length rows) hm wm eq_refl eq_refl eq_refl Wg)
      as (sc & Hsc & Ssc & Wsc & Vsc).
    rewrite Hsc. cbn [bind].
    destruct (@F_interpolate_ok (unsqueeze 1 kept_masks) (length rows) 1 hm wm H W
                eq_refl Nat.lt_0_1 Hhm Hwm HH HW) as (p & -> & Sp & _).
    cbn [bind].
    destruct (@slice_ok R 0%R 2 None (Some (Z.of_nat h)) 1%Z p H) as (q & -> & Sq & _);
      [now rewrite Sp|].
    cbn [bind]. rewrite slice_prefix_size, Sp in Sq. cbn [set_at] in Sq.
    destruct (@slice_ok R 0%R 3 None (Some (Z.of_nat w)) 1%Z q W) as (q' & -> & Sq' & _);
      [now rewrite Sq|].
    cbn [bind]. rewrite slice_prefix_size, Sq in Sq'. cbn [set_at] in Sq'.
    destruct (@F_interpolate_ok q' (length rows) 1 (Nat.min h H) (Nat.min w W)
                (height input) (width input) Sq') as (m & -> & Sm & Wm); try lia.
    cbn [bind].
    assert (Ssq : squeeze 1 m
                  = mkTensor [length rows; height input; width input] (elems m)).
    { unfold squeeze. now rewrite Sm. }
    exists sc, (gt (squeeze 1 m) (mask_threshold cfg)).
    split; [reflexivity|]. split; [exact Ssc|]. split; [exact Wsc|].
    split; [now rewrite Ssq|]. split; [|split].
    + apply wf_tmap. rewrite Ssq. unfold wf in *. cbn [size elems].
      rewrite Wm, Sm. simpl. lia.
    + intros Fs Fm.
      destruct Rv as (sc' & Hsc' & _ & _ & F).
      * apply Forall_init. intros idx _. destruct idx as [|j r]; [apply in01_zero|].
        apply get_Forall; [apply in01_zero|].
        apply Forall_init. intros idx' _. unfold best_score.
        apply max_arg_in; [apply in01_zero|].
        apply Forall_forall. intros v Hv. apply in_map_iff in Hv as (j' & <- & _).
        apply get_Forall; [apply in01_zero|exact Fs].
      * apply Forall_init. intros idx _. destruct idx as [|j r]; [apply in01_zero|].
        apply get_Forall; [apply in01_zero|exact Fm].
      * rewrite Hsc in Hsc'. now injection Hsc' as <-.
    + intros j Hj. rewrite (Vsc j Hj).
      destruct (@filter_bound _ n j Hj) as [Hrow _]. fold rows in Hrow.
      assert (Hks : get 0%R kept_scores [j] = best_score spi (nth j rows 0)).
      { unfold kept_scores. rewrite get_init by (now apply in_range1).
        unfold values. now rewrite get_init by (now apply in_range1). }
      assert (Hkm : forall r0 c0, r0 < hm -> c0 < wm ->
                get 0%R kept_masks [j; r0; c0] = get 0%R mpi [nth j rows 0; r0; c0]).
      { intros r0 c0 Hr0 Hc0. unfold kept_masks.
        now rewrite get_init by (now apply in_range3). }
      rewrite Hks. unfold maskness. rewrite Hm. cbn [nth]. f_equal. f_equal.
      * apply sum_hw_ext. intros r0 c0 Hr0 Hc0. rewrite (Hkm r0 c0 Hr0 Hc0). f_equal.
        unfold gt. rewrite (@get_tmap R bool 0%R false)
          by (apply wf_init || (now apply in_range3)).
        now rewrite (Hkm r0 c0 Hr0 Hc0).
      * f_equal. apply sum_hw_ext. intros r0 c0 Hr0 Hc0.
        unfold gt. rewrite (@get_tmap R bool 0%R false)
          by (apply wf_init || (now apply in_range3)).
        now rewrite (Hkm r0 c0 Hr0 Hc0).
Qed.

(** ** The batch loop *)

Lemma mapM_nth {A B} (f : A -> res B) (l : list A) (ys : list B) :
  mapM f l = Ok ys ->
  length ys = length l
  /\ forall i x, nth_error l i = Some x ->
       exists y, nth_error ys i = Some y /\ f x = Ok y.
Proof.
  revert ys. induction l as [|a l IH]; intros ys H; simpl in H.
  - injection H as <-. split; [reflexivity|]. intros [|i] x Hx; discriminate.
  - destruct (f a) as [b|e] eqn:Ea; [|discriminate]. cbn [bind] in H.
    destruct (mapM f l) as [bs|e] eqn:El; [|discriminate]. cbn [bind] in H.
    injection H as <-. destruct (IH bs eq_refl) as [Hlen Hnth].
    split; [simpl; now rewrite Hlen|].
    intros [|i] x Hx; simpl in Hx.
    + injection Hx as <-. now exists b.
    + now apply Hnth.
Qed.

Lemma mapM_ok {A B} (f : A -> res B) (l : list A) :
  (forall x, In x l -> exists y, f x = Ok y) -> exists ys, mapM f l = Ok ys.
Proof.
  induction l as [|a l IH]; intros H; simpl.
  - now exists [].
  - destruct (H a (or_introl eq_refl)) as (b & ->). cbn [bind].
    destruct IH as (bs & ->); [intros x Hx; apply H; now right|].
    cbn [bind]. now eexists.
Qed.

Lemma nth_error_combine {A B} (l1 : list A) (l2 : list B) (i : nat) (a : A) (b : B) :
  nth_error (combine l1 l2) i = Some (a, b)
  <-> nth_error l1 i = Some a /\ nth_error l2 i = Some b.
Proof.
  revert l2 i. induction l1 as [|x l1 IH]; intros [|y l2] [|i]; simpl;
    try (split; [discriminate|intros [? ?]; discriminate]).
  - split; [intros H; injection H as -> ->; now split|].
    intros [H1 H2]. now injection H1 as ->; injection H2 as ->.
  - apply IH.
Qed.

Lemma nth_error_unbind0 (t : tensor R) (i : nat) (x : tensor R) :
  nth_error (unbind0 0%R t) i = Some x -> i < tlen t /\ x = image_slice t i.
Proof.
  unfold unbind0. intros H. rewrite nth_error_map in H.
  destruct (nth_error (seq 0 (tlen t)) i) as [j|] eqn:E; [|discriminate].
  injection H as <-.
  pose proof (nth_error_Some (seq 0 (tlen t)) i) as Hlt.
  rewrite E, length_seq in Hlt.
  assert (Hi : i < tlen t) by (apply Hlt; discriminate).
  apply nth_error_nth with (d := 0) in E. rewrite seq_nth in E by exact Hi.
  simpl in E. subst j. now split.
Qed.

Lemma broadcast_last1 (b n c : nat) :
  broadcast_shapes [b; n; c] [b; n; 1] = Some [b; n; c].
Proof.
  unfold broadcast_shapes. cbn [rev app broadcast_rev].
  rewrite !Nat.eqb_refl.
  destruct (Nat.eqb_spec c 1) as [->|]; reflexivity.
Qed.

Lemma sigmoid_in01 (x : R) : in01 (sigmoid x).
Proof.
  unfold in01, sigmoid. pose proof (exp_pos (- x)).
  assert (0 < / (1 + exp (- x)))%R by (apply Rinv_0_lt_compat; lra).
  split.
  - unfold Rdiv. lra.
  - apply Rmult_le_reg_r with (1 + exp (- x))%R; [lra|].
    unfold Rdiv. rewrite Rmult_assoc, Rinv_l by lra. lra.
Qed.

Lemma sqrt_in01 (x : R) : in01 x -> in01 (sqrt x).
Proof.
  intros [H0 H1]. split; [apply sqrt_pos|].
  rewrite <- sqrt_1. now apply sqrt_le_1_alt.
Qed.

Lemma combined_scores_ok (output : decoder_output) (b n c : nat) :
  size (out_pred_logits output) = [b; n; c] ->
  size (out_pred_scores output) = [b; n; 1] ->
  exists ps, combined_scores output = Ok ps
             /\ size ps = [b; n; c] /\ wf ps /\ Forall in01 (elems ps)
             /\ forall i s cl, i < b -> s < n -> cl < c ->
                  get 0%R ps [i; s; cl]
                  = sqrt (get 0%R (tmap sigmoid (out_pred_logits output))
                              [i; s; cl]
                          * get 0%R (tmap sigmoid (out_pred_scores output))
                                [i; s; 0%nat]).
Proof.
  intros Hl Ho. unfold combined_scores, bop.
  change (size (tmap sigmoid (out_pred_logits output)))
    with (size (out_pred_logits output)).
  change (size (tmap sigmoid (out_pred_scores output)))
    with (size (out_pred_scores output)).
  rewrite Hl, Ho, broadcast_last1. cbn [bind].
  set (product := init [b; n; c] _).
  exists (tmap sqrt product). split; [reflexivity|]. split; [reflexivity|].
  split; [apply wf_tmap, wf_init|]. split.
  - unfold product. cbn [tmap elems init]. rewrite Forall_map, Forall_map.
    apply Forall_forall. intros idx _. apply sqrt_in01.
    assert (Hs : forall t i, in01 (get 0%R (tmap sigmoid t) i)).
    { intros t i. apply get_Forall; [unfold in01; lra|].
      cbn [tmap elems]. rewrite Forall_map. apply Forall_forall.
      intros v _. apply sigmoid_in01. }
    destruct (Hs (out_pred_logits output) (bcast_index [b; n; c] idx)).
    destruct (Hs (out_pred_scores output) (bcast_index [b; n; 1] idx)).
    split; [apply Rmult_le_pos; assumption|].
    rewrite <- (Rmult_1_r 1). apply Rmult_le_compat; assumption.
  - intros i s cl Hi Hs Hcl. pose proof (in_range3 Hi Hs Hcl) as Hin.
    rewrite (@get_tmap R R 0%R 0%R) by (apply wf_init || exact Hin).
    unfold product. rewrite get_init by exact Hin.
    rewrite (bcast_index_id _ _ Hin). do 3 f_equal.
    unfold bcast_index. cbn [length Nat.sub skipn bcast_zip Nat.eqb].
    destruct (Nat.eqb_spec b 1); destruct (Nat.eqb_spec n 1);
      repeat f_equal; lia.
Qed.

Lemma inference_unfold (cfg : config) (output : decoder_output)
      (batched_inputs : list batched_input) (max_shape : nat * nat)
      (image_sizes : list (nat * nat)) :
  inference cfg output batched_inputs max_shape image_sizes
  = (let* pred_scores := combined_scores output in
     mapM (fun it =>
             match it with
             | (scores_per_image, mask_pred_per_image, input, img_shape) =>
                 inference_image cfg max_shape scores_per_image
                                 mask_pred_per_image input img_shape
             end)
          (combine (combine (combine (unbind0 0%R pred_scores)
                                     (unbind0 0%R (tmap sigmoid (out_pred_masks output))))
                            batched_inputs)
                   image_sizes)).
Proof.
  unfold inference, combined_scores.
  destruct (bop 0%R 0%R Rmult _ _); reflexivity.
Qed.

Lemma Forall_image_slice (P : R -> Prop) (t : tensor R) (i : nat) :
  P 0%R -> Forall P (elems t) -> Forall P (elems (image_slice t i)).
Proof.
  intros H0 Ht. unfold image_slice. apply Forall_init. intros idx _.
  now apply get_Forall.
Qed.

Lemma filter_none {A} (p : A -> bool) (l : list A) :
  (forall x, In x l -> p x = false) -> filter p l = [].
Proof.
  induction l as [|a l IH]; intros H; simpl; [reflexivity|].
  rewrite (H a (or_introl eq_refl)). apply IH. intros x Hx. apply H. now right.
Qed.

Lemma nth_error_unbind0_at (t : tensor R) (i : nat) :
  i < tlen t -> nth_error (unbind0 0%R t) i = Some (image_slice t i).
Proof.
  intros Hi. unfold unbind0. rewrite nth_error_map.
  rewrite (nth_error_nth' (seq 0 (tlen t)) 0) by (now rewrite length_seq).
  rewrite seq_nth by exact Hi. reflexivity.
Qed.

Lemma best_score_in01 (t : tensor R) (i : nat) :
  Forall in01 (elems t) -> in01 (best_score t i).
Proof.
  intros Ht. unfold best_score. apply max_arg_in; [unfold in01; lra|].
  apply Forall_forall. intros v Hv. apply in_map_iff in Hv as (j & <- & _).
  apply get_Forall; [unfold in01; lra|exact Ht].
Qed.

(** What one image's result looks like, whichever branch is taken. *)
Lemma inference_image_invariant (cfg : config) (max_shape : nat * nat)
      (spi mpi : tensor R) (input : batched_input) (img_shape : nat * nat)
      (n c hm wm : nat) :
  size spi = [n; c] -> 0 < c -> size mpi = [n; hm; wm] ->
  0 < hm -> 0 < wm -> 0 < fst max_shape -> 0 < snd max_shape ->
  0 < fst img_shape -> 0 < snd img_shape ->
  0 < height input -> 0 < width input ->
  Forall in01 (elems spi) -> Forall in01 (elems mpi) ->
  exists r sc,
    inference_image cfg max_shape spi mpi input img_shape = Ok r
    /\ image_size r = (height input, width input)
    /\ scores r = Some sc
    /\ Forall in01 (elems sc)
    /\ (forall mk, pred_masks r = Some mk ->
          size mk = [tlen sc; height input; width input])
    /\ (let rows :=
          filter (fun i => if Rlt_dec (cls_threshold cfg) (best_score spi i)
                           then true else false) (seq 0 n) in
        forall j, j < tlen sc ->
          get 0%R sc [j]
          = (best_score spi (nth j rows 0%nat)
             * maskness (mask_threshold cfg) mpi (nth j rows 0%nat))%R).
Proof.
  intros Hs Hc Hm Hhm Hwm HH HW Hh Hw Hoh How Fs Fm.
  destruct (@inference_image_run cfg max_shape spi mpi input img_shape
              n c hm wm Hs Hc Hm) as [Hempty Hfull].
  set (rows := filter _ (seq 0 n)) in *.
  destruct rows as [|r0 rows'] eqn:E.
  - rewrite (Hempty eq_refl). eexists. eexists.
    split; [reflexivity|]. split; [reflexivity|]. split; [reflexivity|].
    split; [constructor|]. split; [intros mk Hmk; discriminate|].
    intros rows0 j Hj. unfold tlen in Hj. simpl in Hj. lia.
  - destruct Hfull as (sc & mk & -> & Ssc & _ & Smk & _ & F & V);
      try assumption; [discriminate|].
    eexists. exists sc.
    split; [reflexivity|]. split; [reflexivity|]. split; [reflexivity|].
    split; [now apply F|]. split.
    + intros mk' Hmk. cbn [pred_masks] in Hmk.
      injection Hmk as <-. unfold tlen. now rewrite Smk, Ssc.
    + intros rows0 j Hj. apply V. unfold tlen in Hj. now rewrite Ssc in Hj.
Qed.

(** ** Pseudo-masks from boxes *)

Lemma item_ok (t : tensor Q) (n i : nat) :
  size t = [n] -> i < n -> item t i = Ok (get 0%Q t [i]).
Proof.
  intros Ht Hi. unfold item.
  rewrite (@select_ok Q 0%Q 0 i t n) by (rewrite ?Ht; (reflexivity || assumption)).
  cbn [bind]. rewrite Ht. cbn [remove_at].
  now rewrite get_init by reflexivity.
Qed.





Lemma forallb_same_shape {A} (ts : list (tensor A)) (d : list nat) :
  Forall (fun t => size t = d) ts ->
  forallb (fun t => same_shape (size t) d) ts = true.
Proof.
  induction 1 as [|t ts Ht _ IH]; simpl; [reflexivity|].
  now rewrite Ht, same_shape_refl, IH.
Qed.


(** ** Assertions and their provenance *)

Lemma asserts_in_bind {A B} (m : res A) (k : A -> res B) (lines : list nat) :
  asserts_in m lines -> (forall a, m = Ok a -> asserts_in (k a) lines) ->
  asserts_in (bind m k) lines.
Proof.
  intros Hm Hk line H. destruct m as [a|e]; cbn [bind] in H.
  - exact (Hk a eq_refl line H).
  - injection H as ->. now apply Hm.
Qed.

Lemma asserts_in_mono {A} (r : res A) (l1 l2 : list nat) :
  asserts_in r l1 -> incl l1 l2 -> asserts_in r l2.
Proof. intros H Hi line E. exact (Hi line (H line E)). Qed.

Lemma asserts_in_assert (line : nat) (b : bool) (lines : list nat) :
  In line lines -> asserts_in (assert line b) lines.
Proof.
  intros Hin l H. unfold assert in H. destruct b; [discriminate|].
  now injection H as <-.
Qed.

Lemma asserts_in_Ok {A} (a : A) (lines : list nat) : asserts_in (Ok a) lines.
Proof. intros l H. discriminate. Qed.

Lemma asserts_in_mapM {A B} (f : A -> res B) (l : list A) (lines : list nat) :
  (forall x, In x l -> asserts_in (f x) lines) -> asserts_in (mapM f l) lines.
Proof.
  induction l as [|a l IH]; intros H; simpl; [apply asserts_in_Ok|].
  apply asserts_in_bind; [apply H; now left|]. intros b _.
  apply asserts_in_bind; [apply IH; intros x Hx; apply H; now right|].
  intros bs _. apply asserts_in_Ok.
Qed.

(** The operations of the tensor library raise no assertion. *)
Ltac crunch H :=
  repeat match type of H with
         | context [match ?x with _ => _ end] => destruct x
         | context [if ?x then _ else _] => destruct x
         end;
  discriminate.

Lemma F_unfold_no_assert {A} (z : A) x k p d : asserts_in (F_unfold z x k p d) [].
Proof. intros line H; unfold F_unfold in H; crunch H. Qed.

Lemma tsize_no_assert {A} (x : tensor A) i : asserts_in (tsize x i) [].
Proof. intros line H; unfold tsize in H; crunch H. Qed.

Lemma reshape_no_assert {A} (x : tensor A) shape : asserts_in (reshape x shape) [].
Proof. intros line H; unfold reshape in H; crunch H. Qed.

Lemma slice_no_assert {A} (z : A) axis start stop step x :
  asserts_in (slice z axis start stop step x) [].
Proof. intros line H; unfold slice in H; crunch H. Qed.

Lemma select_no_assert {A} (z : A) axis i x : asserts_in (select z axis i x) [].
Proof. intros line H; unfold select in H; crunch H. Qed.

Lemma cat_no_assert {A} (z : A) ts axis : asserts_in (cat z ts axis) [].
Proof. intros line H; unfold cat in H; crunch H. Qed.

Lemma bop_no_assert {A B C} (za : A) (zb : B) (f : A -> B -> C) a b :
  asserts_in (bop za zb f a b) [].
Proof. intros line H; unfold bop in H; crunch H. Qed.

Lemma reduce_no_assert {A B} (za : A) (g : list A -> B) axis x :
  asserts_in (reduce za g axis x) [].
Proof. intros line H; unfold reduce in H; crunch H. Qed.

Lemma F_avg_pool2d_no_assert x k : asserts_in (F_avg_pool2d x k) [].
Proof. intros line H; unfold F_avg_pool2d in H; crunch H. Qed.

Lemma rgb2lab_no_assert f x : asserts_in (rgb2lab f x) [].
Proof. intros line H; unfold rgb2lab in H; crunch H. Qed.

Lemma Instances_len_no_assert inst : asserts_in (Instances_len inst) [].
Proof. intros line H; unfold Instances_len in H; crunch H. Qed.

Create HintDb asserts.

#[local] Hint Resolve F_unfold_no_assert tsize_no_assert reshape_no_assert
  slice_no_assert select_no_assert cat_no_assert bop_no_assert
  reduce_no_assert F_avg_pool2d_no_assert rgb2lab_no_assert
  Instances_len_no_assert asserts_in_Ok : asserts.

Ltac asserts_step :=
  first [ apply asserts_in_Ok
        | apply asserts_in_bind; [|intros ? _]
        | apply asserts_in_assert; simpl; tauto
        | eapply asserts_in_mono; [solve [eauto with asserts]|intros ? []] ].

Lemma unfold_wo_center_asserts {A} (z : A) (x : tensor A) (k d : Z) :
  asserts_in (unfold_wo_center z x k d) [21; 22].
Proof. unfold unfold_wo_center. repeat asserts_step. Qed.

Lemma get_images_color_similarity_asserts images image_masks k d :
  asserts_in (get_images_color_similarity images image_masks k d)
             [47; 48; 21; 22].
Proof.
  unfold get_images_color_similarity, norm.
  repeat first
    [ eapply asserts_in_mono;
      [apply unfold_wo_center_asserts|intros ? ?; simpl in *; tauto]
    | asserts_step ].
Qed.

Lemma add_bitmasks_image_asserts byte rgb ds ms im_i inst :
  asserts_in (add_bitmasks_image byte rgb ds ms im_i inst) [47; 48; 21; 22].
Proof.
  unfold add_bitmasks_image.
  repeat first
    [ apply get_images_color_similarity_asserts
    | asserts_step
    | match goal with |- asserts_in (if ?b then _ else _) _ => destruct b end ].
Qed.

(** ** Target assembly *)

Lemma slice_strided_size (len : nat) :
  snd (slice_indices (4 * len) (Some 2%Z) None 4) = len.
Proof.
  unfold slice_indices, slice_bound. cbn [snd].
  change (2 <? 0)%Z with false. cbv beta iota.
  destruct (Z.ltb_spec (Z.min 2 (Z.of_nat (4 * len))) (Z.of_nat (4 * len))) as [H|H].
  - replace (Z.of_nat (4 * len) - Z.min 2 (Z.of_nat (4 * len)) + 4 - 1)%Z
      with (2 + Z.of_nat len * 4 - 1)%Z by lia.
    replace (2 + Z.of_nat len * 4 - 1)%Z with (1 + Z.of_nat len * 4)%Z by lia.
    rewrite Z.div_add by lia. change (1 / 4)%Z with 0%Z. lia.
  - lia.
Qed.

Lemma F_avg_pool2d_ok (x : tensor R) (b c h w : nat) :
  size x = [b; c; 4 * h; 4 * w] -> 0 < h -> 0 < w ->
  exists y, F_avg_pool2d x 4 = Ok y /\ size y = [b; c; h; w].
Proof.
  intros Hx Hh Hw. unfold F_avg_pool2d. rewrite Hx.
  replace ((4 =? 0) || (4 * h <? 4) || (4 * w <? 4)) with false.
  - eexists. split; [reflexivity|]. cbn [size init]. do 2 f_equal.
    assert (E : forall m, 0 < m -> (4 * m - 4) / 4 + 1 = m).
    { intros m Hm. replace (4 * m - 4) with ((m - 1) * 4) by lia.
      rewrite Nat.div_mul by lia. lia. }
    now rewrite !E.
  - symmetry. change (4 =? 0) with false. cbn [orb].
    apply orb_false_iff. split; apply Nat.ltb_ge; lia.
Qed.

Lemma rgb2lab_ok (rgb : R * R * R -> R * R * R) (img : tensor R) (h w : nat) :
  size img = [h; w; 3] ->
  exists lab, rgb2lab rgb img = Ok lab /\ size lab = [h; w; 3].
Proof.
  intros Hs. unfold rgb2lab. rewrite Hs. eexists. split; reflexivity.
Qed.

(** The color-similarity map that [add_bitmasks_from_boxes] computes for
    image [im_i], before it is attached to the instances. *)
Lemma add_bitmasks_image_ok (byte : R -> R) (rgb : R * R * R -> R * R * R)
      (ds ms : tensor R) (im_i : nat) (inst : Instances) (b h w : nat) :
  size ds = [b; 3; h; w] -> 0 < h -> 0 < w -> size ms = [b; h; w] ->
  im_i < b ->
  exists ics,
    size ics = [1; 8; h; w]
    /\ add_bitmasks_image byte rgb ds ms im_i inst
       = (let* n := Instances_len inst in
          if 0 <? n then
            let* replicated := cat 0%R (repeat ics n) 0 in
            Ok (set_image_color_similarity inst replicated)
          else Ok inst).
Proof.
  intros Sd Hh Hw Sm Hi. unfold add_bitmasks_image.
  rewrite (@select_ok R 0%R 0 im_i ds b) by (rewrite ?Sd; (reflexivity || assumption)).
  cbn [bind]. rewrite Sd. cbn [remove_at].
  set (image := init [3; h; w] _).
  destruct (@rgb2lab_ok rgb (permute 0%R [1; 2; 0] (tmap byte image)) h w eq_refl)
    as (lab & -> & Slab).
  cbn [bind].
  rewrite (@select_ok R 0%R 0 im_i ms b) by (rewrite ?Sm; (reflexivity || assumption)).
  cbn [bind]. rewrite Sm. cbn [remove_at].
  set (images_lab := unsqueeze 0 (permute 0%R [2; 0; 1] lab)).
  assert (Sl : size images_lab = [1; 3; h; w]).
  { unfold images_lab, unsqueeze, permute. cbn [size init insert_at].
    rewrite Slab. reflexivity. }
  set (mask := init [h; w] _).
  destruct (@color_similarity_run images_lab mask 3 h w
              pairwise_size pairwise_dilation)
    as (_ & _ & _ & _ & ics & _ & _ & _ & _ & _ & _ & _ & _ & _ & Hics & Sics & _);
    try reflexivity; try assumption; try lia;
    try (unfold pairwise_size; lia); try (unfold pairwise_dilation; lia).
  rewrite Hics. cbn [bind]. exists ics. split; [exact Sics|reflexivity].
Qed.

Lemma add_bitmasks_from_boxes_run (byte : R -> R) (rgb : R * R * R -> R * R * R)
      (instances : list Instances) (images image_masks : tensor R)
      (im_h im_w b h w : nat) :
  size images = [b; 3; 4 * h; 4 * w] -> size image_masks = [b; 4 * h; 4 * w] ->
  0 < h -> 0 < w ->
  exists ds ms,
    size ds = [b; 3; h; w] /\ size ms = [b; h; w]
    /\ add_bitmasks_from_boxes byte rgb instances images image_masks im_h im_w
       = mapM (fun it => add_bitmasks_image byte rgb ds ms (fst it) (snd it))
              (combine (seq 0 (length instances)) instances).
Proof.
  intros Si Sm Hh Hw. unfold add_bitmasks_from_boxes, tsize.
  rewrite Si. cbn [nth_error bind].
  rewrite !(Nat.mul_comm 4), !Nat.Div0.mod_mul. cbn [Nat.eqb assert bind].
  destruct (@F_avg_pool2d_ok images b 3 h w Si Hh Hw) as (ds & -> & Sds).
  cbn [bind].
  destruct (@slice_ok R 0%R 1 (Some (Z.of_nat (4 / 2))) None (Z.of_nat 4)
              image_masks (4 * h)) as (m1 & -> & S1 & _); [now rewrite Sm|].
  cbn [bind].
  change (Z.of_nat (4 / 2)) with 2%Z in *. change (Z.of_nat 4) with 4%Z in *.
  rewrite slice_strided_size, Sm in S1. cbn [set_at] in S1.
  destruct (@slice_ok R 0%R 2 (Some 2%Z) None 4%Z m1 (4 * w))
    as (m2 & -> & S2 & _); [now rewrite S1|].
  cbn [bind]. rewrite slice_strided_size, S1 in S2. cbn [set_at] in S2.
  exists ds, m2. split; [exact Sds|]. split; [exact S2|reflexivity].
Qed.

(** Stacking no canvas at all is refused: an image without boxes cannot
    get past [torch.stack], even with a color-similarity field. *)
Lemma prepare_target_no_boxes (image_size : nat * nat) (cls : tensor Z)
      (sim : tensor R) :
  prepare_target (mkInstances image_size (Some (mkTensor [0; 4] []))
                              (Some cls) (Some sim) None None None)
  = Raise RuntimeError.
Proof. destruct image_size. reflexivity. Qed.

(** ** Remarks on the edges of the preconditions *)

(** The eight neighbours at dilation 2 of the pixels of a 3x3 image:
    plane [j] holds, for each pixel, its neighbour [j] in row-major
    order of the 3x3 window without its centre, and 0 where that
    neighbour falls into the padding. *)
Example unfold_wo_center_3x3 :
  unfold_wo_center 0 (mkTensor [1; 1; 3; 3] [1; 2; 3; 4; 5; 6; 7; 8; 9]) 3 2
  = Ok (mkTensor [1; 1; 8; 3; 3]
          [0; 0; 0; 0; 0; 0; 0; 0; 1;
           0; 0; 0; 0; 0; 0; 1; 2; 3;
           0; 0; 0; 0; 0; 0; 3; 0; 0;
           0; 0; 1; 0; 0; 4; 0; 0; 7;
           3; 0; 0; 6; 0; 0; 9; 0; 0;
           0; 0; 7; 0; 0; 0; 0; 0; 0;
           7; 8; 9; 0; 0; 0; 0; 0; 0;
           9; 0; 0; 0; 0; 0; 0; 0; 0]).
Proof. reflexivity. Qed.

(** The assertions at work. *)
Example unfold_wo_center_rank3 :
  unfold_wo_center 0 (mkTensor [1; 3; 3] [1; 2; 3; 4; 5; 6; 7; 8; 9]) 3 2
  = Raise (AssertionError 21).
Proof. reflexivity. Qed.

Example unfold_wo_center_even_kernel :
  unfold_wo_center 0 (mkTensor [1; 1; 3; 3] [1; 2; 3; 4; 5; 6; 7; 8; 9]) 2 2
  = Raise (AssertionError 22).
Proof. reflexivity. Qed.

Example color_similarity_batch_of_two :
  get_images_color_similarity (mkTensor [2; 1; 1; 1] [0%R; 0%R])
                              (mkTensor [1; 1] [1%R]) 3 2
  = Raise (AssertionError 48).
Proof. reflexivity. Qed.

Example add_bitmasks_height_6 (byte : R -> R) (rgb : R * R * R -> R * R * R) :
  add_bitmasks_from_boxes byte rgb [] (full [1; 3; 6; 4] 0%R)
                          (full [1; 6; 4] 1%R) 6 4
  = Raise (AssertionError 299).
Proof. reflexivity. Qed.

(** An empty batch is refused: the reshape cannot infer the neighbour
    dimension of a tensor without elements. *)
Example unfold_wo_center_empty_batch :
  unfold_wo_center 0 (mkTensor [0; 1; 3; 3] []) 3 2 = Raise RuntimeError.
Proof. reflexivity. Qed.

(** The canvas of a box that spans a 2x3 image. *)
Example bitmask_full_image :
  bitmask_from_box 2 3 (mkTensor [4] [0; 0; 2; 1]%Q)
  = Ok (mkTensor [2; 3] [1; 1; 1; 1; 1; 1]%Q).
Proof. reflexivity. Qed.

(** A negative coordinate is a Python index counted from the end: the
    slice of the box (0, -1, 4, 2) on a 4x5 canvas starts at row 3 and
    is empty. *)
Example bitmask_negative_wraps :
  bitmask_from_box 4 5 (mkTensor [4] [0; -1; 4; 2]%Q) = Ok (full [4; 5] 0%Q).
Proof. reflexivity. Qed.

(** Growing the boolean mask can lower the rescored score although the
    overlap sum grows: the denominator counts the pixels of the boolean
    mask. *)
Lemma rescoring_mask_not_monotone_in_mask :
  exists small large,
    rescoring_mask (mkTensor [1] [1%R]) (mkTensor [1; 1; 2] [true; false])
                   (mkTensor [1; 1; 2] [0.9; 0.1]%R) = Ok small
    /\ rescoring_mask (mkTensor [1] [1%R]) (mkTensor [1; 1; 2] [true; true])
                      (mkTensor [1; 1; 2] [0.9; 0.1]%R) = Ok large
    /\ (get 0%R large [0%nat] < get 0%R small [0%nat])%R.
Proof.
  destruct (@rescoring_mask_value (mkTensor [1] [1%R])
              (mkTensor [1; 1; 2] [true; false])
              (mkTensor [1; 1; 2] [0.9; 0.1]%R) 1 1 2
              eq_refl eq_refl eq_refl eq_refl) as (small & Hs & _ & _ & Vs).
  destruct (@rescoring_mask_value (mkTensor [1] [1%R])
              (mkTensor [1; 1; 2] [true; true])
              (mkTensor [1; 1; 2] [0.9; 0.1]%R) 1 1 2
              eq_refl eq_refl eq_refl eq_refl) as (large & Hl & _ & _ & Vl).
  exists small, large. split; [exact Hs|]. split; [exact Hl|].
  specialize (Vs 0 (Nat.lt_0_succ 0)). specialize (Vl 0 (Nat.lt_0_succ 0)).
  set (vs := get 0%R small [0]) in *. set (vl := get 0%R large [0]) in *.
  unfold sum_hw, get, b2r in Vs, Vl. simpl in Vs, Vl.
  rewrite Vs, Vl.
  assert (H1 : (0.8 < (0.9 * 1 + (0.1 * 0 + 0) + 0) / (1 + (0 + 0) + 0 + 1e-6))%R).
  { apply Rmult_lt_reg_r with (1 + (0 + 0) + 0 + 1e-6)%R; [lra|].
    unfold Rdiv. rewrite Rmult_assoc, Rinv_l by lra. lra. }
  assert (H2 : ((0.9 * 1 + (0.1 * 1 + 0) + 0) / (1 + (1 + 0) + 0 + 1e-6) < 0.6)%R).
  { apply Rmult_lt_reg_r with (1 + (1 + 0) + 0 + 1e-6)%R; [lra|].
    unfold Rdiv. rewrite Rmult_assoc, Rinv_l by lra. lra. }
  lra.
Qed.

(** ** The specification's properties *)

(** C1: an image none of whose slots has a best combined score above
    the classification threshold gets the empty result (scores and
    classes present and empty, no masks field).  The loop body returns
    it without raising whatever sizes would have been handed to the
    resampler, and a completed batch holds it at the image's position. *)
Theorem inference_empty_result (cfg : config) (output : decoder_output)
        (batched_inputs : list batched_input) (max_shape : nat * nat)
        (image_sizes : list (nat * nat)) (b n c hm wm : nat)
        (pred_scores : tensor R) (i : nat) (input : batched_input) :
  size (out_pred_logits output) = [b; n; c] -> 0 < c ->
  size (out_pred_masks output) = [b; n; hm; wm] ->
  size (out_pred_scores output) = [b; n; 1] ->
  combined_scores output = Ok pred_scores ->
  i < b -> nth_error batched_inputs i = Some input -> i < length image_sizes ->
  (forall slot, slot < n ->
     (best_score (image_slice pred_scores i) slot <= cls_threshold cfg)%R) ->
  (forall img_shape,
     inference_image cfg max_shape (image_slice pred_scores i)
                     (image_slice (tmap sigmoid (out_pred_masks output)) i)
                     input img_shape
     = Ok (empty_result input))
  /\ (forall results,
        inference cfg output batched_inputs max_shape image_sizes = Ok results ->
        nth_error results i = Some (empty_result input)).
Proof.
  intros Hl Hc Hm Ho Hps Hi Hin Hsz Hbelow.
  destruct (@combined_scores_ok output b n c Hl Ho) as (ps & Hps' & Sps & _ & _ & _).
  rewrite Hps in Hps'. injection Hps' as <-.
  assert (Hone : forall img_shape,
             inference_image cfg max_shape (image_slice pred_scores i)
               (image_slice (tmap sigmoid (out_pred_masks output)) i)
               input img_shape = Ok (empty_result input)).
  { intros img_shape.
    apply (@inference_image_run cfg max_shape (image_slice pred_scores i)
             (image_slice (tmap sigmoid (out_pred_masks output)) i)
             input img_shape n c hm wm).
    - unfold image_slice. cbn [size init]. now rewrite Sps.
    - exact Hc.
    - unfold image_slice. cbn [size init tmap]. now rewrite Hm.
    - apply filter_none. intros slot Hslot. apply in_seq in Hslot.
      destruct (Rlt_dec _ _) as [Hlt|]; [|reflexivity].
      pose proof (Hbelow slot ltac:(lia)). lra. }
  split; [exact Hone|].
  intros results Hres. rewrite inference_unfold, Hps in Hres. cbn [bind] in Hres.
  apply mapM_nth in Hres as [_ Hnth].
  destruct (nth_error image_sizes i) as [shape|] eqn:Es;
    [|apply nth_error_None in Es; lia].
  destruct (Hnth i (image_slice pred_scores i,
                    image_slice (tmap sigmoid (out_pred_masks output)) i,
                    input, shape)) as (y & Hy & Hrun).
  { rewrite !nth_error_combine. repeat split; try assumption.
    - apply nth_error_unbind0_at. unfold tlen. now rewrite Sps.
    - apply nth_error_unbind0_at. unfold tlen. cbn [tmap size]. now rewrite Hm. }
  rewrite Hone in Hrun. now injection Hrun as <-.
Qed.

Lemma inference_empty_result_witness :
  exists ps,
    combined_scores example_output = Ok ps
    /\ (forall slot, slot < 1 ->
          (best_score (image_slice ps 0) slot <= cls_threshold strict_config)%R)
    /\ (forall img_shape,
          inference_image strict_config (4, 4) (image_slice ps 0)
            (image_slice (tmap sigmoid (out_pred_masks example_output)) 0)
            example_input img_shape
          = Ok (empty_result example_input))
    /\ (forall results,
          inference strict_config example_output [example_input] (4, 4) [(4, 4)]
          = Ok results ->
          nth_error results 0 = Some (empty_result example_input)).
Proof.
  destruct (@combined_scores_ok example_output 1 1 1 eq_refl eq_refl)
    as (ps & Hps & Sps & Wps & Fps & _).
  assert (Hbelow : forall slot, slot < 1 ->
            (best_score (image_slice ps 0) slot <= cls_threshold strict_config)%R).
  { intros slot _.
    apply (@best_score_in01 (image_slice ps 0) slot).
    apply Forall_image_slice; [unfold in01; lra|exact Fps]. }
  exists ps. split; [exact Hps|]. split; [exact Hbelow|].
  apply (@inference_empty_result strict_config example_output [example_input]
           (4, 4) [(4, 4)] 1 1 1 1 1 ps 0 example_input);
    try reflexivity; try (simpl; lia); assumption.
Defined.

(** C2 (an image with zero ground-truth instances gets an empty target,
    without a crash) does not hold of the code.  On a batch of one 4x4
    image without ground-truth instances the training path raises
    [AttributeError]: [add_bitmasks_from_boxes] attaches no
    [image_color_similarity] to an empty instance set, and
    [prepare_targets] reads that field unconditionally. *)
Theorem training_targets_zero_instances (byte : R -> R)
        (rgb : R * R * R -> R * R * R) :
  training_targets byte rgb [zero_instances]
                   (full [1; 3; 4; 4] 0%R) (full [1; 4; 4] 1%R)
  = Raise AttributeError.
Proof.
  unfold training_targets, tsize.
  change (size (full [1; 3; 4; 4] 0%R)) with [1; 3; 4; 4]. cbn [nth_error bind].
  destruct (@add_bitmasks_from_boxes_run byte rgb [zero_instances]
              (full [1; 3; 4; 4] 0%R) (full [1; 4; 4] 1%R) 4 4 1 1 1
              eq_refl eq_refl Nat.lt_0_1 Nat.lt_0_1)
    as (ds & ms & Sds & Sms & Hrun).
  rewrite Hrun.
  cbn [length seq combine mapM fst snd].
  destruct (@add_bitmasks_image_ok byte rgb ds ms 0 zero_instances 1 1 1
              Sds Nat.lt_0_1 Nat.lt_0_1 Sms Nat.lt_0_1) as (ics & _ & ->).
  reflexivity.
Qed.



(** C4 (as amended): [rescoring_mask] multiplies each score by the sum of
    the soft mask over the pixels of the boolean mask divided by the
    number of those pixels plus 1e-6.  For a fixed boolean mask and a
    non-negative score a larger overlap sum never gives a smaller
    rescored score, and when the soft mask is 1 on every pixel of the
    boolean mask the rescored score is the score times n / (n + 1e-6),
    n the number of mask pixels: within a factor 1 - 1e-6 of the
    original score as soon as the boolean mask is not empty. *)
Theorem rescoring_mask_maskness (scores : tensor R) (mask_pred : tensor bool)
        (masks : tensor R) (n h w : nat) :
  size scores = [n] -> size mask_pred = [n; h; w] -> size masks = [n; h; w] ->
  wf mask_pred ->
  exists out,
    rescoring_mask scores mask_pred masks = Ok out
    /\ size out = [n]
    /\ forall i, i < n ->
         let area :=
           sum_hw h w (fun r c => b2r (get false mask_pred [i; r; c])) in
         let overlap :=
           sum_hw h w (fun r c => get 0%R masks [i; r; c]
                                  * b2r (get false mask_pred [i; r; c]))%R in
         get 0%R out [i] = (get 0%R scores [i] * (overlap / (area + 1e-6)))%R
         /\ (forall masks' out',
               size masks' = [n; h; w] ->
               rescoring_mask scores mask_pred masks' = Ok out' ->
               (0 <= get 0%R scores [i])%R ->
               (overlap
                <= sum_hw h w (fun r c => get 0%R masks' [i; r; c]
                                          * b2r (get false mask_pred [i; r; c])))%R ->
               (get 0%R out [i] <= get 0%R out' [i])%R)
         /\ ((forall r c, r < h -> c < w ->
                get false mask_pred [i; r; c] = true ->
                get 0%R masks [i; r; c] = 1%R) ->
             get 0%R out [i]
             = (get 0%R scores [i] * (area / (area + 1e-6)))%R
             /\ ((1 <= area)%R -> (0 <= get 0%R scores [i])%R ->
                 (get 0%R scores [i] * (1 - 1e-6) <= get 0%R out [i]
                  <= get 0%R scores [i])%R)).
Proof.
  intros Hs Hp Hm Wp.
  destruct (@rescoring_mask_value scores mask_pred masks n h w Hs Hp Hm Wp)
    as (out & Hout & So & _ & Vout).
  exists out. split; [exact Hout|]. split; [exact So|].
  intros i Hi area overlap.
  assert (Harea : (0 <= area)%R).
  { apply sum_hw_nonneg. intros r c _ _. unfold b2r.
    destruct (get false mask_pred [i; r; c]); lra. }
  split; [apply Vout, Hi|]. split.
  - intros masks' out' Hm' Hout' Hscore Hle.
    destruct (@rescoring_mask_value scores mask_pred masks' n h w Hs Hp Hm' Wp)
      as (o2 & Ho2 & _ & _ & Vo2).
    rewrite Hout' in Ho2. injection Ho2 as <-.
    rewrite (Vout i Hi), (Vo2 i Hi). fold area. fold overlap.
    apply Rmult_le_compat_l; [exact Hscore|].
    unfold Rdiv. apply Rmult_le_compat_r; [|exact Hle].
    left. apply Rinv_0_lt_compat. lra.
  - intros Hone.
    assert (Hov : overlap = area).
    { apply sum_hw_ext. intros r c Hr Hc. unfold b2r.
      destruct (get false mask_pred [i; r; c]) eqn:E; [|lra].
      rewrite (Hone r c Hr Hc E). lra. }
    rewrite (Vout i Hi). fold area. fold overlap. rewrite Hov.
    split; [reflexivity|]. intros H1 Hscore.
    assert (Hq : (1 - 1e-6 <= area / (area + 1e-6) <= 1)%R).
    { split.
      - apply Rle_trans with (area / (area + 1e-6) * 1)%R; [|lra].
        unfold Rdiv. rewrite Rmult_assoc, Rmult_1_r.
        apply Rmult_le_reg_r with (area + 1e-6)%R; [lra|].
        rewrite Rmult_assoc, Rinv_l by lra. nra.
      - apply Rmult_le_reg_r with (area + 1e-6)%R; [lra|].
        unfold Rdiv. rewrite Rmult_assoc, Rinv_l by lra. lra. }
    split; [apply Rmult_le_compat_l; lra|].
    rewrite <- (Rmult_1_r (get 0%R scores [i])) at 2.
    apply Rmult_le_compat_l; lra.
Qed.

Lemma rescoring_mask_maskness_witness :
  exists out,
    rescoring_mask (mkTensor [1] [1%R]) (mkTensor [1; 1; 1] [true])
                   (mkTensor [1; 1; 1] [0.5%R]) = Ok out
    /\ size out = [1].
Proof.
  destruct (@rescoring_mask_maskness (mkTensor [1] [1%R])
              (mkTensor [1; 1; 1] [true]) (mkTensor [1; 1; 1] [0.5%R]) 1 1 1
              eq_refl eq_refl eq_refl eq_refl) as (out & Hout & So & _).
  exists out. split; assumption.
Defined.

(** C4, as stated, fails.  On a single detection with score 1 whose
    one-pixel soft mask 0.5 is entirely covered by the boolean mask, the
    code returns 0.5 / (1 + 1e-6): not the value 0.5 / (0.5 + 1e-6) of
    the stated formula, and not the original score within 1e-6. *)
Lemma rescoring_mask_divides_by_area :
  exists out,
    rescoring_mask (mkTensor [1] [1%R]) (mkTensor [1; 1; 1] [true])
                   (mkTensor [1; 1; 1] [0.5%R]) = Ok out
    /\ get 0%R out [0] = (1 * (0.5 * 1 / (1 + 1e-6)))%R
    /\ get 0%R out [0] <> (1 * (0.5 * 1 / (0.5 + 1e-6)))%R
    /\ (get 0%R out [0%nat] < 1 - 0.4)%R.
Proof.
  destruct (@rescoring_mask_value (mkTensor [1] [1%R])
              (mkTensor [1; 1; 1] [true]) (mkTensor [1; 1; 1] [0.5%R]) 1 1 1
              eq_refl eq_refl eq_refl eq_refl) as (out & Hout & _ & _ & V).
  exists out. split; [exact Hout|].
  specialize (V 0 (Nat.lt_0_succ 0)).
  set (v := get 0%R out [0]) in *.
  unfold sum_hw, get, b2r in V. simpl in V.
  assert (E : v = (1 * (0.5 * 1 / (1 + 1e-6)))%R).
  { rewrite V. field. }
  split; [exact E|]. rewrite E. split.
  - intros H.
    assert (H1 : (0.5 * 1 / (1 + 1e-6) < 0.6)%R).
    { apply Rmult_lt_reg_r with (1 + 1e-6)%R; [lra|].
      unfold Rdiv. rewrite Rmult_assoc, Rinv_l by lra. lra. }
    assert (H2 : (0.9 < 0.5 * 1 / (0.5 + 1e-6))%R).
    { apply Rmult_lt_reg_r with (0.5 + 1e-6)%R; [lra|].
      unfold Rdiv. rewrite Rmult_assoc, Rinv_l by lra. lra. }
    lra.
  - assert (H1 : (0.5 * 1 / (1 + 1e-6) < 0.6)%R).
    { apply Rmult_lt_reg_r with (1 + 1e-6)%R; [lra|].
      unfold Rdiv. rewrite Rmult_assoc, Rinv_l by lra. lra. }
    lra.
Qed.

(** C5: on a non-empty 4D input (batch, channel, H, W), for an odd
    kernel size k >= 3 and a dilation d >= 1, the padding
    (k + (d-1)(k-1)) // 2 is half the dilated kernel extent d(k-1), the
    unfold has exactly H*W block positions, and [unfold_wo_center]
    returns a tensor of shape (batch, channel, k*k - 1, H, W). *)
Theorem unfold_wo_center_shape {A} (z : A) (x : tensor A)
        (n c h w : nat) (k d : Z) :
  size x = [n; c; h; w] ->
  0 < n -> 0 < c -> 0 < h -> 0 < w ->
  (k mod 2 = 1)%Z -> (3 <= k)%Z -> (1 <= d)%Z ->
  let padding := ((k + (d - 1) * (k - 1)) / 2)%Z in
  (2 * padding = d * (k - 1))%Z
  /\ (exists blocks,
        F_unfold z x k padding d = Ok blocks
        /\ size blocks = [n; c * Z.to_nat (k * k); h * w])
  /\ exists y, unfold_wo_center z x k d = Ok y
               /\ size y = [n; c; Z.to_nat (k * k - 1); h; w]
               /\ wf y.
Proof.
  intros Hx Hn Hc Hh Hw Hodd Hk Hd padding.
  assert (Hp : (2 * padding = d * (k - 1))%Z) by (now apply same_padding).
  split; [exact Hp|]. split.
  - destruct (@F_unfold_same A z x n c h w k padding d)
      as (blocks & Hb & Sb & _); try assumption; try lia.
    now exists blocks.
  - apply unfold_wo_center_size; try assumption; lia.
Qed.

Lemma unfold_wo_center_shape_witness :
  exists y,
    unfold_wo_center 0 (mkTensor [1; 1; 3; 3] [1; 2; 3; 4; 5; 6; 7; 8; 9]) 3 2
    = Ok y
    /\ size y = [1; 1; 8; 3; 3].
Proof.
  destruct (@unfold_wo_center_shape nat 0
              (mkTensor [1; 1; 3; 3] [1; 2; 3; 4; 5; 6; 7; 8; 9]) 1 1 3 3 3 2)
    as (_ & _ & y & Hy & Hs & _); try reflexivity; try lia.
  exists y. split; assumption.
Defined.

(** C6: every result of the inference post-processor satisfies the
    detection-result invariant.  The combined score of a slot and class
    is the geometric mean sqrt(class_prob * objectness_prob) of the two
    sigmoid probabilities; the score of a detection is the best combined
    score of its slot multiplied by the maskness of the slot's soft
    mask, and lies in [0, 1]; the boolean masks, when present, have one
    (original_height, original_width) plane per detection. *)
Theorem inference_detection_invariant (cfg : config) (output : decoder_output)
        (batched_inputs : list batched_input) (max_shape : nat * nat)
        (image_sizes : list (nat * nat)) (b n c hm wm : nat) :
  size (out_pred_logits output) = [b; n; c] -> 0 < c ->
  size (out_pred_masks output) = [b; n; hm; wm] -> 0 < hm -> 0 < wm ->
  size (out_pred_scores output) = [b; n; 1] ->
  length batched_inputs = b -> length image_sizes = b ->
  0 < fst max_shape -> 0 < snd max_shape ->
  Forall (fun s => 0 < fst s /\ 0 < snd s) image_sizes ->
  Forall (fun input => 0 < height input /\ 0 < width input) batched_inputs ->
  exists pred_scores results,
    combined_scores output = Ok pred_scores
    /\ (forall i s cl, i < b -> s < n -> cl < c ->
          get 0%R pred_scores [i; s; cl]
          = sqrt (get 0%R (tmap sigmoid (out_pred_logits output)) [i; s; cl]
                  * get 0%R (tmap sigmoid (out_pred_scores output))
                        [i; s; 0%nat]))
    /\ inference cfg output batched_inputs max_shape image_sizes = Ok results
    /\ length results = b
    /\ forall i r, nth_error results i = Some r ->
         exists input sc,
           nth_error batched_inputs i = Some input
           /\ image_size r = (height input, width input)
           /\ scores r = Some sc
           /\ Forall in01 (elems sc)
           /\ (forall mk, pred_masks r = Some mk ->
                 size mk = [tlen sc; height input; width input])
           /\ (let scores_per_image := image_slice pred_scores i in
               let mask_pred_per_image :=
                 image_slice (tmap sigmoid (out_pred_masks output)) i in
               let kept :=
                 filter (fun slot =>
                           if Rlt_dec (cls_threshold cfg)
                                      (best_score scores_per_image slot)
                           then true else false) (seq 0 n) in
               forall j, j < tlen sc ->
                 get 0%R sc [j]
                 = (best_score scores_per_image (nth j kept 0%nat)
                    * maskness (mask_threshold cfg) mask_pred_per_image
                               (nth j kept 0%nat))%R).
Proof.
  intros Hl Hc Hm Hhm Hwm Ho Lin Lsz HH HW Fsz Fin.
  destruct (@combined_scores_ok output b n c Hl Ho)
    as (ps & Hps & Sps & _ & Fps & Vps).
  exists ps. rewrite inference_unfold, Hps. cbn [bind].
  set (pm := tmap sigmoid (out_pred_masks output)).
  assert (Spm : size pm = [b; n; hm; wm]) by exact Hm.
  assert (Fpm : Forall in01 (elems pm)).
  { unfold pm. cbn [tmap elems]. rewrite Forall_map. apply Forall_forall.
    intros v _. apply sigmoid_in01. }
  set (items := combine (combine (combine (unbind0 0%R ps) (unbind0 0%R pm))
                                 batched_inputs) image_sizes).
  set (body := fun it : tensor R * tensor R * batched_input * (nat * nat) => _).
  set (post := fun (i : nat) (input : batched_input) (r : Instances)
                   (sc : tensor R) =>
                 image_size r = (height input, width input)
                 /\ scores r = Some sc
                 /\ Forall in01 (elems sc)
                 /\ (forall mk, pred_masks r = Some mk ->
                       size mk = [tlen sc; height input; width input])
                 /\ (let scores_per_image := image_slice ps i in
                     let mask_pred_per_image := image_slice pm i in
                     let kept :=
                       filter (fun slot =>
                                 if Rlt_dec (cls_threshold cfg)
                                            (best_score scores_per_image slot)
                                 then true else false) (seq 0 n) in
                     forall j, j < tlen sc ->
                       get 0%R sc [j]
                       = (best_score scores_per_image (nth j kept 0%nat)
                          * maskness (mask_threshold cfg) mask_pred_per_image
                                     (nth j kept 0%nat))%R)).
  assert (Hitem : forall i x, nth_error items i = Some x ->
            exists input r sc,
              nth_error batched_inputs i = Some input
              /\ body x = Ok r /\ post i input r sc).
  { intros i [[[spi mpi] input] shape] Hx. unfold items in Hx.
    rewrite !nth_error_combine in Hx. destruct Hx as [[[Hs Hp] Hi] Hz].
    apply nth_error_unbind0 in Hs as [_ ->]. apply nth_error_unbind0 in Hp as [_ ->].
    rewrite Forall_forall in Fsz, Fin.
    destruct (Fsz shape (nth_error_In _ _ Hz)) as [? ?].
    destruct (Fin input (nth_error_In _ _ Hi)) as [? ?].
    destruct (@inference_image_invariant cfg max_shape (image_slice ps i)
                (image_slice pm i) input shape n c hm wm)
      as (r & sc & Hr & ? & ? & ? & ? & ?); try assumption.
    - unfold image_slice. cbn [size init]. now rewrite Sps.
    - unfold image_slice. cbn [size init]. now rewrite Spm.
    - apply Forall_image_slice; [unfold in01; lra|exact Fps].
    - apply Forall_image_slice; [unfold in01; lra|exact Fpm].
    - exists input, r, sc. unfold post. repeat split; assumption. }
  destruct (@mapM_ok _ _ body items) as (results & Hres).
  { intros x Hx. apply In_nth_error in Hx as (i & Hx).
    destruct (Hitem i x Hx) as (_ & r & _ & _ & Hr & _). now exists r. }
  exists results. split; [reflexivity|]. split; [exact Vps|].
  split; [exact Hres|].
  destruct (mapM_nth _ _ Hres) as [Hlen Hnth]. split.
  - rewrite Hlen. unfold items. rewrite !length_combine.
    unfold unbind0. rewrite !length_map, !length_seq. unfold tlen.
    rewrite Sps, Spm. cbn [hd]. lia.
  - intros i r Hr.
    assert (Hi : i < length items).
    { rewrite <- Hlen. apply nth_error_Some. congruence. }
    destruct (nth_error items i) as [x|] eqn:Ex;
      [|apply nth_error_None in Ex; lia].
    destruct (Hnth i x Ex) as (y & Hy & Hbody).
    rewrite Hr in Hy. injection Hy as <-.
    destruct (Hitem i x Ex) as (input & r' & sc & ? & Hr' & Hpost).
    rewrite Hbody in Hr'. injection Hr' as <-.
    exists input, sc. split; [assumption|]. exact Hpost.
Qed.

Lemma inference_detection_invariant_witness :
  exists results,
    inference lenient_config example_output [example_input] (4, 4) [(4, 4)]
    = Ok results
    /\ length results = 1.
Proof.
  destruct (@inference_detection_invariant lenient_config example_output
              [example_input] (4, 4) [(4, 4)] 1 1 1 1 1)
    as (ps & results & _ & _ & Hres & Hlen & _);
    try reflexivity; try (simpl; lia);
    try (repeat constructor; simpl; lia).
  exists results. split; assumption.
Defined.



(** C8 (as amended): on a single image (batch dimension 1) with an odd
    kernel size k, the color-similarity builder returns a tensor of
    shape (1, k*k - 1, H, W): rank 4, the batch dimension kept. *)
Theorem color_similarity_shape (images image_masks : tensor R)
        (c h w : nat) (k d : Z) :
  size images = [1; c; h; w] -> size image_masks = [h; w] ->
  0 < c -> 0 < h -> 0 < w ->
  (k mod 2 = 1)%Z -> (1 <= k)%Z -> (1 <= d)%Z ->
  exists out,
    get_images_color_similarity images image_masks k d = Ok out
    /\ size out = [1; Z.to_nat (k * k - 1); h; w]
    /\ wf out.
Proof.
  intros Hi Hm Hc Hh Hw Hodd Hk Hd.
  destruct (@color_similarity_run images image_masks c h w k d Hi Hm Hc Hh Hw Hodd Hk Hd)
    as (ui & uw & wts & dist & out & _ & _ & _ & _ & _ & _ & _ & _
        & _ & Hout & So & Wo & _).
  now exists out.
Qed.

Lemma color_similarity_shape_witness :
  exists out,
    get_images_color_similarity (mkTensor [1; 1; 1; 1] [0%R])
                                (mkTensor [1; 1] [1%R]) 3 2 = Ok out
    /\ size out = [1; 8; 1; 1].
Proof.
  destruct (@color_similarity_shape (mkTensor [1; 1; 1; 1] [0%R])
              (mkTensor [1; 1] [1%R]) 1 1 1 3 2)
    as (out & Hout & Hs & _); try reflexivity; try lia.
  exists out. split; assumption.
Defined.

(** C8, as stated, fails: the map of a 1x1 image for kernel 3 has shape
    (1, 8, 1, 1), not the rank-3 shape (8, 1, 1). *)
Lemma color_similarity_rank4 :
  exists out,
    get_images_color_similarity (mkTensor [1; 1; 1; 1] [0%R])
                                (mkTensor [1; 1] [1%R]) 3 2 = Ok out
    /\ size out = [1; 8; 1; 1]
    /\ dim out <> 3
    /\ size out <> [8; 1; 1].
Proof.
  destruct (@color_similarity_run (mkTensor [1; 1; 1; 1] [0%R])
              (mkTensor [1; 1] [1%R]) 1 1 1 3 2)
    as (ui & uw & wts & dist & out & _ & _ & _ & _ & _ & _ & _ & _
        & _ & Hout & So & Wo & _); try reflexivity; try lia.
  exists out. unfold dim. rewrite So. repeat split; try assumption; discriminate.
Qed.

(** C9: each precondition is guarded by an assertion that fails exactly
    when the precondition is violated.  [unfold_wo_center] fails at
    line 21 exactly when its input is not 4D, at line 22 exactly when
    the input is 4D and the kernel size is even, and raises no
    assertion otherwise; [get_images_color_similarity] on a 4D input
    fails at line 48 exactly when the batch dimension is not 1;
    [add_bitmasks_from_boxes] on a 4D input fails at line 299 exactly
    when the height is not a multiple of 4 and at line 300 exactly when
    the height is and the width is not.  Nothing catches a failure: the
    kernel-size assertion of the unfold surfaces unchanged from the
    color-similarity builder. *)
Theorem precondition_assertions :
  (forall (A : Type) (z : A) (x : tensor A) (k d : Z),
      (unfold_wo_center z x k d = Raise (AssertionError 21) <-> dim x <> 4)
      /\ (unfold_wo_center z x k d = Raise (AssertionError 22)
          <-> dim x = 4 /\ (k mod 2)%Z <> 1%Z)
      /\ (dim x = 4 -> (k mod 2)%Z = 1%Z ->
          forall line, unfold_wo_center z x k d <> Raise (AssertionError line)))
  /\ (forall (images image_masks : tensor R) (k d : Z),
         dim images = 4 ->
         (get_images_color_similarity images image_masks k d
          = Raise (AssertionError 48) <-> tlen images <> 1)
         /\ (tlen images = 1 -> (k mod 2)%Z <> 1%Z ->
             get_images_color_similarity images image_masks k d
             = Raise (AssertionError 22)))
  /\ (forall (byte : R -> R) (rgb : R * R * R -> R * R * R)
             (instances : list Instances) (images image_masks : tensor R)
             (im_h im_w b c h w : nat),
         size images = [b; c; h; w] ->
         (add_bitmasks_from_boxes byte rgb instances images image_masks im_h im_w
          = Raise (AssertionError 299) <-> h mod 4 <> 0)
         /\ (add_bitmasks_from_boxes byte rgb instances images image_masks
                                     im_h im_w
             = Raise (AssertionError 300) <-> h mod 4 = 0 /\ w mod 4 <> 0)).
Proof.
  split; [|split].
  - intros A z x k d.
    assert (H21 : dim x <> 4 -> unfold_wo_center z x k d = Raise (AssertionError 21)).
    { intros H. unfold unfold_wo_center. apply Nat.eqb_neq in H. now rewrite H. }
    assert (H22 : dim x = 4 -> (k mod 2)%Z <> 1%Z ->
                  unfold_wo_center z x k d = Raise (AssertionError 22)).
    { intros H Hk. unfold unfold_wo_center. rewrite H. cbn [Nat.eqb assert bind].
      apply Z.eqb_neq in Hk. now rewrite Hk. }
    assert (Hok : dim x = 4 -> (k mod 2)%Z = 1%Z ->
                  forall line, unfold_wo_center z x k d <> Raise (AssertionError line)).
    { intros H Hk line E. unfold unfold_wo_center in E. rewrite H, Hk in E.
      cbn [Nat.eqb Z.eqb Pos.eqb assert bind] in E. revert line E.
      change (asserts_in
                (let* unfolded_x :=
                   F_unfold z x k ((k + (d - 1) * (k - 1)) / 2) d in
                 let* s0 := tsize x 0 in
                 let* s1 := tsize x 1 in
                 let* s2 := tsize x 2 in
                 let* s3 := tsize x 3 in
                 let* unfolded_x0 :=
                   reshape unfolded_x
                     [Z.of_nat s0; Z.of_nat s1; (-1)%Z; Z.of_nat s2; Z.of_nat s3] in
                 let* before := slice z 2 None (Some (k ^ 2 / 2)%Z) 1 unfolded_x0 in
                 let* after :=
                   slice z 2 (Some (k ^ 2 / 2 + 1)%Z) None 1 unfolded_x0 in
                 cat z [before; after] 2) []).
      repeat asserts_step. }
    split; [|split; [|exact Hok]].
    + split; [|exact H21]. intros E Hd.
      destruct (Z.eq_dec (k mod 2) 1) as [Hk|Hk].
      * exact (Hok Hd Hk _ E).
      * rewrite (H22 Hd Hk) in E. discriminate.
    + split; [|intros [? ?]; now apply H22]. intros E.
      destruct (Nat.eq_dec (dim x) 4) as [Hd|Hd].
      * split; [exact Hd|]. intros Hk. exact (Hok Hd Hk _ E).
      * rewrite (H21 Hd) in E. discriminate.
  - intros images image_masks k d Hd.
    assert (Hsz : tsize images 0 = Ok (tlen images)).
    { unfold tsize, tlen, dim in *. destruct (size images); [discriminate|reflexivity]. }
    split; [split|].
    + intros E Hb. unfold get_images_color_similarity in E.
      rewrite Hd, Hsz, Hb in E. cbn [Nat.eqb assert bind] in E.
      revert E. set (rest := bind _ _).
      assert (Hrest : asserts_in rest [21; 22]).
      { unfold rest, norm.
        repeat first
          [ apply unfold_wo_center_asserts
          | asserts_step ]. }
      intros E. apply Hrest in E. simpl in E. lia.
    + intros Hb. unfold get_images_color_similarity.
      rewrite Hd, Hsz. cbn [Nat.eqb assert bind].
      apply Nat.eqb_neq in Hb. now rewrite Hb.
    + intros Hb Hk. unfold get_images_color_similarity.
      rewrite Hd, Hsz, Hb. cbn [Nat.eqb assert bind].
      unfold unfold_wo_center at 1. rewrite Hd. cbn [Nat.eqb assert bind].
      apply Z.eqb_neq in Hk. now rewrite Hk.
  - intros byte rgb instances images image_masks im_h im_w b c h w Hs.
    assert (H299 : h mod 4 <> 0 ->
              add_bitmasks_from_boxes byte rgb instances images image_masks
                                      im_h im_w = Raise (AssertionError 299)).
    { intros H. unfold add_bitmasks_from_boxes, tsize. rewrite Hs.
      cbn [nth_error bind]. apply Nat.eqb_neq in H. now rewrite H. }
    assert (H300 : h mod 4 = 0 -> w mod 4 <> 0 ->
              add_bitmasks_from_boxes byte rgb instances images image_masks
                                      im_h im_w = Raise (AssertionError 300)).
    { intros H H'. unfold add_bitmasks_from_boxes, tsize. rewrite Hs.
      cbn [nth_error bind]. rewrite H. cbn [Nat.eqb assert bind].
      apply Nat.eqb_neq in H'. now rewrite H'. }
    assert (Hok : h mod 4 = 0 -> w mod 4 = 0 ->
              asserts_in (add_bitmasks_from_boxes byte rgb instances images
                            image_masks im_h im_w) [47; 48; 21; 22]).
    { intros H H'. unfold add_bitmasks_from_boxes, tsize. rewrite Hs.
      cbn [nth_error bind]. rewrite H. cbn [Nat.eqb assert bind].
      rewrite H'. cbn [Nat.eqb assert bind].
      repeat first
        [ apply asserts_in_mapM; intros ? _; apply add_bitmasks_image_asserts
        | asserts_step ]. }
    split; (split; [|try exact H299; try (intros [? ?]; now apply H300)]).
    + intros E Hh.
      destruct (Nat.eq_dec (w mod 4) 0) as [Hw|Hw].
      * apply (Hok Hh Hw) in E. simpl in E. lia.
      * rewrite (H300 Hh Hw) in E. discriminate.
    + intros E.
      destruct (Nat.eq_dec (h mod 4) 0) as [Hh|Hh].
      * split; [exact Hh|]. intros Hw.
        apply (Hok Hh Hw) in E. simpl in E. lia.
      * rewrite (H299 Hh) in E. discriminate.
Qed.



(** * Further properties of the code *)

(** ** The planes of the unfold, element by element *)

Lemma slice_get {A} (z : A) (axis : nat) (start stop : option Z) (step : Z)
      (t y : tensor A) (idx : list nat) :
  slice z axis start stop step t = Ok y ->
  in_range idx (size y) = true ->
  get z y idx
  = get z t (set_at axis
               (fst (slice_indices (nth axis (size t) 0) start stop step)
                + Z.to_nat step * nth axis idx 0) idx).
Proof.
  unfold slice. destruct (nth_error (size t) axis) as [len|] eqn:E; [|discriminate].
  rewrite (nth_error_nth _ _ 0 E).
  destruct (slice_indices len start stop step) as [lo cnt].
  intros [= <-] Hin. cbn [size init] in Hin. now rewrite get_init.
Qed.

Lemma get_reshape5 {A} (z : A) (y : tensor A) (n c m h w b ch t r q : nat) :
  size y = [n; c * m; h * w] ->
  b < n -> ch < c -> t < m -> r < h -> q < w ->
  get z (mkTensor [n; c; m; h; w] (elems y)) [b; ch; t; r; q]
  = get z y [b; ch * m + t; r * w + q].
Proof.
  intros Hy Hb Hch Ht Hr Hq. unfold get. cbn [size]. rewrite Hy.
  cbn [in_range].
  assert (H1 : ch * m + t < c * m) by nia.
  assert (H2 : r * w + q < h * w) by nia.
  repeat match goal with
         | |- context [(?a <? ?b)] =>
             let H := fresh in
             assert (H : (a <? b) = true) by (apply Nat.ltb_lt; assumption);
             rewrite H; clear H
         end.
  cbn [andb elems]. f_equal. cbn [offset numel fold_right]. nia.
Qed.

Lemma F_unfold_get {A} (z : A) (x : tensor A) (n c h w : nat) (k p d : Z) :
  size x = [n; c; h; w] ->
  (0 < c)%nat -> (0 < h)%nat -> (0 < w)%nat ->
  (0 < k)%Z -> (0 < d)%Z -> (2 * p = d * (k - 1))%Z ->
  exists y, F_unfold z x k p d = Ok y
            /\ size y = [n; c * Z.to_nat (k * k); h * w]%nat
            /\ forall b ch t r q,
                 b < n -> ch < c -> t < Z.to_nat (k * k) -> r < h -> q < w ->
                 get z y [b; ch * Z.to_nat (k * k) + t; r * w + q]
                 = let rr := (Z.of_nat r + Z.of_nat t / k * d - p)%Z in
                   let qq := (Z.of_nat q + Z.of_nat t mod k * d - p)%Z in
                   if inside h w (rr, qq)
                   then get z x [b; ch; Z.to_nat rr; Z.to_nat qq] else z.
Proof.
  intros Hx Hc Hh Hw Hk Hd Hp. unfold F_unfold. rewrite Hx.
  rewrite !unfold_out_same by exact Hp.
  replace ((k <=? 0) || (d <=? 0) || (p <? 0))%Z with false
    by (symmetry; rewrite !orb_false_iff; repeat split;
        [apply Z.leb_gt|apply Z.leb_gt|apply Z.ltb_ge]; nia).
  replace ((c =? 0) || (h =? 0) || (w =? 0))%nat with false
    by (symmetry; rewrite !orb_false_iff, !Nat.eqb_neq; lia).
  replace ((Z.of_nat h <? 1) || (Z.of_nat w <? 1))%Z with false
    by (symmetry; rewrite !orb_false_iff, !Z.ltb_ge; lia).
  rewrite !Nat2Z.id.
  set (kk := Z.to_nat (k * k)). set (kn := Z.to_nat k).
  assert (Hkk : kk = kn * kn) by (unfold kk, kn; rewrite Z2Nat.inj_mul; lia).
  assert (Hkn : 0 < kn) by (unfold kn; lia).
  eexists; split; [reflexivity|]. split; [reflexivity|].
  intros b ch t r q Hb Hch Ht Hr Hq.
  rewrite get_init.
  2:{ apply in_range3; [assumption| |]; nia. }
  assert (E1 : (ch * kk + t) / kk = ch).
  { rewrite Nat.div_add_l by lia. rewrite Nat.div_small by assumption. lia. }
  assert (E2 : (ch * kk + t) mod kk = t).
  { rewrite Nat.add_comm, Nat.Div0.mod_add. now apply Nat.mod_small. }
  assert (E3 : (ch * kk + t) mod kn = t mod kn).
  { rewrite Hkk. replace (ch * (kn * kn) + t) with (t + (ch * kn) * kn) by lia.
    apply Nat.Div0.mod_add. }
  assert (E4 : (r * w + q) / w = r).
  { rewrite Nat.div_add_l by lia. rewrite Nat.div_small by assumption. lia. }
  assert (E5 : (r * w + q) mod w = q).
  { rewrite Nat.add_comm, Nat.Div0.mod_add. now apply Nat.mod_small. }
  rewrite E1, E2, E3, E4, E5.
  assert (Hz : Z.of_nat kn = k) by (unfold kn; lia).
  rewrite Nat2Z.inj_div, Nat2Z.inj_mod, Hz.
  reflexivity.
Qed.

Lemma window_centre (k : Z) :
  (k mod 2 = 1)%Z -> (1 <= k)%Z ->
  (k * k / 2 = (k / 2) * k + k / 2)%Z /\ (0 <= k / 2 < k)%Z
  /\ (k * k = 2 * (k * k / 2) + 1)%Z.
Proof.
  intros Hodd Hk.
  assert (Hk' : (k = 2 * (k / 2) + 1)%Z) by (pose proof (Z.div_mod k 2); lia).
  set (m := (k / 2)%Z) in *.
  assert (Hm : (0 <= m)%Z) by lia.
  assert (E : (k * k = 1 + (m * k + m) * 2)%Z) by nia.
  assert (E' : (k * k / 2 = m * k + m)%Z).
  { rewrite E at 1. rewrite Z.div_add by lia. reflexivity. }
  repeat split; try lia. 
Qed.

(** The planes of [unfold_wo_center]'s output, element by element. *)
Lemma unfold_wo_center_get {A} (z : A) (x : tensor A)
        (n c h w : nat) (k d : Z) :
  size x = [n; c; h; w] ->
  0 < n -> 0 < c -> 0 < h -> 0 < w ->
  (k mod 2 = 1)%Z -> (1 <= k)%Z -> (1 <= d)%Z ->
  exists y, unfold_wo_center z x k d = Ok y
            /\ size y = [n; c; Z.to_nat (k * k - 1); h; w]
            /\ forall b ch j r q,
                 b < n -> ch < c -> j < Z.to_nat (k * k - 1) -> r < h -> q < w ->
                 get z y [b; ch; j; r; q]
                 = if inside h w (neighbour k d j r q)
                   then get z x [b; ch; Z.to_nat (fst (neighbour k d j r q));
                                 Z.to_nat (snd (neighbour k d j r q))]
                   else z.
Proof.
  intros Hx Hn Hc Hh Hw Hodd Hk Hd.
  unfold unfold_wo_center, dim, tsize. rewrite Hx.
  cbn [length Nat.eqb assert bind nth_error].
  rewrite Hodd. cbn [Z.eqb Pos.eqb assert bind].
  set (p := ((k + (d - 1) * (k - 1)) / 2)%Z).
  assert (Hp : (2 * p = d * (k - 1))%Z) by now apply same_padding.
  destruct (@F_unfold_get A z x n c h w k p d) as (u0 & -> & Hu0 & Hget);
    try assumption; try lia.
  cbn [bind]. rewrite (@reshape_infer A u0 n c _ h w Hu0) by assumption. cbn [bind].
  set (kk := Z.to_nat (k * k)) in *.
  set (u := mkTensor [n; c; kk; h; w] (elems u0)).
  destruct (window_centre Hodd Hk) as (Hs & Hm & Hs2).
  assert (Hkk : (k ^ 2 = k * k)%Z) by lia.
  rewrite Hkk.
  set (s := (k * k / 2)%Z) in *.
  assert (Hkz : Z.of_nat kk = (k * k)%Z) by (unfold kk; lia).
  assert (Hu : nth_error (size u) 2 = Some kk) by reflexivity.
  destruct (@slice_ok A z 2 None (Some s) 1%Z u _ Hu) as (a & Ea & Ha & _).
  destruct (@slice_ok A z 2 (Some (s + 1)%Z) None 1%Z u _ Hu) as (a' & Ea' & Ha' & _).
  rewrite Ea, Ea'. cbn [bind].
  pose proof (@slice_get A z 2 None (Some s) 1%Z u a) as Ga.
  pose proof (@slice_get A z 2 (Some (s + 1)%Z) None 1%Z u a') as Ga'.
  specialize (Ga) with (1 := Ea). specialize (Ga') with (1 := Ea').
  unfold slice_indices, slice_bound in Ha, Ha', Ga, Ga'.
  cbn [snd fst size u nth] in Ha, Ha', Ga, Ga'.
  rewrite Hkz in *.
  replace (s <? 0)%Z with false in Ha by (symmetry; apply Z.ltb_ge; lia).
  replace (s + 1 <? 0)%Z with false in Ha', Ga' by (symmetry; apply Z.ltb_ge; lia).
  rewrite Z.div_1_r in Ha, Ha'.
  assert (Eca : (if (0 <? Z.min s (k * k))%Z
                then Z.to_nat (Z.min s (k * k) - 0 + 1 - 1) else 0)
               = Z.to_nat s)
    by (destruct (Z.ltb_spec 0 (Z.min s (k * k))); lia).
  assert (Ecb : (if (Z.min (s + 1) (k * k) <? k * k)%Z
                then Z.to_nat (k * k - Z.min (s + 1) (k * k) + 1 - 1) else 0)
               = Z.to_nat s)
    by (destruct (Z.ltb_spec (Z.min (s + 1) (k * k)) (k * k)); lia).
  rewrite Eca in Ha. rewrite Ecb in Ha'.
  cbn [set_at] in Ha, Ha'.
  unfold cat, dim. rewrite Ha. cbn [length Nat.ltb Nat.leb negb forallb].
  rewrite Ha, Ha'. cbn [set_at]. rewrite same_shape_refl. cbn [andb].
  assert (Hs0 : (0 <= s)%Z) by nia.
  eexists; split; [reflexivity|]. split.
  { cbn [size init set_at map]. rewrite Ha, Ha'. cbn [nth list_sum].
    do 2 f_equal. f_equal. cbn [list_sum fold_right]. lia. }
  intros b ch j r q Hb Hch Hj Hr Hq.
  rewrite get_init.
  2:{ cbn [list_sum map fold_right]. rewrite Ha, Ha'.
      cbn [nth set_at in_range list_sum fold_right].
      rewrite !andb_true_iff, !Nat.ltb_lt. repeat split; try assumption. lia. }
  cbn [cat_get]. rewrite Ha, Ha'. cbn [nth set_at].
  assert (Hjs : j < Z.to_nat s + Z.to_nat s) by lia.
  assert (Gu : forall t, t < kk ->
             get z u [b; ch; t; r; q]
             = if inside h w (Z.of_nat r + Z.of_nat t / k * d - p,
                              Z.of_nat q + Z.of_nat t mod k * d - p)%Z
               then get z x [b; ch;
                             Z.to_nat (Z.of_nat r + Z.of_nat t / k * d - p);
                             Z.to_nat (Z.of_nat q + Z.of_nat t mod k * d - p)]
               else z).
  { intros t Ht. unfold u. rewrite (@get_reshape5 A z u0 n c kk h w) by assumption.
    now rewrite Hget. }
  assert (Hpm : (p = d * (k / 2))%Z).
  { assert (k = 2 * (k / 2) + 1)%Z by (pose proof (Z.div_mod k 2); lia). nia. }
  assert (Gn : forall v e, (v + e * d - p = v + d * (e - k / 2))%Z).
  { intros v e. rewrite Hpm. ring. }
  unfold neighbour. fold s.
  destruct (Nat.ltb_spec j (Z.to_nat s)) as [Hlt|Hge].
  - rewrite Ga.
    2:{ rewrite Ha. cbn [in_range].
        rewrite !andb_true_iff, !Nat.ltb_lt. repeat split; assumption. }
    cbn [nth set_at]. change (Z.to_nat 0) with 0. change (Z.to_nat 1) with 1.
    replace (0 + 1 * j) with j by lia.
    rewrite Gu by lia. rewrite !Gn. reflexivity.
  - destruct (Nat.ltb_spec (j - Z.to_nat s) (Z.to_nat s)) as [Hlt'|]; [|lia].
    rewrite Ga'.
    2:{ rewrite Ha'. cbn [in_range].
        rewrite !andb_true_iff, !Nat.ltb_lt. repeat split; assumption. }
    cbn [nth set_at]. change (Z.to_nat 1) with 1.
    replace (Z.to_nat (Z.min (s + 1) (k * k)) + 1 * (j - Z.to_nat s)) with (S j) by lia.
    rewrite Gu by lia. rewrite !Gn. reflexivity.
Qed.

(** No plane pairs a pixel with itself. *)
Lemma neighbour_not_centre (k d : Z) (j r q : nat) :
  (k mod 2 = 1)%Z -> (1 <= k)%Z -> (1 <= d)%Z ->
  neighbour k d j r q <> (Z.of_nat r, Z.of_nat q).
Proof.
  intros Hodd Hk Hd. destruct (window_centre Hodd Hk) as (Hs & Hm & Hs2).
  unfold neighbour. set (s := (k * k / 2)%Z) in *.
  set (t := Z.of_nat (if j <? Z.to_nat s then j else S j)).
  assert (Ht : t <> s).
  { unfold t. destruct (Nat.ltb_spec j (Z.to_nat s)); lia. }
  intros [= E1 E2].
  assert (E1' : (t / k = k / 2)%Z) by nia.
  assert (E2' : (t mod k = k / 2)%Z) by nia.
  pose proof (Z.div_mod t k). lia.
Qed.


(** ** The color similarity in closed form *)

Lemma get_unsqueeze00 {A} (z : A) (t : tensor A) (h w a b : nat) :
  size t = [h; w] ->
  get z (unsqueeze 0 (unsqueeze 0 t)) [0; 0; a; b] = get z t [a; b].
Proof.
  intros Ht. unfold get, unsqueeze. cbn [size elems insert_at]. rewrite Ht.
  cbn [in_range offset numel fold_right]. change (0 <? 1) with true.
  cbn [andb].
  destruct ((a <? h) && ((b <? w) && true)); [|reflexivity].
  f_equal; lia.
Qed.

(** The color similarity in terms of the image and its validity mask. *)
Lemma color_similarity_value (images image_masks : tensor R)
      (c h w : nat) (k d : Z) :
  size images = [1; c; h; w] -> size image_masks = [h; w] ->
  0 < c -> 0 < h -> 0 < w ->
  (k mod 2 = 1)%Z -> (1 <= k)%Z -> (1 <= d)%Z ->
  exists out,
    get_images_color_similarity images image_masks k d = Ok out
    /\ size out = [1; Z.to_nat (k * k - 1); h; w]
    /\ forall j r q, j < Z.to_nat (k * k - 1) -> r < h -> q < w ->
         let p := neighbour k d j r q in
         let nr := Z.to_nat (fst p) in
         let nq := Z.to_nat (snd p) in
         get 0%R out [0; j; r; q]
         = if inside h w p
           then (exp (- norm2 (map (fun ch =>
                                      (get 0%R images [0%nat; ch; r; q]
                                       - get 0%R images [0%nat; ch; nr; nq])%R)
                                   (seq 0 c)) * 0.5)
                 * get 0%R image_masks [nr; nq])%R
           else 0%R.
Proof.
  intros Himages Hmasks Hc Hh Hw Hodd Hk Hd.
  destruct (@color_similarity_run images image_masks c h w k d)
    as (ui & uw & wt & dist & out & Hui & _ & Huw & _ & _ & _ & _ & _ & _
        & Hout & Sout & _ & Gout & Gdist & Gwt); try assumption.
  destruct (@unfold_wo_center_get R 0%R images 1 c h w k d)
    as (ui' & Hui' & _ & Gui); try assumption; try lia.
  destruct (@unfold_wo_center_get R 0%R (unsqueeze 0 (unsqueeze 0 image_masks))
                                  1 1 h w k d)
    as (uw' & Huw' & _ & Guw); try assumption; try lia.
  { unfold unsqueeze; simpl. now rewrite Hmasks. }
  assert (ui' = ui) by congruence. assert (uw' = uw) by congruence. subst ui' uw'.
  exists out. split; [assumption|]. split; [assumption|].
  intros j r q Hj Hr Hq p nr nq.
  rewrite Gout by (apply Nat.ltb_lt in Hj, Hr, Hq; simpl; now rewrite Hj, Hr, Hq).
  rewrite Gdist, Gwt by assumption.
  rewrite Guw by (assumption || lia). fold p. fold nr. fold nq.
  destruct (inside h w p) eqn:Ein.
  - rewrite (@get_unsqueeze00 R 0%R image_masks h w) by assumption.
    do 5 f_equal.
    apply map_ext_in. intros ch Hch. apply in_seq in Hch.
    rewrite Gui by (assumption || lia). fold p. rewrite Ein. reflexivity.
  - apply Rmult_0_r.
Qed.
Lemma Rsum_squares_zero (l : list R) :
  Rsum (map (fun v => (v * v)%R) l) = 0%R -> Forall (fun v => v = 0%R) l.
Proof.
  induction l as [|v l IH]; cbn [map Rsum fold_right]; intros H; constructor.
  - assert (H1 : (0 <= v * v)%R) by nra.
    assert (H2 : (0 <= Rsum (map (fun v => v * v) l))%R).
    { clear. induction l as [|u l IH]; cbn [map Rsum fold_right]; [lra|].
      unfold Rsum in IH. nra. }
    unfold Rsum in H2. nra.
  - apply IH.
    assert (H1 : (0 <= v * v)%R) by nra.
    assert (H2 : (0 <= Rsum (map (fun v => v * v) l))%R).
    { clear. induction l as [|u l IH]; cbn [map Rsum fold_right]; [lra|].
      unfold Rsum in IH. nra. }
    unfold Rsum in *. nra.
Qed.

Lemma norm2_zero_iff (l : list R) :
  norm2 l = 0%R <-> Forall (fun v => v = 0%R) l.
Proof.
  unfold norm2. split.
  - intros H. apply Rsum_squares_zero.
    apply sqrt_eq_0; [|exact H].
    clear. induction l as [|u l IH]; cbn [map Rsum fold_right]; [lra|].
    unfold Rsum in IH. nra.
  - intros H.
    replace (Rsum (map (fun v => (v * v)%R) l)) with 0%R; [apply sqrt_0|].
    induction H as [|v l Hv _ IH]; cbn [map Rsum fold_right]; [reflexivity|].
    unfold Rsum in IH. rewrite <- IH, Hv. ring.
Qed.

Lemma norm2_swap {X} (f g : X -> R) (l : list X) :
  norm2 (map (fun x => (f x - g x)%R) l) = norm2 (map (fun x => (g x - f x)%R) l).
Proof.
  unfold norm2. f_equal. rewrite !map_map.
  apply Rsum_ext_in. intros x _. ring.
Qed.

Lemma inside_of_nat (h w r q : nat) :
  r < h -> q < w -> inside h w (Z.of_nat r, Z.of_nat q) = true.
Proof.
  intros Hr Hq. unfold inside. cbn [fst snd].
  rewrite !andb_true_iff, !Z.leb_le, !Z.ltb_lt. lia.
Qed.

Lemma inside_bounds (h w : nat) (p : Z * Z) :
  inside h w p = true ->
  (0 <= fst p)%Z /\ (0 <= snd p)%Z /\ Z.to_nat (fst p) < h /\ Z.to_nat (snd p) < w.
Proof.
  unfold inside. rewrite !andb_true_iff, !Z.leb_le, !Z.ltb_lt. lia.
Qed.

(** The neighbour relation is symmetric: seen from plane [j]'s
    neighbour, the pixel is the neighbour of the opposite plane. *)
Lemma neighbour_opposite (k d : Z) (j r q : nat) :
  (k mod 2 = 1)%Z -> (1 <= k)%Z -> (1 <= d)%Z ->
  j < Z.to_nat (k * k - 1) ->
  let p := neighbour k d j r q in
  (0 <= fst p)%Z -> (0 <= snd p)%Z ->
  neighbour k d (Z.to_nat (k * k - 1) - 1 - j)
            (Z.to_nat (fst p)) (Z.to_nat (snd p))
  = (Z.of_nat r, Z.of_nat q).
Proof.
  intros Hodd Hk Hd Hj p. destruct (window_centre Hodd Hk) as (Hs & Hm & Hs2).
  unfold p, neighbour. cbn [fst snd].
  set (s := (k * k / 2)%Z) in *.
  assert (Hs0 : (0 <= s)%Z) by nia.
  set (t := Z.of_nat (if j <? Z.to_nat s then j else S j)).
  set (t' := Z.of_nat (if Z.to_nat (k * k - 1) - 1 - j <? Z.to_nat s
                       then Z.to_nat (k * k - 1) - 1 - j
                       else S (Z.to_nat (k * k - 1) - 1 - j))).
  assert (Ht : (0 <= t < k * k)%Z).
  { unfold t. destruct (Nat.ltb_spec j (Z.to_nat s)); lia. }
  assert (Ht' : (t' = k * k - 1 - t)%Z).
  { unfold t, t'. destruct (Nat.ltb_spec j (Z.to_nat s));
      destruct (Nat.ltb_spec (Z.to_nat (k * k - 1) - 1 - j) (Z.to_nat s)); lia. }
  pose proof (Z.div_mod t k ltac:(lia)) as Hdm.
  pose proof (Z.mod_pos_bound t k ltac:(lia)) as Hmod.
  assert (Hdiv : (0 <= t / k < k)%Z).
  { split; [apply Z.div_pos; lia|apply Z.div_lt_upper_bound; lia]. }
  assert (E1 : (t' / k = k - 1 - t / k)%Z).
  { symmetry. apply (Z.div_unique t' k _ (k - 1 - t mod k)); [lia|]. rewrite Ht'. nia. }
  assert (E2 : (t' mod k = k - 1 - t mod k)%Z).
  { symmetry. apply (Z.mod_unique t' k (k - 1 - t / k)); [lia|]. rewrite Ht'. nia. }
  assert (Hk2 : (k = 2 * (k / 2) + 1)%Z) by (pose proof (Z.div_mod k 2); lia).
  intros H1 H2. rewrite !Z2Nat.id by assumption. rewrite E1, E2.
  f_equal; nia.
Qed.


(** ** The post-processor: labels, masks and malformed outputs *)

Lemma max_arg_spec (l : list R) :
  l <> [] ->
  snd (max_arg l) < length l
  /\ nth (snd (max_arg l)) l 0%R = fst (max_arg l)
  /\ (forall i, i < length l -> (nth i l 0 <= fst (max_arg l))%R)
  /\ (forall i, i < snd (max_arg l) -> (nth i l 0 < fst (max_arg l))%R).
Proof.
  induction l as [|v l IH]; [congruence|]. intros _.
  destruct l as [|v' l'].
  - cbn [max_arg fst snd length nth]. repeat split; try lia.
    intros [|i] Hi; [lra|simpl in Hi; lia].
  - specialize (IH ltac:(discriminate)).
    change (max_arg (v :: v' :: l'))
      with (let '(m, j) := max_arg (v' :: l') in
            if Rlt_dec v m then (m, S j) else (v, 0)).
    destruct (max_arg (v' :: l')) as [m j]. cbn [fst snd] in IH.
    destruct IH as (H1 & H2 & H3 & H4).
    destruct (Rlt_dec v m) as [Hlt|Hge]; cbn [fst snd].
    + repeat split.
      * simpl in *. lia.
      * exact H2.
      * intros [|i] Hi; [simpl; lra|]. apply H3. simpl in *. lia.
      * intros [|i] Hi; [simpl; lra|]. apply H4. lia.
    + repeat split.
      * simpl. lia.
      * intros [|i] Hi; [simpl; lra|].
        assert (nth i (v' :: l') 0 <= m)%R by (apply H3; simpl in *; lia).
        change (nth (S i) (v :: v' :: l') 0%R) with (nth i (v' :: l') 0%R). lra.
      * intros i Hi. lia.
Qed.



Lemma in_range4 (b ch r q n c h w : nat) :
  b < n -> ch < c -> r < h -> q < w ->
  in_range [b; ch; r; q] [n; c; h; w] = true.
Proof.
  intros Hb Hc Hr Hq. apply Nat.ltb_lt in Hb, Hc, Hr, Hq. simpl.
  now rewrite Hb, Hc, Hr, Hq.
Qed.




Lemma convex_in01 : convex in01.
Proof.
  intros a b t [? ?] [? ?] Ht. unfold in01.
  assert (0 <= (1 - t) * a)%R by (apply Rmult_le_pos; lra).
  assert (0 <= t * b)%R by (apply Rmult_le_pos; lra).
  assert (0 <= (1 - t) * (1 - a))%R by (apply Rmult_le_pos; lra).
  assert (0 <= t * (1 - b))%R by (apply Rmult_le_pos; lra).
  split; lra.
Qed.


Lemma best_label_spec (spi : tensor R) (n c i : nat) :
  size spi = [n; c] -> 0 < c ->
  let l := Z.to_nat (best_label spi i) in
  (0 <= best_label spi i < Z.of_nat c)%Z
  /\ get 0%R spi [i; l] = best_score spi i
  /\ (forall cl, cl < c -> (get 0%R spi [i; cl] <= best_score spi i)%R)
  /\ (forall cl, cl < l -> (get 0%R spi [i; cl] < best_score spi i)%R).
Proof.
  intros Hs Hc. unfold best_label, best_score. rewrite Hs. cbn [nth].
  set (f := fun j => get 0%R spi [i; j]).
  set (row := map f (seq 0 c)).
  assert (Hlen : length row = c) by (unfold row; now rewrite length_map, length_seq).
  assert (Hne : row <> []) by (intros E; rewrite E in Hlen; simpl in Hlen; lia).
  assert (Hnth : forall j, j < c -> nth j row 0%R = f j).
  { intros j Hj. unfold row.
    rewrite (nth_indep _ 0%R (f 0)) by (rewrite length_map, length_seq; lia).
    rewrite map_nth, seq_nth by assumption. reflexivity. }
  destruct (max_arg_spec Hne) as (H1 & H2 & H3 & H4).
  rewrite Hlen in H1, H3. cbn zeta. rewrite Nat2Z.id.
  split; [lia|]. split; [|split].
  - rewrite <- H2. symmetry. now apply Hnth.
  - intros cl Hcl. change (get 0%R spi [i; cl]) with (f cl).
    rewrite <- (Hnth cl Hcl). now apply H3.
  - intros cl Hcl. change (get 0%R spi [i; cl]) with (f cl).
    rewrite <- (Hnth cl) by lia. now apply H4.
Qed.

Lemma inference_image_malformed_run (cfg : config) (max_shape : nat * nat)
      (spi mpi : tensor R) (input : batched_input) (img_shape : nat * nat)
      (n n' c hm wm : nat) :
  size spi = [n; c] -> size mpi = [n'; hm; wm] ->
  (c = 0 \/ n' <> n) ->
  inference_image cfg max_shape spi mpi input img_shape = Raise IndexError.
Proof.
  intros Hs Hm Hbad. unfold inference_image.
  destruct (Nat.eq_dec c 0) as [->|Hc].
  - unfold max_last, dim. rewrite Hs. reflexivity.
  - destruct Hbad as [?|Hn]; [contradiction|].
    rewrite (@max_last_rows spi n c Hs) by lia. cbn [bind fst snd].
    set (values := init [n] (fun idx => best_score spi (hd 0 idx))).
    set (labels := init [n] (fun idx => best_label spi (hd 0 idx))).
    set (keep := gt values (cls_threshold cfg)).
    assert (Sk : size keep = [n]) by reflexivity.
    rewrite (@index_mask_ok R 0%R values keep n [] Sk eq_refl).
    rewrite (@index_mask_ok Z 0%Z labels keep n [] Sk eq_refl).
    cbn [bind]. unfold index_mask at 1. rewrite Sk, Hm.
    destruct (Nat.eqb_spec n n'); [congruence|reflexivity].
Qed.

(** The batch loop on sequences of any lengths. *)
Lemma inference_zip_run (cfg : config) (output : decoder_output)
      (batched_inputs : list batched_input) (max_shape : nat * nat)
      (image_sizes : list (nat * nat)) (b n c hm wm : nat) :
  size (out_pred_logits output) = [b; n; c] -> 0 < c ->
  size (out_pred_masks output) = [b; n; hm; wm] -> 0 < hm -> 0 < wm ->
  size (out_pred_scores output) = [b; n; 1] ->
  0 < fst max_shape -> 0 < snd max_shape ->
  Forall (fun s => 0 < fst s /\ 0 < snd s) image_sizes ->
  Forall (fun input => 0 < height input /\ 0 < width input) batched_inputs ->
  exists results,
    inference cfg output batched_inputs max_shape image_sizes = Ok results
    /\ length results
       = Nat.min b (Nat.min (length batched_inputs) (length image_sizes))
    /\ forall i r, nth_error results i = Some r ->
       exists input,
         nth_error batched_inputs i = Some input
         /\ image_size r = (height input, width input).
Proof.
  intros Hl Hc Hm Hhm Hwm Ho HH HW Fsz Fin.
  destruct (@combined_scores_ok output b n c Hl Ho)
    as (ps & Hps & Sps & _ & Fps & _).
  rewrite inference_unfold, Hps. cbn [bind].
  set (pm := tmap sigmoid (out_pred_masks output)).
  assert (Spm : size pm = [b; n; hm; wm]) by exact Hm.
  assert (Fpm : Forall in01 (elems pm)).
  { unfold pm. cbn [tmap elems]. rewrite Forall_map. apply Forall_forall.
    intros v _. apply sigmoid_in01. }
  set (items := combine (combine (combine (unbind0 0%R ps) (unbind0 0%R pm))
                                 batched_inputs) image_sizes).
  set (body := fun it : tensor R * tensor R * batched_input * (nat * nat) => _).
  assert (Hitem : forall i x, nth_error items i = Some x ->
            exists input r,
              nth_error batched_inputs i = Some input
              /\ body x = Ok r
              /\ image_size r = (height input, width input)).
  { intros i [[[spi mpi] input] shape] Hx. unfold items in Hx.
    rewrite !nth_error_combine in Hx. destruct Hx as [[[Hs Hp] Hi] Hz].
    apply nth_error_unbind0 in Hs as [_ ->]. apply nth_error_unbind0 in Hp as [_ ->].
    rewrite Forall_forall in Fsz, Fin.
    destruct (Fsz shape (nth_error_In _ _ Hz)) as [? ?].
    destruct (Fin input (nth_error_In _ _ Hi)) as [? ?].
    destruct (@inference_image_invariant cfg max_shape (image_slice ps i)
                (image_slice pm i) input shape n c hm wm)
      as (r & sc & Hr & ? & _); try assumption.
    - unfold image_slice. cbn [size init]. now rewrite Sps.
    - unfold image_slice. cbn [size init]. now rewrite Spm.
    - apply Forall_image_slice; [unfold in01; lra|exact Fps].
    - apply Forall_image_slice; [unfold in01; lra|exact Fpm].
    - exists input, r. repeat split; assumption. }
  destruct (@mapM_ok _ _ body items) as (results & Hres).
  { intros x Hx. apply In_nth_error in Hx as (i & Hx).
    destruct (Hitem i x Hx) as (_ & r & _ & Hr & _). now exists r. }
  exists results. split; [exact Hres|].
  destruct (mapM_nth _ _ Hres) as [Hlen Hnth]. split.
  - rewrite Hlen. unfold items. rewrite !length_combine.
    unfold unbind0. rewrite !length_map, !length_seq. unfold tlen.
    rewrite Sps, Spm. cbn [hd]. lia.
  - intros i r Hr.
    assert (Hi : i < length items).
    { rewrite <- Hlen. apply nth_error_Some. congruence. }
    destruct (nth_error items i) as [x|] eqn:Ex;
      [|apply nth_error_None in Ex; lia].
    destruct (Hitem i x Ex) as (input & r' & Hin & Hr' & Hsz).
    destruct (Hnth i x Ex) as (r'' & Hr'' & Hb).
    assert (r'' = r) by congruence. assert (r' = r) by congruence. subst r' r''.
    exists input. split; assumption.
Qed.


(** ** Targets: every box, every exception, the whole batch *)

(** The canvas drawn for one box, whatever its coordinates. *)
Lemma bitmask_from_box_total (h w : nat) (per_box : tensor Q) :
  size per_box = [4] ->
  exists canvas,
    bitmask_from_box h w per_box = Ok canvas
    /\ size canvas = [h; w] /\ wf canvas
    /\ forall r c, r < h -> c < w ->
         get 0%Q canvas [r; c] = 1%Q \/ get 0%Q canvas [r; c] = 0%Q.
Proof.
  intros Hb. unfold bitmask_from_box.
  rewrite !(@item_ok per_box 4) by (assumption || lia). cbn [bind].
  unfold setitem_slice2. change (size (full [h; w] 0%Q)) with [h; w].
  repeat match goal with
         | |- context [slice_indices ?l ?a ?b 1] =>
             destruct (slice_indices l a b 1) as [? ?]
         end.
  eexists. split; [reflexivity|]. split; [reflexivity|]. split; [apply wf_init|].
  intros r c Hr Hc. rewrite get_init by (now apply in_range2). cbv beta iota.
  match goal with |- (if ?b then _ else _) = _ \/ _ => destruct b end;
    [now left|right].
  unfold full. now rewrite get_init by (now apply in_range2).
Qed.

Lemma length_unbind0 {A} (z : A) (t : tensor A) :
  length (unbind0 z t) = tlen t.
Proof. unfold unbind0. now rewrite length_map, length_seq. Qed.

Lemma nth_error_unbind0_gen {A} (z : A) (t : tensor A) (i : nat) :
  i < tlen t ->
  nth_error (unbind0 z t) i
  = Some (init (tl (size t)) (fun idx => get z t (i :: idx))).
Proof.
  intros Hi. unfold unbind0. rewrite nth_error_map.
  rewrite (nth_error_nth' (seq 0 (tlen t)) 0) by (now rewrite length_seq).
  rewrite seq_nth by exact Hi. reflexivity.
Qed.

Lemma In_unbind0 {A} (z : A) (t x : tensor A) :
  In x (unbind0 z t) -> size x = tl (size t).
Proof.
  unfold unbind0. intros H. apply in_map_iff in H as (i & <- & _). reflexivity.
Qed.

(** The run of [prepare_target] on an image with at least one box. *)
Lemma prepare_target_total (inst : Instances) (gt_box : tensor Q)
      (cls : tensor Z) (sim : tensor R) (h w n : nat) :
  image_size inst = (h, w) ->
  gt_boxes inst = Some gt_box -> gt_classes inst = Some cls ->
  image_color_similarity inst = Some sim ->
  size gt_box = [n; 4] -> 0 < n ->
  exists bit_masks,
    prepare_target inst = Ok (mkTarget sim cls gt_box bit_masks)
    /\ size bit_masks = [n; h; w] /\ wf bit_masks.
Proof.
  intros Hsz Hb Hc Hs Sb Hn.
  assert (Hlen : tlen gt_box = n) by (unfold tlen; now rewrite Sb).
  destruct (@mapM_ok _ _ (bitmask_from_box h w) (unbind0 0%Q gt_box)) as (ms & Hms).
  { intros x Hx. apply In_unbind0 in Hx. rewrite Sb in Hx. cbn [tl] in Hx.
    destruct (@bitmask_from_box_total h w x Hx) as (cv & Hcv & _). now exists cv. }
  destruct (mapM_nth _ _ Hms) as [Lms Nms].
  assert (Lms' : length ms = n) by (now rewrite Lms, length_unbind0).
  assert (Fms : Forall (fun t => size t = [h; w]) ms).
  { apply Forall_forall. intros t Ht. apply In_nth_error in Ht as (i & Ht).
    assert (Hi : i < n).
    { rewrite <- Lms'. apply nth_error_Some. congruence. }
    destruct (nth_error (unbind0 0%Q gt_box) i) as [pb|] eqn:Epb.
    2:{ apply nth_error_None in Epb. rewrite length_unbind0 in Epb. lia. }
    destruct (Nms i pb Epb) as (y & Hy & Hy').
    assert (y = t) by congruence. subst y.
    apply nth_error_In, In_unbind0 in Epb. rewrite Sb in Epb. cbn [tl] in Epb.
    destruct (@bitmask_from_box_total h w pb Epb) as (cv & Hcv & Scv & _).
    congruence. }
  unfold prepare_target. rewrite Hc, Hs, Hsz, Hb. cbn [getattr bind].
  rewrite Hms. cbn [bind].
  destruct ms as [|m0 ms'] eqn:Ems; [simpl in Lms'; lia|].
  rewrite <- Ems in *.
  assert (Hstack : stack 0%Q ms
                   = Ok (init (n :: [h; w])
                           (fun idx => match idx with
                                       | i :: r => get 0%Q (nth i ms m0) r
                                       | [] => 0%Q
                                       end))).
  { unfold stack. rewrite Ems. rewrite <- Ems.
    assert (S0 : size m0 = [h; w]).
    { rewrite Ems in Fms. now inversion Fms. }
    rewrite S0, (forallb_same_shape Fms), Lms'. reflexivity. }
  rewrite Hstack. cbn [bind].
  set (stacked := init (n :: [h; w]) _).
  unfold BitMasks, dim. change (size stacked) with [n; h; w].
  cbn [length Nat.eqb assert bind].
  eexists. split; [reflexivity|]. split; [reflexivity|].
  apply wf_tmap, wf_init.
Qed.

Lemma mapM_raise {A B} (f : A -> res B) (l : list A) (i : nat) (x : A) (e : exn) :
  nth_error l i = Some x -> f x = Raise e ->
  (forall j y, j < i -> nth_error l j = Some y -> exists b, f y = Ok b) ->
  mapM f l = Raise e.
Proof.
  revert i. induction l as [|a l IH]; intros i Hx He Hbefore.
  - destruct i; discriminate.
  - destruct i as [|i]; cbn [nth_error] in Hx.
    + injection Hx as ->. cbn [mapM]. now rewrite He.
    + cbn [mapM]. destruct (Hbefore 0 a) as (b & ->); [lia|reflexivity|].
      cbn [bind]. rewrite (IH i Hx He); [reflexivity|].
      intros j y Hj Hy. apply (Hbefore (S j) y); [lia|exact Hy].
Qed.

Lemma mapM_raise_inv {A B} (f : A -> res B) (l : list A) (e : exn) :
  mapM f l = Raise e -> exists x, In x l /\ f x = Raise e.
Proof.
  induction l as [|a l IH]; cbn [mapM]; [discriminate|].
  destruct (f a) as [b|e'] eqn:Ea; cbn [bind].
  - destruct (mapM f l) as [bs|e''] eqn:El; cbn [bind]; [discriminate|].
    intros [= ->]. destruct (IH eq_refl) as (x & Hx & Hfx).
    exists x. split; [now right|assumption].
  - intros [= ->]. exists a. split; [now left|assumption].
Qed.

Lemma bitmask_from_box_raises (h w : nat) (per_box : tensor Q) (e : exn) :
  bitmask_from_box h w per_box = Raise e -> e = IndexError.
Proof.
  unfold bitmask_from_box, item, select, setitem_slice2.
  change (size (full [h; w] 0%Q)) with [h; w].
  destruct (nth_error (size per_box) 0) as [len|]; cbn [bind];
    [|congruence].
  repeat match goal with
         | |- context [if ?b then _ else _] => destruct b; cbn [bind]
         end; try congruence;
  repeat match goal with
         | |- context [slice_indices ?l ?a ?b 1] =>
             destruct (slice_indices l a b 1) as [? ?]
         end; discriminate.
Qed.

(** The exceptions of [prepare_target]. *)
Lemma prepare_target_raises (inst : Instances) (e : exn) :
  prepare_target inst = Raise e ->
  (e = AttributeError
   /\ (gt_classes inst = None \/ image_color_similarity inst = None
       \/ gt_boxes inst = None))
  \/ e = IndexError \/ e = RuntimeError \/ e = AssertionError 0.
Proof.
  unfold prepare_target.
  destruct (gt_classes inst) as [cls|]; cbn [getattr bind];
    [|intros [= <-]; left; tauto].
  destruct (image_color_similarity inst) as [sim|]; cbn [getattr bind];
    [|intros [= <-]; left; tauto].
  destruct (image_size inst) as [h w].
  destruct (gt_boxes inst) as [gt_box|]; cbn [getattr bind];
    [|intros [= <-]; left; tauto].
  destruct (mapM (bitmask_from_box h w) (unbind0 0%Q gt_box)) as [ms|e'] eqn:Ems;
    cbn [bind].
  - unfold stack. destruct ms as [|m0 ms']; cbn [bind]; [intros [= <-]; tauto|].
    destruct (forallb _ _); cbn [bind]; [|intros [= <-]; tauto].
    unfold BitMasks, assert. destruct (dim _ =? 3); cbn [bind]; [discriminate|].
    intros [= <-]. tauto.
  - intros [= <-]. apply mapM_raise_inv in Ems as (x & _ & Hx).
    apply bitmask_from_box_raises in Hx. tauto.
Qed.

Lemma cat_get_repeat {A} (z : A) (t : tensor A) (rest : list nat) (n k : nat)
      (idx : list nat) :
  size t = 1 :: rest -> k < n ->
  cat_get z 0 (repeat t n) (k :: idx) = get z t (0 :: idx).
Proof.
  intros Ht. revert k. induction n as [|n IH]; intros k Hk; [lia|].
  cbn [repeat cat_get]. rewrite Ht. cbn [nth set_at].
  destruct k as [|k].
  - reflexivity.
  - change (S k <? 1) with false. cbv iota.
    replace (S k - 1) with k by lia. apply IH. lia.
Qed.

(** [torch.cat] of [n] copies of a tensor with one leading row. *)
Lemma cat_repeat {A} (z : A) (t : tensor A) (rest : list nat) (n : nat) :
  size t = 1 :: rest -> 0 < n ->
  exists y, cat z (repeat t n) 0 = Ok y
            /\ size y = n :: rest /\ wf y
            /\ forall k idx, k < n -> in_range idx rest = true ->
                 get z y (k :: idx) = get z t (0 :: idx).
Proof.
  intros Ht Hn. destruct n as [|n]; [lia|].
  unfold cat. cbn [repeat]. unfold dim. rewrite Ht.
  cbn [length Nat.ltb Nat.leb negb].
  assert (Hall : forallb (fun t' => same_shape (set_at 0 0 (size t'))
                                               (set_at 0 0 (1 :: rest)))
                         (t :: repeat t n) = true).
  { apply forallb_forall. intros t' Hin.
    assert (t' = t).
    { destruct Hin as [->|Hin]; [reflexivity|]. now apply repeat_spec in Hin. }
    subst t'. rewrite Ht. apply same_shape_refl. }
  rewrite Hall.
  assert (Hsum : list_sum (map (fun t' => nth 0 (size t') 0) (t :: repeat t n))
                 = S n).
  { change (t :: repeat t n) with (repeat t (S n)).
    generalize (S n). intros m. induction m as [|m IH]; [reflexivity|].
    cbn [repeat map list_sum fold_right]. unfold list_sum in IH. rewrite IH, Ht.
    reflexivity. }
  rewrite Hsum. cbn [set_at].
  eexists. split; [reflexivity|]. split; [reflexivity|]. split; [apply wf_init|].
  intros k idx Hk Hidx.
  rewrite get_init.
  2:{ cbn [in_range]. apply Nat.ltb_lt in Hk. now rewrite Hk, Hidx. }
  change (t :: repeat t n) with (repeat t (S n)).
  now apply (@cat_get_repeat A z t rest).
Qed.

(** The instance that [add_bitmasks_from_boxes] leaves for image
    [im_i]: untouched without boxes, and with one copy of the image's
    color-similarity map per box otherwise. *)
Lemma add_bitmasks_image_attaches (byte : R -> R) (rgb : R * R * R -> R * R * R)
      (ds ms : tensor R) (im_i : nat) (inst : Instances) (bx : tensor Q)
      (b h w : nat) :
  size ds = [b; 3; h; w] -> 0 < h -> 0 < w -> size ms = [b; h; w] ->
  im_i < b -> gt_boxes inst = Some bx ->
  exists inst',
    add_bitmasks_image byte rgb ds ms im_i inst = Ok inst'
    /\ image_size inst' = image_size inst
    /\ gt_boxes inst' = gt_boxes inst /\ gt_classes inst' = gt_classes inst
    /\ scores inst' = scores inst /\ pred_classes inst' = pred_classes inst
    /\ pred_masks inst' = pred_masks inst
    /\ (tlen bx = 0 -> inst' = inst)
    /\ (0 < tlen bx ->
        exists sim,
          image_color_similarity inst' = Some sim
          /\ size sim = [tlen bx; 8; h; w]
          /\ forall k j r q, k < tlen bx -> j < 8 -> r < h -> q < w ->
               get 0%R sim [k; j; r; q] = get 0%R sim [0; j; r; q]).
Proof.
  intros Sd Hh Hw Sm Hi Hbx.
  destruct (@add_bitmasks_image_ok byte rgb ds ms im_i inst b h w Sd Hh Hw Sm Hi)
    as (ics & Sics & ->).
  unfold Instances_len. rewrite Hbx. cbn [bind].
  destruct (Nat.ltb_spec 0 (tlen bx)) as [Hpos|Hzero].
  - destruct (@cat_repeat R 0%R ics [8; h; w] (tlen bx) Sics Hpos)
      as (rep & -> & Srep & _ & Grep).
    cbn [bind]. eexists. split; [reflexivity|].
    do 6 (split; [first [reflexivity|exact Hbx]|]). split; [lia|].
    intros _. exists rep. split; [reflexivity|]. split; [exact Srep|].
    intros k j r q Hk Hj Hr Hq.
    rewrite !Grep by (assumption || lia || now apply in_range3). reflexivity.
  - exists inst. do 7 (split; [first [reflexivity|exact Hbx]|]).
    split; [reflexivity|lia].
Qed.

Lemma nth_error_combine_seq {A} (l : list A) (i : nat) (x : A) :
  nth_error l i = Some x ->
  nth_error (combine (seq 0 (length l)) l) i = Some (i, x).
Proof.
  intros Hx. apply nth_error_combine. split; [|exact Hx].
  assert (Hi : i < length l) by (apply nth_error_Some; congruence).
  rewrite (nth_error_nth' _ 0) by (now rewrite length_seq).
  now rewrite seq_nth.
Qed.

Lemma nth_error_combine_seq_inv {A} (l : list A) (i k : nat) (x : A) :
  nth_error (combine (seq 0 (length l)) l) i = Some (k, x) ->
  k = i /\ nth_error l i = Some x.
Proof.
  intros H. apply nth_error_combine in H as [Hk Hx]. split; [|exact Hx].
  assert (Hi : i < length l) by (apply nth_error_Some; congruence).
  rewrite (nth_error_nth' _ 0) in Hk by (now rewrite length_seq).
  rewrite seq_nth in Hk by assumption. injection Hk as <-. reflexivity.
Qed.

(** The run of [add_bitmasks_from_boxes] on a well-formed batch. *)
Lemma add_bitmasks_from_boxes_ok (byte : R -> R) (rgb : R * R * R -> R * R * R)
      (instances : list Instances) (images image_masks : tensor R)
      (im_h im_w b h w : nat) :
  size images = [b; 3; 4 * h; 4 * w] -> size image_masks = [b; 4 * h; 4 * w] ->
  0 < h -> 0 < w -> length instances <= b ->
  Forall (fun inst => gt_boxes inst <> None) instances ->
  exists out,
    add_bitmasks_from_boxes byte rgb instances images image_masks im_h im_w
    = Ok out
    /\ length out = length instances
    /\ forall i inst, nth_error instances i = Some inst ->
         exists inst',
           nth_error out i = Some inst'
           /\ image_size inst' = image_size inst
           /\ gt_boxes inst' = gt_boxes inst /\ gt_classes inst' = gt_classes inst
           /\ scores inst' = scores inst /\ pred_classes inst' = pred_classes inst
           /\ pred_masks inst' = pred_masks inst
           /\ forall bx, gt_boxes inst = Some bx ->
                (tlen bx = 0 -> inst' = inst)
                /\ (0 < tlen bx ->
                    exists sim,
                      image_color_similarity inst' = Some sim
                      /\ size sim = [tlen bx; 8; h; w]
                      /\ forall k j r q, k < tlen bx -> j < 8 -> r < h -> q < w ->
                           get 0%R sim [k; j; r; q] = get 0%R sim [0; j; r; q]).
Proof.
  intros Si Sm Hh Hw Hlen Hall.
  destruct (@add_bitmasks_from_boxes_run byte rgb instances images image_masks
              im_h im_w b h w Si Sm Hh Hw) as (ds & ms & Sds & Sms & ->).
  set (body := fun it : nat * Instances => _).
  set (items := combine _ _).
  assert (Hitem : forall i inst, nth_error instances i = Some inst ->
            exists bx, gt_boxes inst = Some bx /\ i < b).
  { intros i inst Hi. rewrite Forall_forall in Hall.
    specialize (Hall inst (nth_error_In _ _ Hi)).
    destruct (gt_boxes inst) as [bx|]; [|congruence].
    exists bx. split; [reflexivity|].
    assert (i < length instances) by (apply nth_error_Some; congruence). lia. }
  destruct (@mapM_ok _ _ body items) as (out & Hout).
  { intros [k inst] Hx. apply In_nth_error in Hx as (i & Hx).
    apply nth_error_combine_seq_inv in Hx as [-> Hx].
    destruct (Hitem i inst Hx) as (bx & Hbx & Hi).
    destruct (@add_bitmasks_image_attaches byte rgb ds ms i inst bx b h w
                Sds Hh Hw Sms Hi Hbx) as (inst' & Hrun & _).
    now exists inst'. }
  exists out. split; [exact Hout|].
  destruct (mapM_nth _ _ Hout) as [Lout Nout]. split.
  - rewrite Lout. unfold items. rewrite length_combine, length_seq. lia.
  - intros i inst Hinst.
    destruct (Nout i (i, inst) (nth_error_combine_seq _ _ Hinst))
      as (inst' & Hnth & Hrun).
    destruct (Hitem i inst Hinst) as (bx & Hbx & Hi).
    destruct (@add_bitmasks_image_attaches byte rgb ds ms i inst bx b h w
                Sds Hh Hw Sms Hi Hbx)
      as (inst'' & Hrun' & H1 & H2 & H3 & H4 & H5 & H6 & H7 & H8).
    unfold body in Hrun. cbn [fst snd] in Hrun.
    assert (inst'' = inst') by congruence. subst inst''.
    exists inst'. do 7 (split; [assumption|]).
    intros bx' Hbx'. assert (bx' = bx) by congruence. subst bx'.
    split; assumption.
Qed.

(** The training branch on a batch where every image has boxes. *)
Lemma training_targets_run (byte : R -> R) (rgb : R * R * R -> R * R * R)
      (instances : list Instances) (images image_masks : tensor R)
      (b h w : nat) :
  size images = [b; 3; 4 * h; 4 * w] -> size image_masks = [b; 4 * h; 4 * w] ->
  0 < h -> 0 < w -> length instances <= b ->
  Forall (fun inst =>
          exists bx cls n,
            gt_boxes inst = Some bx /\ gt_classes inst = Some cls
            /\ size bx = [n; 4] /\ 0 < n) instances ->
  exists targets,
    training_targets byte rgb instances images image_masks = Ok targets
    /\ length targets = length instances
    /\ forall i inst, nth_error instances i = Some inst ->
       exists t,
         nth_error targets i = Some t
         /\ gt_classes inst = Some (labels t)
         /\ gt_boxes inst = Some (boxes t)
         /\ size (color_sim t) = [tlen (boxes t); 8; h; w]
         /\ size (masks t)
            = [tlen (boxes t); fst (image_size inst); snd (image_size inst)].
Proof.
  intros Si Sm Hh Hw Hlen Hall.
  unfold training_targets, tsize. rewrite Si. cbn [nth_error bind].
  destruct (@add_bitmasks_from_boxes_ok byte rgb instances images image_masks
              (4 * h) (4 * w) b h w Si Sm Hh Hw Hlen)
    as (out & -> & Lout & Gout).
  { eapply Forall_impl; [|exact Hall].
    intros inst (bx & _ & _ & -> & _). discriminate. }
  cbn [bind]. unfold prepare_targets.
  rewrite Forall_forall in Hall.
  assert (Hitem : forall i inst', nth_error out i = Some inst' ->
            exists inst t,
              nth_error instances i = Some inst
              /\ prepare_target inst' = Ok t
              /\ gt_classes inst = Some (labels t)
              /\ gt_boxes inst = Some (boxes t)
              /\ size (color_sim t) = [tlen (boxes t); 8; h; w]
              /\ size (masks t)
                 = [tlen (boxes t); fst (image_size inst);
                    snd (image_size inst)]).
  { intros i inst' Hi.
    assert (Hlt : i < length instances).
    { rewrite <- Lout. apply nth_error_Some. congruence. }
    destruct (nth_error instances i) as [inst|] eqn:Einst;
      [|apply nth_error_None in Einst; lia].
    destruct (Hall inst (nth_error_In _ _ Einst)) as (bx & cls & n & Hbx & Hcls & Sbx & Hn).
    destruct (Gout i inst Einst)
      as (inst'' & Hnth & Hsz & Hb' & Hc' & _ & _ & _ & Hsim).
    assert (inst'' = inst') by congruence. subst inst''.
    destruct (Hsim bx Hbx) as [_ Hpos].
    assert (Hlenbx : tlen bx = n) by (unfold tlen; now rewrite Sbx).
    destruct Hpos as (sim & Hs & Ssim & _); [lia|].
    destruct (image_size inst) as [ih iw] eqn:Eis.
    destruct (@prepare_target_total inst' bx cls sim ih iw n)
      as (bm & Hrun & Sbm & _); try assumption; try congruence.
    exists inst. eexists. split; [reflexivity|]. split; [exact Hrun|].
    cbn [labels boxes color_sim masks]. rewrite Eis. cbn [fst snd].
    rewrite Hlenbx in *.
    split; [assumption|]. split; [assumption|]. split; assumption. }
  destruct (@mapM_ok _ _ prepare_target out) as (targets & Htargets).
  { intros x Hx. apply In_nth_error in Hx as (i & Hx).
    destruct (Hitem i x Hx) as (_ & t & _ & Ht & _). now exists t. }
  exists targets. split; [exact Htargets|].
  destruct (mapM_nth _ _ Htargets) as [Lt Nt]. split; [congruence|].
  intros i inst Hinst.
  destruct (Gout i inst Hinst) as (inst' & Hnth & _).
  destruct (Nt i inst' Hnth) as (t & Ht & Hrun).
  destruct (Hitem i inst' Hnth) as (inst0 & t' & Hinst0 & Hrun' & H1 & H2 & H3 & H4).
  assert (inst0 = inst) by congruence. assert (t' = t) by congruence. subst inst0 t'.
  exists t. repeat split; assumption.
Qed.


(** ** Normalisation and batching *)

Lemma view311_spec (values : list R) :
  (length values = 3 -> view311 values = Ok (mkTensor [3; 1; 1] values))
  /\ (length values <> 3 -> view311 values = Raise RuntimeError).
Proof.
  unfold view311, reshape.
  change (existsb (fun s => (s <? -1)%Z) [3; 1; 1]%Z) with false.
  change (length (filter (fun s => (s =? -1)%Z) [3; 1; 1]%Z)) with 0.
  change (numel (map Z.to_nat
                     (filter (fun s => negb (s =? -1)%Z) [3; 1; 1]%Z))) with 3.
  change (map Z.to_nat [3; 1; 1]%Z) with [3; 1; 1].
  cbn [size elems numel fold_right]. rewrite Nat.mul_1_r.
  split; intros H.
  - rewrite H. reflexivity.
  - destruct (Nat.eqb_spec 3 (length values)); [lia|reflexivity].
Qed.

Lemma broadcast_channel (c h w : nat) :
  broadcast_shapes [c; h; w] [3; 1; 1]
  = if ((c =? 3) || (c =? 1))%nat then Some [3; h; w] else None.
Proof.
  unfold broadcast_shapes. cbn [rev app broadcast_rev].
  destruct (Nat.eqb_spec c 3) as [->|H3]; cbn [orb].
  - destruct (Nat.eqb_spec w 1) as [->|?]; destruct (Nat.eqb_spec h 1) as [->|?];
      reflexivity.
  - destruct (Nat.eqb_spec c 1) as [->|H1].
    + destruct (Nat.eqb_spec w 1) as [->|?]; destruct (Nat.eqb_spec h 1) as [->|?];
        reflexivity.
    + change (3 =? 1) with false. cbv iota. reflexivity.
Qed.

Lemma bcast_index3 (c h w ch r q : nat) :
  r < h -> q < w ->
  bcast_index [c; h; w] [ch; r; q] = [if c =? 1 then 0 else ch; r; q].
Proof.
  intros Hr Hq. unfold bcast_index. cbn [length Nat.sub skipn bcast_zip].
  destruct (Nat.eqb_spec h 1); destruct (Nat.eqb_spec w 1);
    repeat f_equal; lia.
Qed.

Lemma get_channel (values : list R) (ch : nat) :
  length values = 3 -> ch < 3 ->
  get 0%R (mkTensor [3; 1; 1] values) [ch; 0; 0] = nth ch values 0%R.
Proof.
  intros _ Hch. unfold get. cbn [size elems in_range offset numel fold_right].
  apply Nat.ltb_lt in Hch. rewrite Hch. change (0 <? 1) with true. cbn [andb].
  f_equal. lia.
Qed.

(** A binary operator between an image (c, h, w) and a per-channel
    buffer (3, 1, 1). *)
Lemma bop_channel (f : R -> R -> R) (a : tensor R) (values : list R)
      (c h w : nat) :
  size a = [c; h; w] -> length values = 3 ->
  (c <> 3 -> c <> 1 ->
   bop 0%R 0%R f a (mkTensor [3; 1; 1] values) = Raise RuntimeError)
  /\ (c = 3 \/ c = 1 ->
      exists out,
        bop 0%R 0%R f a (mkTensor [3; 1; 1] values) = Ok out
        /\ size out = [3; h; w] /\ wf out
        /\ forall ch r q, ch < 3 -> r < h -> q < w ->
             get 0%R out [ch; r; q]
             = f (get 0%R a [if c =? 1 then 0 else ch; r; q])
                 (nth ch values 0%R)).
Proof.
  intros Sa Hl. unfold bop. cbn [size]. rewrite Sa, broadcast_channel. split.
  - intros H3 H1. apply Nat.eqb_neq in H3, H1. now rewrite H3, H1.
  - intros Hc.
    assert (E : ((c =? 3) || (c =? 1)) = true).
    { destruct Hc as [->| ->]; reflexivity. }
    rewrite E. eexists. split; [reflexivity|]. split; [reflexivity|].
    split; [apply wf_init|].
    intros ch r q Hch Hr Hq.
    rewrite get_init by (now apply in_range3).
    rewrite bcast_index3 by assumption. f_equal.
    assert (Eb : bcast_index [3; 1; 1] [ch; r; q] = [ch; 0; 0]) by reflexivity.
    rewrite Eb. now apply get_channel.
Qed.

(** The normalisation of one image. *)
Lemma normalizer_run (mean std : list R) (image : tensor R) (c h w : nat) :
  length mean = 3 -> length std = 3 -> size image = [c; h; w] ->
  let self := mkBuffers (mkTensor [3; 1; 1] mean) (mkTensor [3; 1; 1] std) in
  (c <> 3 -> c <> 1 -> normalizer self image = Raise RuntimeError)
  /\ (c = 3 \/ c = 1 ->
      exists out,
        normalizer self image = Ok out
        /\ size out = [3; h; w] /\ wf out
        /\ forall ch r q, ch < 3 -> r < h -> q < w ->
             get 0%R out [ch; r; q]
             = ((get 0%R image [(if c =? 1 then 0 else ch)%nat; r; q]
                 - nth ch mean 0) / nth ch std 0)%R).
Proof.
  intros Hm Hs Si self. unfold normalizer, self. cbn [pixel_mean pixel_std].
  destruct (@bop_channel Rminus image mean c h w Si Hm) as [Hbad Hgood]. split.
  - intros H3 H1. now rewrite Hbad.
  - intros Hc. destruct (Hgood Hc) as (centred & -> & Sc & _ & Gc). cbn [bind].
    destruct (@bop_channel Rdiv centred std 3 h w Sc Hs) as [_ Hgood'].
    destruct Hgood' as (out & -> & So & Wo & Go); [now left|].
    exists out. split; [reflexivity|]. split; [exact So|]. split; [exact Wo|].
    intros ch r q Hch Hr Hq. rewrite Go by assumption.
    change (3 =? 1) with false. cbv iota. now rewrite Gc.
Qed.

Lemma round_up_spec (stride n : nat) :
  0 < stride ->
  round_up stride n mod stride = 0
  /\ n <= round_up stride n < n + stride.
Proof.
  intros Hs. unfold round_up. split.
  - apply Nat.Div0.mod_mul.
  - pose proof (Nat.div_mod_eq (n + (stride - 1)) stride) as E.
    pose proof (Nat.mod_upper_bound (n + (stride - 1)) stride) as B.
    nia.
Qed.

Lemma list_max_ge (l : list nat) (x : nat) : In x l -> x <= list_max l.
Proof.
  intros H. pose proof (list_max_le l (list_max l)) as [E _].
  specialize (E (Nat.le_refl _)). rewrite Forall_forall in E. now apply E.
Qed.

Lemma Forall2_nth_l {X Y} (P : X -> Y -> Prop) (l1 : list X) (l2 : list Y)
      (i : nat) (a : X) :
  Forall2 P l1 l2 -> nth_error l1 i = Some a ->
  exists b, nth_error l2 i = Some b /\ P a b.
Proof.
  intros H. revert i. induction H as [|x y l1 l2 Hxy _ IH]; intros i Hi.
  - destruct i; discriminate.
  - destruct i as [|i]; cbn [nth_error] in *.
    + injection Hi as <-. now exists y.
    + now apply IH.
Qed.

Lemma lead_app (t : tensor R) (ld : list nat) (h w : nat) :
  size t = (ld ++ [h; w])%list -> lead t = ld /\ last2 t = Ok (h, w).
Proof.
  intros H. unfold lead, last2. rewrite H, rev_app_distr. cbn [rev app skipn].
  now rewrite rev_involutive.
Qed.

Lemma in_range_app (idx ld a b : list nat) :
  length idx = length ld ->
  in_range (idx ++ a) (ld ++ b) = in_range idx ld && in_range a b.
Proof.
  revert ld. induction idx as [|i idx IH]; intros [|n ld] Hl;
    try discriminate; cbn [app in_range].
  - reflexivity.
  - rewrite IH by (simpl in Hl; lia). now rewrite andb_assoc.
Qed.

(** The run of [ImageList.from_tensors] on images that differ in their
    last two dimensions only. *)
Lemma from_tensors_run (tensors : list (tensor R)) (ld : list nat)
      (sizes : list (nat * nat)) (stride : nat) :
  tensors <> [] -> 1 < stride ->
  Forall2 (fun t s => size t = (ld ++ [fst s; snd s])%list) tensors sizes ->
  let H := round_up stride (list_max (map fst sizes)) in
  let W := round_up stride (list_max (map snd sizes)) in
  exists batch,
    from_tensors tensors stride = Ok (mkImageList batch sizes)
    /\ size batch = (length tensors :: ld ++ [H; W])%list
    /\ wf batch
    /\ forall i t idx r q,
         nth_error tensors i = Some t -> in_range idx ld = true ->
         r < H -> q < W ->
         get 0%R batch (i :: idx ++ [r; q])
         = if in_range [r; q] [fst (nth i sizes (0, 0)); snd (nth i sizes (0, 0))]
           then get 0%R t (idx ++ [r; q]) else 0%R.
Proof.
  intros Hne Hstride Hall H W. unfold from_tensors.
  destruct tensors as [|t0 rest] eqn:Ets; [congruence|]. rewrite <- Ets in *.
  assert (Hlen : (0 <? length tensors) = true) by (rewrite Ets; reflexivity).
  rewrite Hlen. cbn [assert bind].
  assert (Hhd : hd (mkTensor [] []) tensors = t0) by (now rewrite Ets).
  rewrite Hhd.
  assert (Hlead : forall t, In t tensors -> lead t = ld).
  { intros t Hin. apply In_nth_error in Hin as (i & Hi).
    destruct (@Forall2_nth_l _ _ _ _ _ _ _ Hall Hi) as (s & _ & Hs).
    now apply lead_app in Hs. }
  assert (Hl0 : lead t0 = ld) by (apply Hlead; rewrite Ets; now left).
  assert (Hsame : forallb (fun t => same_shape (lead t) (lead t0)) tensors = true).
  { apply forallb_forall. intros t Hin. rewrite (Hlead t Hin), Hl0.
    apply same_shape_refl. }
  rewrite Hsame. cbn [assert bind].
  assert (Hsizes : mapM last2 tensors = Ok sizes).
  { clear -Hall. induction Hall as [|t s ts ss Hs _ IH]; [reflexivity|].
    cbn [mapM]. destruct (@lead_app _ _ _ _ Hs) as [_ ->]. cbn [bind].
    rewrite IH. cbn [bind]. now destruct s. }
  rewrite Hsizes. cbn [bind].
  assert (Hs1 : (1 <? stride) = true) by (now apply Nat.ltb_lt).
  rewrite Hs1, Hl0. fold H W.
  eexists. split; [reflexivity|]. split; [reflexivity|]. split; [apply wf_init|].
  intros i t idx r q Hi Hidx Hr Hq.
  assert (Hil : i < length tensors) by (apply nth_error_Some; congruence).
  assert (Hlidx : length idx = length ld) by (now apply in_range_length).
  rewrite get_init.
  2:{ cbn [in_range]. apply Nat.ltb_lt in Hil. rewrite Hil. cbn [andb].
      rewrite in_range_app by assumption. rewrite Hidx.
      now apply in_range2. }
  rewrite Hi.
  destruct (@Forall2_nth_l _ _ _ _ _ _ _ Hall Hi) as (s & Hs & Hsz).
  rewrite (nth_error_nth _ _ (0, 0) Hs). rewrite Hsz.
  rewrite in_range_app by assumption. rewrite Hidx. reflexivity.
Qed.

Lemma mapM_Forall2 {X Y} (f : X -> res Y) (P : X -> Y -> Prop) (l : list X) :
  (forall x, In x l -> exists y, f x = Ok y /\ P x y) ->
  exists ys, mapM f l = Ok ys /\ Forall2 P l ys.
Proof.
  induction l as [|a l IH]; intros H.
  - exists []. split; [reflexivity|constructor].
  - destruct (H a (or_introl eq_refl)) as (y & Hy & Py).
    destruct IH as (ys & Hys & Pys); [intros x Hx; apply H; now right|].
    exists (y :: ys). cbn [mapM]. rewrite Hy. cbn [bind]. rewrite Hys.
    split; [reflexivity|now constructor].
Qed.

Lemma Forall2_nth_r {X Y} (P : X -> Y -> Prop) (l1 : list X) (l2 : list Y)
      (i : nat) (b : Y) :
  Forall2 P l1 l2 -> nth_error l2 i = Some b ->
  exists a, nth_error l1 i = Some a /\ P a b.
Proof.
  intros H. revert i. induction H as [|x y l1 l2 Hxy _ IH]; intros i Hi.
  - destruct i; discriminate.
  - destruct i as [|i]; cbn [nth_error] in *.
    + injection Hi as <-. now exists x.
    + now apply IH.
Qed.

(** The run of [preprocess_inputs] on a non-empty batch of
    three-channel images. *)
Lemma preprocess_inputs_run (mean std : list R)
      (batched_inputs : list model_input) (sizes : list (nat * nat)) :
  length mean = 3 -> length std = 3 -> batched_inputs <> [] ->
  Forall2 (fun x s => size (image x) = [3; fst s; snd s]) batched_inputs sizes ->
  let self := mkBuffers (mkTensor [3; 1; 1] mean) (mkTensor [3; 1; 1] std) in
  let H := round_up 32 (list_max (map fst sizes)) in
  let W := round_up 32 (list_max (map snd sizes)) in
  exists batch,
    preprocess_inputs self batched_inputs = Ok (mkImageList batch sizes)
    /\ size batch = [length batched_inputs; 3; H; W]
    /\ wf batch
    /\ forall i x ch r q,
         nth_error batched_inputs i = Some x -> ch < 3 -> r < H -> q < W ->
         get 0%R batch [i; ch; r; q]
         = if ((r <? fst (nth i sizes (0, 0))) && (q <? snd (nth i sizes (0, 0))))
           then ((get 0%R (image x) [ch; r; q] - nth ch mean 0) / nth ch std 0)%R
           else 0%R.
Proof.
  intros Hm Hs Hne Hall self H W. unfold preprocess_inputs.
  set (post := fun (img out : tensor R) =>
                 size out = size img
                 /\ forall ch r q, in_range [ch; r; q] (size img) = true ->
                      get 0%R out [ch; r; q]
                      = ((get 0%R img [ch; r; q] - nth ch mean 0)
                         / nth ch std 0)%R).
  destruct (@mapM_Forall2 _ _ (normalizer self) post (map image batched_inputs))
    as (normed & Hnormed & Fnormed).
  { intros img Hin. apply in_map_iff in Hin as (x & <- & Hx).
    apply In_nth_error in Hx as (i & Hi).
    destruct (@Forall2_nth_l _ _ _ _ _ _ _ Hall Hi) as (s & _ & Sx).
    destruct (@normalizer_run mean std (image x) 3 (fst s) (snd s) Hm Hs Sx)
      as [_ Hgood].
    destruct Hgood as (out & Hout & So & _ & Go); [now left|].
    exists out. split; [exact Hout|]. unfold post. rewrite Sx. split; [exact So|].
    intros ch r q Hin. cbn [in_range] in Hin.
    rewrite !andb_true_iff, !Nat.ltb_lt in Hin.
    destruct Hin as (Hch & Hr & Hq & _). now rewrite Go. }
  rewrite Hnormed. cbn [bind].
  assert (Hlen : length normed = length batched_inputs).
  { apply Forall2_length in Fnormed. now rewrite length_map in Fnormed. }
  assert (Hall' : Forall2 (fun t s => size t = ([3] ++ [fst s; snd s])%list)
                          normed sizes).
  { apply Forall2_length in Hall as Hls.
    clear -Fnormed Hall. revert normed Fnormed.
    induction Hall as [|x s xs ss Hx _ IH]; intros normed Fn.
    - cbn [map] in Fn. inversion Fn. constructor.
    - cbn [map] in Fn. inversion Fn as [|? out ? outs [So _] Fouts]; subst.
      constructor; [|now apply IH]. now rewrite So, Hx. }
  destruct (@from_tensors_run normed [3] sizes 32) as (batch & Hb & Sb & Wb & Gb);
    try assumption; try lia.
  { intros E. rewrite E in Hlen. destruct batched_inputs; [congruence|discriminate]. }
  exists batch. split; [exact Hb|]. split; [now rewrite Sb, Hlen|].
  split; [exact Wb|].
  intros i x ch r q Hi Hch Hr Hq.
  assert (Hil : i < length normed).
  { rewrite Hlen. apply nth_error_Some. congruence. }
  destruct (nth_error normed i) as [out|] eqn:Eout;
    [|apply nth_error_None in Eout; lia].
  assert (Hpost : post (image x) out).
  { destruct (@Forall2_nth_r _ _ _ _ _ _ _ Fnormed Eout) as (img & Himg & Hp).
    rewrite nth_error_map, Hi in Himg. cbn [option_map] in Himg.
    now injection Himg as <-. }
  destruct Hpost as [So Go].
  destruct (@Forall2_nth_l _ _ _ _ _ _ _ Hall Hi) as (s & Hs' & Sx).
  pose proof (Gb i out [ch] r q Eout) as G. cbn [app] in G.
  rewrite G by (assumption || (now apply in_range1)).
  rewrite (nth_error_nth _ _ (0, 0) Hs'). cbn [in_range].
  rewrite andb_true_r.
  destruct ((r <? fst s) && (q <? snd s)) eqn:Ein; [|reflexivity].
  apply andb_true_iff in Ein as [Er Eq]. apply Nat.ltb_lt in Er, Eq.
  apply Go. rewrite Sx. now apply in_range3.
Qed.

Lemma broadcast_batch_channel (b h w : nat) :
  broadcast_shapes [b; 3; h; w] [1; 3; 1; 1] = Some [b; 3; h; w].
Proof.
  unfold broadcast_shapes. cbn [rev app broadcast_rev].
  destruct (Nat.eqb_spec w 1) as [->|?]; destruct (Nat.eqb_spec h 1) as [->|?];
    destruct (Nat.eqb_spec b 1) as [->|?]; reflexivity.
Qed.

(** A binary operator between a batch (b, 3, h, w) and a per-channel
    buffer viewed as (1, 3, 1, 1). *)
Lemma bop_batch_channel (f : R -> R -> R) (a : tensor R) (values : list R)
      (b h w : nat) :
  size a = [b; 3; h; w] -> length values = 3 ->
  exists out,
    bop 0%R 0%R f a (unsqueeze 0 (mkTensor [3; 1; 1] values)) = Ok out
    /\ size out = [b; 3; h; w] /\ wf out
    /\ forall i ch r q, i < b -> ch < 3 -> r < h -> q < w ->
         get 0%R out [i; ch; r; q]
         = f (get 0%R a [i; ch; r; q]) (nth ch values 0%R).
Proof.
  intros Sa Hl. unfold bop, unsqueeze. cbn [size insert_at elems].
  rewrite Sa, broadcast_batch_channel.
  eexists. split; [reflexivity|]. split; [reflexivity|]. split; [apply wf_init|].
  intros i ch r q Hi Hch Hr Hq.
  rewrite get_init by (now apply in_range4).
  rewrite bcast_index_id by (now apply in_range4). f_equal.
  assert (Eb : bcast_index [1; 3; 1; 1] [i; ch; r; q] = [0; ch; 0; 0]) by reflexivity.
  rewrite Eb. unfold get. cbn [size elems in_range offset numel fold_right].
  apply Nat.ltb_lt in Hch. rewrite Hch. change (0 <? 1) with true. cbn [andb].
  f_equal. lia.
Qed.

Lemma Forall_tmap_sigmoid (t : tensor R) : Forall in01 (elems (tmap sigmoid t)).
Proof.
  cbn [tmap elems]. rewrite Forall_map. apply Forall_forall.
  intros v _. apply sigmoid_in01.
Qed.

Lemma combined_scores_forward_test (network : tensor R -> res decoder_output)
      (self : buffers) (images normalised : tensor R) (output : decoder_output) :
  (let* centred := bop 0%R 0%R Rminus images (unsqueeze 0 (pixel_mean self)) in
   bop 0%R 0%R Rdiv centred (unsqueeze 0 (pixel_std self))) = Ok normalised ->
  network normalised = Ok output ->
  forward_test network self images
  = (let* pred_scores := combined_scores output in
     let* pred_masks :=
       F_interpolate_scale (tmap sigmoid (out_pred_masks output)) 4 in
     Ok (pred_scores, pred_masks)).
Proof.
  intros Hn Hnet. unfold forward_test, combined_scores.
  destruct (bop 0%R 0%R Rminus images (unsqueeze 0 (pixel_mean self)))
    as [centred|e]; cbn [bind] in *; [|discriminate].
  rewrite Hn. cbn [bind]. rewrite Hnet. cbn [bind].
  destruct (bop 0%R 0%R Rmult _ _); reflexivity.
Qed.


(** ** Assertions along the forward pass *)

Lemma max_last_no_assert x : asserts_in (max_last x) [].
Proof.
  intros line H. unfold max_last in H.
  destruct (dim x); [discriminate|].
  destruct (nth_error (size x) n) as [[|m]|] eqn:E; try discriminate.
  rewrite !(@reduce_ok _ _ _ _ _ _ _ E) in H. discriminate.
Qed.

Lemma index_mask_no_assert {A} (z : A) t keep : asserts_in (index_mask z t keep) [].
Proof. intros line H. unfold index_mask in H. crunch H. Qed.

Lemma F_interpolate_no_assert x s : asserts_in (F_interpolate x s) [].
Proof. intros line H. unfold F_interpolate in H. crunch H. Qed.

Lemma sum12_no_assert x : asserts_in (sum12 x) [].
Proof. unfold sum12. repeat asserts_step. Qed.

Lemma rescoring_mask_no_assert s p m : asserts_in (rescoring_mask s p m) [].
Proof.
  unfold rescoring_mask.
  repeat first [apply sum12_no_assert | asserts_step].
Qed.

Lemma inference_image_no_assert cfg max_shape spi mpi input img_shape :
  asserts_in (inference_image cfg max_shape spi mpi input img_shape) [].
Proof.
  unfold inference_image.
  apply asserts_in_bind; [apply max_last_no_assert|intros best _].
  apply asserts_in_bind; [apply index_mask_no_assert|intros sc _].
  apply asserts_in_bind; [apply index_mask_no_assert|intros lb _].
  apply asserts_in_bind; [apply index_mask_no_assert|intros mk _].
  apply asserts_in_bind; [apply tsize_no_assert|intros kept _].
  destruct (kept =? 0); [apply asserts_in_Ok|].
  destruct img_shape as [h w].
  apply asserts_in_bind; [apply rescoring_mask_no_assert|intros sc' _].
  apply asserts_in_bind; [apply F_interpolate_no_assert|intros p _].
  apply asserts_in_bind; [apply slice_no_assert|intros q _].
  apply asserts_in_bind; [apply slice_no_assert|intros q' _].
  apply asserts_in_bind; [apply F_interpolate_no_assert|intros m _].
  apply asserts_in_Ok.
Qed.

Lemma inference_no_assert cfg output inputs max_shape sizes :
  asserts_in (inference cfg output inputs max_shape sizes) [].
Proof.
  unfold inference.
  apply asserts_in_bind; [apply bop_no_assert|intros product _].
  apply asserts_in_mapM. intros [[[spi mpi] input] shape] _.
  apply inference_image_no_assert.
Qed.

Lemma normalizer_no_assert self image : asserts_in (normalizer self image) [].
Proof. unfold normalizer. repeat asserts_step. Qed.

Lemma mapM_no_raise_last2 ts : asserts_in (mapM last2 ts) [].
Proof.
  apply asserts_in_mapM. intros t _ line H. unfold last2 in H. crunch H.
Qed.

Lemma from_tensors_asserts ts s : asserts_in (from_tensors ts s) [0].
Proof.
  unfold from_tensors.
  apply asserts_in_bind; [apply asserts_in_assert; now left|intros _ _].
  apply asserts_in_bind; [apply asserts_in_assert; now left|intros _ _].
  apply asserts_in_bind.
  { eapply asserts_in_mono; [apply mapM_no_raise_last2|intros ? []]. }
  intros sizes _.
  destruct (1 <? s); apply asserts_in_Ok.
Qed.

Lemma preprocess_inputs_asserts self inputs :
  asserts_in (preprocess_inputs self inputs) [0].
Proof.
  unfold preprocess_inputs. apply asserts_in_bind.
  - apply (@asserts_in_mono _ _ [] [0]); [|intros ? []].
    apply asserts_in_mapM. intros x _. apply normalizer_no_assert.
  - intros images _. apply from_tensors_asserts.
Qed.

Lemma ImageList_getitem_no_assert il i : asserts_in (ImageList_getitem il i) [].
Proof.
  unfold ImageList_getitem. destruct (nth_error (image_sizes il) i) as [[h w]|].
  - repeat asserts_step.
  - intros line H. discriminate.
Qed.

Lemma prepare_targets_asserts insts : asserts_in (prepare_targets insts) [0].
Proof.
  unfold prepare_targets. apply asserts_in_mapM. intros inst _ line H.
  apply prepare_target_raises in H as [[H _]|[H|[H|H]]]; try discriminate.
  injection H as ->. now left.
Qed.

Lemma unfold_wo_center_no_assert {A} (z : A) (x : tensor A) (k d : Z) :
  dim x = 4 -> (k mod 2 = 1)%Z -> asserts_in (unfold_wo_center z x k d) [].
Proof.
  intros H Hk. unfold unfold_wo_center. rewrite H, Hk.
  cbn [Nat.eqb Z.eqb Pos.eqb assert bind].
  repeat asserts_step.
Qed.

Lemma color_similarity_no_assert (images mask : tensor R) (k d : Z) :
  dim images = 4 -> tlen images = 1 -> dim mask = 2 -> (k mod 2 = 1)%Z ->
  asserts_in (get_images_color_similarity images mask k d) [].
Proof.
  intros Hd Hb Hm Hk. unfold get_images_color_similarity.
  assert (Hsz : tsize images 0 = Ok (tlen images)).
  { unfold tsize, tlen, dim in *. destruct (size images); [discriminate|reflexivity]. }
  rewrite Hd, Hsz, Hb. cbn [Nat.eqb assert bind].
  apply asserts_in_bind; [now apply unfold_wo_center_no_assert|intros ui _].
  apply asserts_in_bind; [apply bop_no_assert|intros diff _].
  apply asserts_in_bind; [apply reduce_no_assert|intros dist _].
  apply asserts_in_bind.
  { apply unfold_wo_center_no_assert; [|exact Hk].
    unfold dim, unsqueeze in *. cbn [size].
    destruct (size mask) as [|a [|b [|? ?]]]; try discriminate. reflexivity. }
  intros uw _.
  apply asserts_in_bind; [apply select_no_assert|intros wt _].
  apply bop_no_assert.
Qed.

Lemma select_size {A} (z : A) (axis i : nat) (t y : tensor A) :
  select z axis i t = Ok y -> size y = remove_at axis (size t).
Proof.
  unfold select. destruct (nth_error (size t) axis); [|discriminate].
  destruct (i <? n); [|discriminate]. now intros [= <-].
Qed.

Lemma slice_size {A} (z : A) (axis : nat) (start stop : option Z) (step : Z)
      (t y : tensor A) :
  slice z axis start stop step t = Ok y -> dim y = dim t.
Proof.
  unfold slice. destruct (nth_error (size t) axis) as [len|]; [|discriminate].
  destruct (slice_indices len start stop step) as [lo cnt].
  intros [= <-]. unfold dim. cbn [size init].
  clear. generalize (size t). induction axis as [|a IH]; intros [|x l];
    cbn [set_at length]; try reflexivity. now rewrite IH.
Qed.

Lemma add_bitmasks_image_no_assert byte rgb (ds ms : tensor R) im_i inst :
  dim ds = 4 -> dim ms = 3 ->
  asserts_in (add_bitmasks_image byte rgb ds ms im_i inst) [].
Proof.
  intros Hds Hms. unfold add_bitmasks_image.
  apply asserts_in_bind; [apply select_no_assert|intros img Himg].
  apply asserts_in_bind; [apply rgb2lab_no_assert|intros lab Hlab].
  apply asserts_in_bind; [apply select_no_assert|intros mask Hmask].
  apply asserts_in_bind.
  - apply color_similarity_no_assert; [reflexivity|reflexivity| |reflexivity].
    apply select_size in Hmask. unfold dim in *. rewrite Hmask.
    destruct (size ms) as [|a [|b [|c [|? ?]]]]; try discriminate. reflexivity.
  - intros ics _.
    apply asserts_in_bind; [apply Instances_len_no_assert|intros n _].
    destruct (0 <? n); [|apply asserts_in_Ok].
    apply asserts_in_bind; [apply cat_no_assert|intros rep _].
    apply asserts_in_Ok.
Qed.

Lemma F_avg_pool2d_size x k y :
  F_avg_pool2d x k = Ok y -> dim y = 4.
Proof.
  unfold F_avg_pool2d.
  destruct (size x) as [|n [|c [|h [|w [|? ?]]]]]; try discriminate.
  destruct ((k =? 0) || (h <? k) || (w <? k)); [discriminate|].
  now intros [= <-].
Qed.

(** With a 4D batch whose height and width are multiples of 4 and 3D
    validity masks, no assertion can fail in [add_bitmasks_from_boxes]. *)
Lemma add_bitmasks_from_boxes_no_assert byte rgb insts (images masks : tensor R)
      im_h im_w (b c h w : nat) :
  size images = [b; c; h; w] -> h mod 4 = 0 -> w mod 4 = 0 -> dim masks = 3 ->
  asserts_in (add_bitmasks_from_boxes byte rgb insts images masks im_h im_w) [].
Proof.
  intros Si Hh Hw Hm. unfold add_bitmasks_from_boxes, tsize. rewrite Si.
  cbn [nth_error bind]. rewrite Hh, Hw. cbn [Nat.eqb assert bind].
  apply asserts_in_bind; [apply F_avg_pool2d_no_assert|intros ds Hds].
  apply asserts_in_bind; [apply slice_no_assert|intros m1 Hm1].
  apply asserts_in_bind; [apply slice_no_assert|intros m2 Hm2].
  apply asserts_in_mapM. intros [i inst] _. cbn [fst snd].
  apply add_bitmasks_image_no_assert.
  - now apply F_avg_pool2d_size in Hds.
  - apply slice_size in Hm1, Hm2. congruence.
Qed.

Lemma lead_length (t : tensor R) : length (lead t) = dim t - 2.
Proof.
  unfold lead, dim. now rewrite length_rev, length_skipn, length_rev.
Qed.

(** The shape of a batch that [ImageList.from_tensors] has built. *)
Lemma from_tensors_shape (tensors : list (tensor R)) (stride : nat)
      (il : ImageList) :
  from_tensors tensors stride = Ok il -> 1 < stride ->
  exists t0 rest H W,
    tensors = t0 :: rest
    /\ size (il_tensor il) = (length tensors :: lead t0 ++ [H; W])%list
    /\ H mod stride = 0 /\ W mod stride = 0
    /\ length (image_sizes il) = length tensors.
Proof.
  intros Hrun Hs. unfold from_tensors in Hrun.
  destruct tensors as [|t0 rest]; [discriminate|].
  change (0 <? length (t0 :: rest)) with true in Hrun.
  cbn [assert bind hd] in Hrun.
  destruct (forallb _ _); cbn [assert bind] in Hrun; [|discriminate].
  destruct (mapM last2 (t0 :: rest)) as [sizes|] eqn:Esz;
    cbn [bind] in Hrun; [|discriminate].
  apply Nat.ltb_lt in Hs as Hs'. rewrite Hs' in Hrun.
  injection Hrun as <-. cbn [il_tensor image_sizes size init].
  exists t0, rest. do 2 eexists. split; [reflexivity|]. split; [reflexivity|].
  split; [apply round_up_spec; lia|]. split; [apply round_up_spec; lia|].
  now destruct (mapM_nth _ _ Esz).
Qed.

Lemma ImageList_getitem_dim (il : ImageList) (i : nat) (x : tensor R) :
  ImageList_getitem il i = Ok x -> dim x = dim (il_tensor il) - 1.
Proof.
  unfold ImageList_getitem.
  destruct (nth_error (image_sizes il) i) as [[h w]|]; [|discriminate].
  destruct (select 0%R 0 i (il_tensor il)) as [img|] eqn:E1;
    cbn [bind]; [|discriminate].
  destruct (slice 0%R (dim img - 2) None (Some (Z.of_nat h)) 1 img) as [img'|] eqn:E2;
    cbn [bind]; [|discriminate].
  intros E3. apply slice_size in E2, E3. apply select_size in E1.
  rewrite E3, E2. unfold dim. rewrite E1.
  destruct (size (il_tensor il)); cbn [remove_at length]; lia.
Qed.

Lemma mapM_In {X Y} (f : X -> res Y) (l : list X) (ys : list Y) (y : Y) :
  mapM f l = Ok ys -> In y ys -> exists x, In x l /\ f x = Ok y.
Proof.
  intros H Hin. apply In_nth_error in Hin as (i & Hi).
  destruct (mapM_nth _ _ H) as [Hlen Hnth].
  assert (Hil : i < length l).
  { rewrite <- Hlen. apply nth_error_Some. congruence. }
  destruct (nth_error l i) as [x|] eqn:Ex; [|apply nth_error_None in Ex; lia].
  destruct (Hnth i x Ex) as (y' & Hy' & Hf).
  exists x. split; [now apply nth_error_In in Ex|congruence].
Qed.

Lemma training_targets_asserts byte rgb insts (images masks : tensor R)
      (b c h w : nat) :
  size images = [b; c; h; w] -> h mod 4 = 0 -> w mod 4 = 0 -> dim masks = 3 ->
  asserts_in (training_targets byte rgb insts images masks) [0].
Proof.
  intros Si Hh Hw Hm. unfold training_targets, tsize. rewrite Si.
  cbn [nth_error bind].
  apply asserts_in_bind.
  - apply (@asserts_in_mono _ _ [] [0]); [|intros ? []].
    now apply (@add_bitmasks_from_boxes_no_assert byte rgb insts images masks
                 h w b c h w).
  - intros gt _. apply prepare_targets_asserts.
Qed.

Lemma mod_32_4 (n : nat) : n mod 32 = 0 -> n mod 4 = 0.
Proof.
  intros H. apply Nat.Div0.mod_divides in H as (k & ->).
  replace (32 * k) with ((8 * k) * 4) by lia. apply Nat.Div0.mod_mul.
Qed.


(** ** Properties beyond the specification: neighbourhoods and color similarity *)

(** X1: on a non-empty batched input, for an odd kernel size k and a
    dilation d >= 1, plane [j] of [unfold_wo_center]'s output holds at
    (r, q) the input pixel at the [j]-th position of the dilated k x k
    window around (r, q), the window read row by row with its centre
    left out, and the padding value where that position falls off the
    image.  No plane pairs a pixel with itself. *)
Theorem unfold_wo_center_neighbours {A} (z : A) (x : tensor A)
        (n c h w : nat) (k d : Z) :
  size x = [n; c; h; w] ->
  0 < n -> 0 < c -> 0 < h -> 0 < w ->
  (k mod 2 = 1)%Z -> (1 <= k)%Z -> (1 <= d)%Z ->
  exists y,
    unfold_wo_center z x k d = Ok y
    /\ forall b ch j r q,
         b < n -> ch < c -> j < Z.to_nat (k * k - 1) -> r < h -> q < w ->
         let p := neighbour k d j r q in
         p <> (Z.of_nat r, Z.of_nat q)
         /\ get z y [b; ch; j; r; q]
            = if inside h w p
              then get z x [b; ch; Z.to_nat (fst p); Z.to_nat (snd p)]
              else z.
Proof.
  intros Hx Hn Hc Hh Hw Hodd Hk Hd.
  destruct (@unfold_wo_center_get A z x n c h w k d)
    as (y & Hy & _ & G); try assumption.
  exists y. split; [assumption|].
  intros b ch j r q Hb Hch Hj Hr Hq p. split.
  - now apply neighbour_not_centre.
  - now apply G.
Qed.

Lemma unfold_wo_center_neighbours_witness :
  exists y,
    unfold_wo_center 0 (mkTensor [1; 1; 3; 3] [1; 2; 3; 4; 5; 6; 7; 8; 9]) 3 2
    = Ok y
    /\ get 0 y [0; 0; 7; 0; 0] = 9
    /\ get 0 y [0; 0; 0; 0; 0] = 0.
Proof.
  destruct (@unfold_wo_center_neighbours nat 0
              (mkTensor [1; 1; 3; 3] [1; 2; 3; 4; 5; 6; 7; 8; 9]) 1 1 3 3 3 2)
    as (y & Hy & G); try reflexivity; try lia.
  exists y. split; [assumption|]. split.
  - destruct (G 0 0 7 0 0) as (_ & ->); try lia. reflexivity.
  - destruct (G 0 0 0 0 0) as (_ & ->); try lia. reflexivity.
Defined.

(** X2: the color similarity of a single image in closed form.  For
    neighbour [j] of pixel (r, q), at position p of the dilated window:
    when p lies on the image, the entry is exp(-0.5 * distance) times
    the validity mask at p, the distance being the Euclidean norm over
    the channels of the colour difference between (r, q) and p; when p
    falls off the image the entry is 0, whatever the mask. *)
Theorem color_similarity_neighbours (images image_masks : tensor R)
        (c h w : nat) (k d : Z) :
  size images = [1; c; h; w] -> size image_masks = [h; w] ->
  0 < c -> 0 < h -> 0 < w ->
  (k mod 2 = 1)%Z -> (1 <= k)%Z -> (1 <= d)%Z ->
  exists out,
    get_images_color_similarity images image_masks k d = Ok out
    /\ forall j r q, j < Z.to_nat (k * k - 1) -> r < h -> q < w ->
         let p := neighbour k d j r q in
         let nr := Z.to_nat (fst p) in
         let nq := Z.to_nat (snd p) in
         get 0%R out [0; j; r; q]
         = if inside h w p
           then (exp (- norm2 (map (fun ch =>
                                      (get 0%R images [0%nat; ch; r; q]
                                       - get 0%R images [0%nat; ch; nr; nq])%R)
                                   (seq 0 c)) * 0.5)
                 * get 0%R image_masks [nr; nq])%R
           else 0%R.
Proof.
  intros Himages Hmasks Hc Hh Hw Hodd Hk Hd.
  destruct (@color_similarity_value images image_masks c h w k d)
    as (out & Hout & _ & G); try assumption.
  exists out. split; assumption.
Qed.

Lemma color_similarity_neighbours_witness :
  exists out,
    get_images_color_similarity (mkTensor [1; 1; 1; 1] [5%R])
                                (mkTensor [1; 1] [1%R]) 3 2 = Ok out
    /\ get 0%R out [0; 3; 0; 0] = 0%R.
Proof.
  destruct (@color_similarity_neighbours (mkTensor [1; 1; 1; 1] [5%R])
              (mkTensor [1; 1] [1%R]) 1 1 1 3 2)
    as (out & Hout & G); try reflexivity; try lia.
  exists out. split; [assumption|].
  rewrite G by lia. reflexivity.
Defined.

(** X3: between a pixel and a neighbour on the image whose validity
    mask is 1, the color similarity is 1 exactly when the two pixels
    have the same value in every channel. *)
Theorem color_similarity_one_iff (images image_masks : tensor R)
        (c h w : nat) (k d : Z) :
  size images = [1; c; h; w] -> size image_masks = [h; w] ->
  0 < c -> 0 < h -> 0 < w ->
  (k mod 2 = 1)%Z -> (1 <= k)%Z -> (1 <= d)%Z ->
  exists out,
    get_images_color_similarity images image_masks k d = Ok out
    /\ forall j r q, j < Z.to_nat (k * k - 1) -> r < h -> q < w ->
         let p := neighbour k d j r q in
         let nr := Z.to_nat (fst p) in
         let nq := Z.to_nat (snd p) in
         inside h w p = true -> get 0%R image_masks [nr; nq] = 1%R ->
         (get 0%R out [0; j; r; q] = 1%R
          <-> forall ch, ch < c ->
                get 0%R images [0; ch; r; q] = get 0%R images [0; ch; nr; nq]).
Proof.
  intros Himages Hmasks Hc Hh Hw Hodd Hk Hd.
  destruct (@color_similarity_value images image_masks c h w k d)
    as (out & Hout & _ & G); try assumption.
  exists out. split; [assumption|].
  intros j r q Hj Hr Hq p nr nq Hin Hm.
  rewrite (G j r q Hj Hr Hq). fold p nr nq. rewrite Hin, Hm, Rmult_1_r.
  set (l := map _ _).
  split.
  - intros H. assert (Hn : norm2 l = 0%R).
    { assert (E : (- norm2 l * 0.5 = 0)%R)
        by (apply exp_inv; now rewrite exp_0).
      lra. }
    apply norm2_zero_iff in Hn. rewrite Forall_forall in Hn.
    intros ch Hch.
    assert (Hd0 : (get 0 images [0%nat; ch; r; q]
                   - get 0 images [0%nat; ch; nr; nq] = 0)%R).
    { apply Hn. unfold l. apply in_map_iff. exists ch. split; [reflexivity|].
      apply in_seq. lia. }
    lra.
  - intros H. assert (Hn : norm2 l = 0%R).
    { apply norm2_zero_iff. rewrite Forall_forall. intros v Hv.
      unfold l in Hv. apply in_map_iff in Hv. destruct Hv as (ch & <- & Hch).
      apply in_seq in Hch. rewrite H by lia. ring. }
    rewrite Hn. replace (- 0 * 0.5)%R with 0%R by ring. apply exp_0.
Qed.

Lemma color_similarity_one_iff_witness :
  exists out,
    get_images_color_similarity
      (mkTensor [1; 1; 3; 3] [7; 0; 0; 0; 0; 0; 0; 0; 7]%R)
      (full [3; 3] 1%R) 3 2 = Ok out
    /\ get 0%R out [0; 7; 0; 0] = 1%R.
Proof.
  destruct (@color_similarity_one_iff
              (mkTensor [1; 1; 3; 3] [7; 0; 0; 0; 0; 0; 0; 0; 7]%R)
              (full [3; 3] 1%R) 1 3 3 3 2)
    as (out & Hout & G); try reflexivity; try lia.
  exists out. split; [assumption|].
  apply (G 7 0 0); try reflexivity; try lia.
  intros ch Hch. assert (ch = 0) by lia. subst ch. reflexivity.
Defined.

(** X4: the color similarity is symmetric.  When neighbour [j] of pixel
    (r, q) lies on the image at p, and the validity mask has the same
    value at both pixels, the similarity stored for (r, q) in plane [j]
    equals the one stored for p in the opposite plane k*k - 2 - j,
    whose neighbour of p is (r, q). *)
Theorem color_similarity_symmetric (images image_masks : tensor R)
        (c h w : nat) (k d : Z) :
  size images = [1; c; h; w] -> size image_masks = [h; w] ->
  0 < c -> 0 < h -> 0 < w ->
  (k mod 2 = 1)%Z -> (1 <= k)%Z -> (1 <= d)%Z ->
  exists out,
    get_images_color_similarity images image_masks k d = Ok out
    /\ forall j r q, j < Z.to_nat (k * k - 1) -> r < h -> q < w ->
         let p := neighbour k d j r q in
         let nr := Z.to_nat (fst p) in
         let nq := Z.to_nat (snd p) in
         let j' := Z.to_nat (k * k - 1) - 1 - j in
         inside h w p = true ->
         neighbour k d j' nr nq = (Z.of_nat r, Z.of_nat q)
         /\ (get 0%R image_masks [r; q] = get 0%R image_masks [nr; nq] ->
             get 0%R out [0; j'; nr; nq] = get 0%R out [0; j; r; q]).
Proof.
  intros Himages Hmasks Hc Hh Hw Hodd Hk Hd.
  destruct (@color_similarity_value images image_masks c h w k d)
    as (out & Hout & _ & G); try assumption.
  exists out. split; [assumption|].
  intros j r q Hj Hr Hq p nr nq j' Hin.
  destruct (inside_bounds _ _ _ Hin) as (H1 & H2 & H3 & H4).
  pose proof (@neighbour_opposite k d j r q Hodd Hk Hd Hj H1 H2) as Hopp.
  fold p in Hopp. fold nr nq j' in Hopp.
  split; [exact Hopp|]. intros Hm.
  rewrite (G j r q Hj Hr Hq). fold p nr nq. rewrite Hin.
  rewrite G by (assumption || (unfold j'; lia)). cbn zeta.
  rewrite Hopp. cbn [fst snd]. rewrite !Nat2Z.id.
  rewrite inside_of_nat by assumption. rewrite Hm. do 4 f_equal.
  apply (norm2_swap (fun ch => get 0%R images [0; ch; nr; nq])
                    (fun ch => get 0%R images [0; ch; r; q])).
Qed.

Lemma color_similarity_symmetric_witness :
  exists out,
    get_images_color_similarity
      (mkTensor [1; 1; 3; 3] [7; 0; 0; 0; 0; 0; 0; 0; 4]%R)
      (full [3; 3] 1%R) 3 2 = Ok out
    /\ get 0%R out [0; 0; 2; 2] = get 0%R out [0; 7; 0; 0].
Proof.
  destruct (@color_similarity_symmetric
              (mkTensor [1; 1; 3; 3] [7; 0; 0; 0; 0; 0; 0; 0; 4]%R)
              (full [3; 3] 1%R) 1 3 3 3 2)
    as (out & Hout & G); try reflexivity; try lia.
  exists out. split; [assumption|].
  apply (G 7 0 0); try reflexivity; lia.
Defined.


(** ** Properties beyond the specification: rescoring *)

(** X5: [rescoring_mask] guards its division with 1e-6.  A detection
    whose boolean mask is empty gets the score 0, whatever its
    classification score and its soft mask; nothing is raised. *)
Theorem rescoring_mask_empty_mask (scores : tensor R) (mask_pred : tensor bool)
        (masks : tensor R) (n h w : nat) :
  size scores = [n] -> size mask_pred = [n; h; w] -> size masks = [n; h; w] ->
  wf mask_pred ->
  exists out,
    rescoring_mask scores mask_pred masks = Ok out
    /\ forall i, i < n ->
         (forall r c, r < h -> c < w -> get false mask_pred [i; r; c] = false) ->
         get 0%R out [i] = 0%R.
Proof.
  intros Hs Hp Hm Wp.
  destruct (@rescoring_mask_value scores mask_pred masks n h w)
    as (out & Hout & _ & _ & G); try assumption.
  exists out. split; [assumption|].
  intros i Hi Hempty. rewrite (G i Hi).
  rewrite (@sum_hw_ext h w _ (fun _ _ => 0%R)).
  2:{ intros r c Hr Hc. rewrite Hempty by assumption. cbn [b2r]. ring. }
  rewrite sum_hw_zero. unfold Rdiv. ring.
Qed.

Lemma rescoring_mask_empty_mask_witness :
  exists out,
    rescoring_mask (mkTensor [1] [0.9%R]) (mkTensor [1; 1; 2] [false; false])
                   (mkTensor [1; 1; 2] [0.5%R; 0.25%R]) = Ok out
    /\ get 0%R out [0] = 0%R.
Proof.
  destruct (@rescoring_mask_empty_mask (mkTensor [1] [0.9%R])
              (mkTensor [1; 1; 2] [false; false])
              (mkTensor [1; 1; 2] [0.5%R; 0.25%R]) 1 1 2)
    as (out & Hout & G); try reflexivity.
  exists out. split; [assumption|].
  apply G; [lia|].
  intros r c Hr Hc.
  assert (r = 0) by lia. subst r.
  destruct c as [|[|c]]; [reflexivity|reflexivity|lia].
Defined.




(** ** Properties beyond the specification: the post-processor *)



(** X8: the class of a detection is the first class that attains the
    best combined score of its slot.  Every stored label is a valid
    class index, the score of that class in the slot equals the slot's
    best score, no class scores more, every class before it scores
    strictly less, and the labels are as many as the scores. *)
Theorem inference_labels_argmax (cfg : config) (max_shape : nat * nat)
        (spi mpi : tensor R) (input : batched_input) (img_shape : nat * nat)
        (n c hm wm : nat) :
  size spi = [n; c] -> 0 < c -> size mpi = [n; hm; wm] ->
  0 < hm -> 0 < wm -> 0 < fst max_shape -> 0 < snd max_shape ->
  0 < fst img_shape -> 0 < snd img_shape ->
  0 < height input -> 0 < width input ->
  let rows :=
    filter (fun i => if Rlt_dec (cls_threshold cfg) (best_score spi i)
                     then true else false) (seq 0 n) in
  exists r sc lb,
    inference_image cfg max_shape spi mpi input img_shape = Ok r
    /\ scores r = Some sc /\ pred_classes r = Some lb
    /\ size lb = [length rows] /\ size sc = [length rows]
    /\ forall j, j < length rows ->
         let slot := nth j rows 0 in
         let label := get 0%Z lb [j] in
         (0 <= label < Z.of_nat c)%Z
         /\ get 0%R spi [slot; Z.to_nat label] = best_score spi slot
         /\ (forall cl, cl < c ->
               (get 0%R spi [slot; cl] <= get 0%R spi [slot; Z.to_nat label])%R)
         /\ (forall cl, cl < Z.to_nat label ->
               (get 0%R spi [slot; cl] < get 0%R spi [slot; Z.to_nat label])%R).
Proof.
  intros Hs Hc Hm Hhm Hwm HH HW Hh Hw Hoh How rows.
  destruct (@inference_image_run cfg max_shape spi mpi input img_shape
              n c hm wm Hs Hc Hm) as [Hempty Hfull].
  fold rows in Hempty, Hfull.
  assert (Hlab : forall j, j < length rows ->
            let slot := nth j rows 0 in
            let label :=
              get 0%Z (init [length rows]
                         (fun idx => best_label spi (nth (hd 0 idx) rows 0))) [j] in
            (0 <= label < Z.of_nat c)%Z
            /\ get 0%R spi [slot; Z.to_nat label] = best_score spi slot
            /\ (forall cl, cl < c ->
                  (get 0%R spi [slot; cl] <= get 0%R spi [slot; Z.to_nat label])%R)
            /\ (forall cl, cl < Z.to_nat label ->
                  (get 0%R spi [slot; cl] < get 0%R spi [slot; Z.to_nat label])%R)).
  { intros j Hj slot label. unfold label.
    rewrite get_init by (now apply in_range1). cbn [hd]. fold slot.
    destruct (@best_label_spec spi n c slot Hs Hc) as (H1 & H2 & H3 & H4).
    rewrite H2. repeat split; try lia; assumption. }
  destruct rows as [|row0 rest] eqn:Erows.
  - exists (empty_result input), (mkTensor [0] []), (mkTensor [0] []).
    split; [now apply Hempty|]. repeat split; simpl in *; lia.
  - destruct Hfull as (sc & mk & Hr & Ssc & _); try assumption; try discriminate.
    eexists. exists sc. eexists.
    split; [exact Hr|]. split; [reflexivity|]. split; [reflexivity|].
    split; [reflexivity|]. split; [exact Ssc|]. exact Hlab.
Qed.

Lemma inference_labels_argmax_witness :
  exists r lb,
    inference_image lenient_config (4, 4)
                    (mkTensor [1; 3] [0.25; 0.5; 0.5]%R)
                    (mkTensor [1; 1; 1] [0.75%R])
                    example_input (4, 4) = Ok r
    /\ pred_classes r = Some lb
    /\ size lb = [1].
Proof.
  assert (Hb : best_score (mkTensor [1; 3] [0.25; 0.5; 0.5]%R) 0 = 0.5%R).
  { unfold best_score. cbn [size nth seq map].
    change (get 0%R (mkTensor [1; 3] [0.25; 0.5; 0.5]%R) [0; 0]) with 0.25%R.
    change (get 0%R (mkTensor [1; 3] [0.25; 0.5; 0.5]%R) [0; 1]) with 0.5%R.
    change (get 0%R (mkTensor [1; 3] [0.25; 0.5; 0.5]%R) [0; 2]) with 0.5%R.
    cbn [max_arg].
    destruct (Rlt_dec 0.5 0.5) as [Hlt|_]; [lra|].
    destruct (Rlt_dec 0.25 0.5) as [_|Hn]; [reflexivity|lra]. }
  assert (Hrows : filter (fun i => if Rlt_dec (cls_threshold lenient_config)
                                        (best_score
                                           (mkTensor [1; 3] [0.25; 0.5; 0.5]%R) i)
                                   then true else false) (seq 0 1) = [0]).
  { cbn [seq filter]. rewrite Hb.
    destruct (Rlt_dec (cls_threshold lenient_config) 0.5) as [_|Hn];
      [reflexivity|]. exfalso. apply Hn. cbn [cls_threshold lenient_config]. lra. }
  destruct (@inference_labels_argmax lenient_config (4, 4)
              (mkTensor [1; 3] [0.25; 0.5; 0.5]%R) (mkTensor [1; 1; 1] [0.75%R])
              example_input (4, 4) 1 3 1 1)
    as (r & sc & lb & Hr & _ & Hlb & Slb & _); try reflexivity; try (simpl; lia).
  exists r, lb. split; [assumption|]. split; [assumption|].
  rewrite Slb, Hrows. reflexivity.
Defined.

(** X9: the post-processor checks nothing about the decoder output
    itself.  A score matrix without classes, or a stack of soft masks
    with a different number of slots than the score matrix, surfaces as
    an [IndexError] from the indexing operations. *)
Theorem inference_image_malformed (cfg : config) (max_shape : nat * nat)
        (spi mpi : tensor R) (input : batched_input) (img_shape : nat * nat)
        (n n' c hm wm : nat) :
  size spi = [n; c] -> size mpi = [n'; hm; wm] ->
  (c = 0 \/ n' <> n) ->
  inference_image cfg max_shape spi mpi input img_shape = Raise IndexError.
Proof. apply inference_image_malformed_run. Qed.

Lemma inference_image_malformed_witness :
  inference_image lenient_config (4, 4)
                  (mkTensor [2; 1] [0.5; 0.5]%R) (mkTensor [1; 1; 1] [0.75%R])
                  example_input (4, 4) = Raise IndexError.
Proof.
  apply (@inference_image_malformed lenient_config (4, 4)
           (mkTensor [2; 1] [0.5; 0.5]%R) (mkTensor [1; 1; 1] [0.75%R])
           example_input (4, 4) 2 1 1 1 1); try reflexivity.
  right. lia.
Defined.

(** X10: the batch loop of [inference] zips four sequences and stops
    at the shortest.  Whatever the lengths of [batched_inputs] and
    [image_sizes], it returns as many results as the shortest of the
    batch, the inputs and the image sizes has entries; surplus entries
    are ignored without an error, and result [i] carries the original
    size of input [i]. *)
Theorem inference_zip_truncates (cfg : config) (output : decoder_output)
        (batched_inputs : list batched_input) (max_shape : nat * nat)
        (image_sizes : list (nat * nat)) (b n c hm wm : nat) :
  size (out_pred_logits output) = [b; n; c] -> 0 < c ->
  size (out_pred_masks output) = [b; n; hm; wm] -> 0 < hm -> 0 < wm ->
  size (out_pred_scores output) = [b; n; 1] ->
  0 < fst max_shape -> 0 < snd max_shape ->
  Forall (fun s => 0 < fst s /\ 0 < snd s) image_sizes ->
  Forall (fun input => 0 < height input /\ 0 < width input) batched_inputs ->
  exists results,
    inference cfg output batched_inputs max_shape image_sizes = Ok results
    /\ length results
       = Nat.min b (Nat.min (length batched_inputs) (length image_sizes))
    /\ forall i r, nth_error results i = Some r ->
         exists input,
           nth_error batched_inputs i = Some input
           /\ image_size r = (height input, width input).
Proof. apply inference_zip_run. Qed.

Lemma inference_zip_truncates_witness :
  exists results,
    inference lenient_config example_output
              [example_input; mkInput 5 7; mkInput 1 1] (4, 4) [(4, 4); (3, 3)]
    = Ok results
    /\ length results = 1.
Proof.
  destruct (@inference_zip_truncates lenient_config example_output
              [example_input; mkInput 5 7; mkInput 1 1] (4, 4) [(4, 4); (3, 3)]
              1 1 1 1 1)
    as (results & Hres & Hlen & _);
    try reflexivity; try (simpl; lia);
    try (repeat constructor; simpl; lia).
  exists results. split; assumption.
Defined.


(** ** Properties beyond the specification: targets *)




(** X13: the box tensor's shape is not checked before the loop.  With
    all three fields present, an image without boxes fails in
    [torch.stack] with a [RuntimeError], and boxes with fewer than four
    coordinates fail with an [IndexError] when the missing coordinate
    is read. *)
Theorem prepare_target_box_shape (inst : Instances) (gt_box : tensor Q)
        (cls : tensor Z) (sim : tensor R) (n m : nat) :
  gt_boxes inst = Some gt_box -> gt_classes inst = Some cls ->
  image_color_similarity inst = Some sim ->
  size gt_box = [n; m] ->
  (n = 0 -> prepare_target inst = Raise RuntimeError)
  /\ (0 < n -> m < 4 -> prepare_target inst = Raise IndexError).
Proof.
  intros Hb Hc Hs Sb. unfold prepare_target. rewrite Hc, Hs, Hb.
  cbn [getattr bind]. destruct (image_size inst) as [h w].
  unfold unbind0, tlen. rewrite Sb. cbn [hd tl]. split.
  - intros ->. reflexivity.
  - intros Hn Hm. destruct n as [|n]; [lia|]. cbn [seq map mapM].
    set (per_box := init [m] _).
    assert (E : bitmask_from_box h w per_box = Raise IndexError).
    { unfold bitmask_from_box, item, select.
      change (size per_box) with [m]. cbn [nth_error].
      destruct m as [|[|[|[|m]]]]; [reflexivity..|lia]. }
    rewrite E. reflexivity.
Qed.

Lemma prepare_target_box_shape_witness :
  prepare_target
    (mkInstances (2, 3) (Some (mkTensor [1; 3] [0; 0; 1]%Q))
                 (Some (mkTensor [1] [7%Z])) (Some (mkTensor [0] []))
                 None None None) = Raise IndexError.
Proof.
  destruct (@prepare_target_box_shape
              (mkInstances (2, 3) (Some (mkTensor [1; 3] [0; 0; 1]%Q))
                           (Some (mkTensor [1] [7%Z])) (Some (mkTensor [0] []))
                           None None None)
              (mkTensor [1; 3] [0; 0; 1]%Q) (mkTensor [1] [7%Z])
              (mkTensor [0] []) 1 3 eq_refl eq_refl eq_refl eq_refl) as [_ H].
  apply H; lia.
Defined.



(** X15: the instance sets are matched to the images by position, and
    nothing checks that there are enough images: with more instance
    sets than images the first surplus one raises an [IndexError]. *)
Theorem add_bitmasks_from_boxes_surplus (byte : R -> R)
        (rgb : R * R * R -> R * R * R)
        (instances : list Instances) (images image_masks : tensor R)
        (im_h im_w b h w : nat) :
  size images = [b; 3; 4 * h; 4 * w] -> size image_masks = [b; 4 * h; 4 * w] ->
  0 < h -> 0 < w -> b < length instances ->
  Forall (fun inst => gt_boxes inst <> None) instances ->
  add_bitmasks_from_boxes byte rgb instances images image_masks im_h im_w
  = Raise IndexError.
Proof.
  intros Si Sm Hh Hw Hlen Hall.
  destruct (@add_bitmasks_from_boxes_run byte rgb instances images image_masks
              im_h im_w b h w Si Sm Hh Hw) as (ds & ms & Sds & Sms & ->).
  destruct (nth_error instances b) as [inst|] eqn:Einst;
    [|apply nth_error_None in Einst; lia].
  apply (@mapM_raise _ _ _ _ b (b, inst)).
  - now apply nth_error_combine_seq.
  - cbn [fst snd]. unfold add_bitmasks_image, select. rewrite Sds.
    cbn [nth_error]. rewrite Nat.ltb_irrefl. reflexivity.
  - intros j [k inst'] Hj Hy. apply nth_error_combine_seq_inv in Hy as [-> Hy].
    rewrite Forall_forall in Hall.
    specialize (Hall inst' (nth_error_In _ _ Hy)).
    destruct (gt_boxes inst') as [bx|] eqn:Hbx; [|congruence].
    destruct (@add_bitmasks_image_attaches byte rgb ds ms j inst' bx b h w
                Sds Hh Hw Sms Hj Hbx) as (r & Hr & _).
    now exists r.
Qed.

Lemma add_bitmasks_from_boxes_surplus_witness :
  add_bitmasks_from_boxes (fun v => v) (fun p => p)
                          [zero_instances; zero_instances]
                          (full [1; 3; 4; 4] 0%R) (full [1; 4; 4] 1%R) 4 4
  = Raise IndexError.
Proof.
  apply (@add_bitmasks_from_boxes_surplus (fun v => v) (fun p => p)
           [zero_instances; zero_instances]
           (full [1; 3; 4; 4] 0%R) (full [1; 4; 4] 1%R) 4 4 1 1 1);
    try reflexivity; try (simpl; lia).
  repeat constructor; discriminate.
Defined.

(** X16: the training branch composes.  On a batch of RGB images
    padded to a multiple of 4, where every image has at least one
    (x1, y1, x2, y2) box and its class labels, the targets handed to
    the criterion exist, one per image and in order; target [i] carries
    the labels and boxes of image [i] unchanged, a color similarity of
    shape (n, 8, H/4, W/4) and n pseudo-masks of the image's own size,
    n the number of its boxes. *)
Theorem training_targets_ok (byte : R -> R) (rgb : R * R * R -> R * R * R)
        (instances : list Instances) (images image_masks : tensor R)
        (b h w : nat) :
  size images = [b; 3; 4 * h; 4 * w] -> size image_masks = [b; 4 * h; 4 * w] ->
  0 < h -> 0 < w -> length instances <= b ->
  Forall (fun inst =>
            exists bx cls n,
              gt_boxes inst = Some bx /\ gt_classes inst = Some cls
              /\ size bx = [n; 4] /\ 0 < n) instances ->
  exists targets,
    training_targets byte rgb instances images image_masks = Ok targets
    /\ length targets = length instances
    /\ forall i inst, nth_error instances i = Some inst ->
         exists t,
           nth_error targets i = Some t
           /\ gt_classes inst = Some (labels t)
           /\ gt_boxes inst = Some (boxes t)
           /\ size (color_sim t) = [tlen (boxes t); 8; h; w]
           /\ size (masks t)
              = [tlen (boxes t); fst (image_size inst); snd (image_size inst)].
Proof. apply training_targets_run. Qed.

Lemma training_targets_ok_witness :
  exists targets,
    training_targets (fun v => v) (fun p => p)
      [mkInstances (4, 4) (Some (mkTensor [1; 4] [0; 0; 1; 1]%Q))
                   (Some (mkTensor [1] [3%Z])) None None None None]
      (full [1; 3; 4; 4] 0%R) (full [1; 4; 4] 1%R)
    = Ok targets
    /\ length targets = 1.
Proof.
  destruct (@training_targets_ok (fun v => v) (fun p => p)
              [mkInstances (4, 4) (Some (mkTensor [1; 4] [0; 0; 1; 1]%Q))
                           (Some (mkTensor [1] [3%Z])) None None None None]
              (full [1; 3; 4; 4] 0%R) (full [1; 4; 4] 1%R) 1 1 1)
    as (targets & Hrun & Hlen & _); try reflexivity; try (simpl; lia).
  { repeat constructor.
    exists (mkTensor [1; 4] [0; 0; 1; 1]%Q), (mkTensor [1] [3%Z]), 1.
    repeat split; simpl; lia. }
  exists targets. split; assumption.
Defined.

(** X17: one image without ground-truth boxes aborts the training step
    of the whole batch.  When the images before position [i] each have
    boxes and labels, and image [i] has an empty box tensor and no
    color similarity of its own, the training branch raises
    [AttributeError], wherever [i] lies in the batch and whatever
    follows it. *)
Theorem training_targets_empty_image (byte : R -> R)
        (rgb : R * R * R -> R * R * R)
        (instances : list Instances) (images image_masks : tensor R)
        (b h w i : nat) (inst : Instances) (bx : tensor Q) :
  size images = [b; 3; 4 * h; 4 * w] -> size image_masks = [b; 4 * h; 4 * w] ->
  0 < h -> 0 < w -> length instances <= b ->
  Forall (fun inst => gt_boxes inst <> None) instances ->
  nth_error instances i = Some inst ->
  gt_boxes inst = Some bx -> tlen bx = 0 ->
  image_color_similarity inst = None ->
  (forall j before, j < i -> nth_error instances j = Some before ->
     exists bx' cls n,
       gt_boxes before = Some bx' /\ gt_classes before = Some cls
       /\ size bx' = [n; 4] /\ 0 < n) ->
  training_targets byte rgb instances images image_masks
  = Raise AttributeError.
Proof.
  intros Si Sm Hh Hw Hlen Hall Hinst Hbx Hzero Hnone Hbefore.
  unfold training_targets, tsize. rewrite Si. cbn [nth_error bind].
  destruct (@add_bitmasks_from_boxes_ok byte rgb instances images image_masks
              (4 * h) (4 * w) b h w Si Sm Hh Hw Hlen Hall)
    as (out & -> & Lout & Gout).
  cbn [bind]. unfold prepare_targets.
  destruct (Gout i inst Hinst) as (inst' & Hnth & _ & _ & _ & _ & _ & _ & Hsim).
  destruct (Hsim bx Hbx) as [Hsame _]. specialize (Hsame Hzero). subst inst'.
  apply (@mapM_raise _ _ _ _ i inst); [exact Hnth| |].
  - unfold prepare_target. rewrite Hnone.
    destruct (gt_classes inst); reflexivity.
  - intros j y Hj Hy.
    assert (Hlt : j < length instances).
    { rewrite <- Lout. apply nth_error_Some. congruence. }
    destruct (nth_error instances j) as [before|] eqn:Eb;
      [|apply nth_error_None in Eb; lia].
    destruct (Hbefore j before Hj Eb) as (bx' & cls & n & Hbx' & Hcls & Sbx & Hn).
    destruct (Gout j before Eb)
      as (y' & Hnth' & Hsz & Hb' & Hc' & _ & _ & _ & Hsim').
    assert (y' = y) by congruence. subst y'.
    destruct (Hsim' bx' Hbx') as [_ Hpos].
    assert (Hlenbx : tlen bx' = n) by (unfold tlen; now rewrite Sbx).
    destruct Hpos as (sim & Hs & _); [lia|].
    destruct (image_size before) as [ih iw] eqn:Eis.
    destruct (@prepare_target_total y bx' cls sim ih iw n)
      as (bm & Hrun & _); try assumption; try congruence.
    eexists. exact Hrun.
Qed.

Lemma training_targets_empty_image_witness :
  training_targets (fun v => v) (fun p => p)
    [mkInstances (4, 4) (Some (mkTensor [1; 4] [0; 0; 1; 1]%Q))
                 (Some (mkTensor [1] [3%Z])) None None None None;
     zero_instances]
    (full [2; 3; 4; 4] 0%R) (full [2; 4; 4] 1%R)
  = Raise AttributeError.
Proof.
  apply (@training_targets_empty_image (fun v => v) (fun p => p)
           [mkInstances (4, 4) (Some (mkTensor [1; 4] [0; 0; 1; 1]%Q))
                        (Some (mkTensor [1] [3%Z])) None None None None;
            zero_instances]
           (full [2; 3; 4; 4] 0%R) (full [2; 4; 4] 1%R) 2 1 1 1
           zero_instances (mkTensor [0; 4] []));
    try reflexivity; try (simpl; lia).
  - repeat constructor; discriminate.
  - intros j before Hj Hb. assert (j = 0) by lia. subst j.
    injection Hb as <-.
    exists (mkTensor [1; 4] [0; 0; 1; 1]%Q), (mkTensor [1] [3%Z]), 1.
    repeat split; simpl; lia.
Defined.
